(** * MMM-Birthday: the animation and timing core

    A shallow embedding of [MMM-Birthday.js] (version 1.3.0, the variant with
    suspend/resume), [fireworks.js] and [confetti.js].

    Modelling decisions, used throughout:
    - a JavaScript number is an exact rational ([Q]); [Infinity] is a
      separate constructor where the code can hold it.  Rounding of
      IEEE doubles and NaN are not modelled, so the quotient of
      [heightFade] is exact for a canvas of positive height only;
    - the functions of the JavaScript [Math] object are inputs of the
      model ([JsRuntime]): [Math.random] is a tape of draws, consumed in
      program order, [Math.sqrt], [Math.cos], [Math.sin] and [Math.PI]
      are left uninterpreted;
    - the browser's scheduler is explicit state: the pending [setTimeout]
      callbacks (closures are defunctionalised into [Callback]), the
      [setInterval] registrations and the pending animation frames.  One
      [Event] is one turn of the event loop, and [Date.now()] is constant
      during a turn;
    - the DOM is reduced to what the code reads and writes: the rocket and
      spark elements, the [.module] elements, the [.birthday-module]
      wrapper and the confetti canvas;
    - the only exception the code can raise is the TypeError of
      [getRandomMessage] on an empty list of messages; functions that can
      propagate it return a [Completion] with the state they leave;
    - [log] is instrumentation: it records the calls of
      [celebrateBirthday], [launch] and [Confetti.fire]; no modelled code
      reads it. *)

From Stdlib Require Import QArith Qminmax Qround Lqa ZArith List Bool Lia Arith.
From Stdlib Require Import String Ascii DecimalString.
Import ListNotations.

Local Open Scope Q_scope.

(** ** JavaScript numbers *)

(** [a < b] on numbers, as a boolean. *)
Definition Qltb (a b : Q) : bool := negb (Qle_bool b a).

(** A number that may be [Infinity] (the emitters' end time). *)
Inductive Deadline : Type :=
| Infinity
| At (t : Q).

(** [now < e]. *)
Definition before (now : Q) (e : Deadline) : bool :=
  match e with
  | Infinity => true
  | At t => Qltb now t
  end.

(** [Math.floor(r * len)] as an array index. *)
Definition floor_index (r : Q) (len : nat) : nat :=
  Z.to_nat (Qfloor (r * inject_Z (Z.of_nat len))).

(** The part of the JavaScript runtime the code calls into. *)
Record JsRuntime : Type := {
  Math_random : nat -> Q;   (* the n-th value returned by Math.random() *)
  Math_sqrt : Q -> Q;
  Math_cos : Q -> Q;
  Math_sin : Q -> Q;
  Math_PI : Q
}.

(** [Math.random()] returns a number in [0, 1). *)
Definition random_ok (rt : JsRuntime) : Prop :=
  forall n, 0 <= Math_random rt n /\ Math_random rt n < 1.

(** ** Strings *)

Fixpoint drop (n : nat) (s : string) : string :=
  match n, s with
  | O, _ => s
  | S n', String _ s' => drop n' s'
  | S _, EmptyString => EmptyString
  end.

(** [s.replace(pat, rep)] with a string pattern: the first occurrence only.
    The [$]-patterns of the replacement string are not modelled. *)
Fixpoint replace_first (pat rep s : string) : string :=
  if String.prefix pat s then (rep ++ drop (String.length pat) s)%string
  else match s with
       | EmptyString => EmptyString
       | String c s' => String c (replace_first pat rep s')
       end.

(** [n.toString().padStart(2, '0')]. *)
Definition pad2 (n : nat) : string :=
  let s := NilZero.string_of_uint (Nat.to_uint n) in
  if (String.length s <? 2)%nat then ("0" ++ s)%string else s.

(** ** confetti.js: one particle *)

Record Particle : Type := {
  p_x : Q;
  p_y : Q;
  p_angle : Q;
  p_velocity : Q;
  p_gravity : Q;
  p_drag : Q;
  p_wobble : Q;
  p_wobbleSpeed : Q;
  p_color : string;
  p_size : Q;
  p_opacity : Q;
  p_vx : Q;
  p_vy : Q
}.

Record ParticleOptions : Type := {
  o_colors : list string;
  o_velocity : Q;
  o_spread : Q;
  o_isLeftCannon : bool
}.

Definition defaultColors : list string :=
  ["#ff718d"; "#fdff6a"; "#58cffb"; "#ffffff"; "#7b52ff"]%string.

Module Particle.
Section WithRuntime.
Variable rt : JsRuntime.

  (** [new Particle(context, options)]; [n] is the position of the random
      tape.  The constructor draws seven numbers. *)
Definition new (width height : Q) (options : ParticleOptions) (n : nat)
    : Particle :=
    let cannonOffset :=
      if o_isLeftCannon options then width * 0.15 else width * 0.85 in
    let baseAngle : Q := if o_isLeftCannon options then -(45) else -(135) in
    let angleVariation := (Math_random rt n - 0.5) * 20 in
    let spreadAngle := (Math_random rt (n + 1) - 0.5) * o_spread options in
    let angle :=
      ((baseAngle + angleVariation + spreadAngle) * Math_PI rt) / 180 in
    let velocity :=
      o_velocity options * (0.95 + Math_random rt (n + 2) * 0.25) in
    {| p_x := cannonOffset;
       p_y := height - 20;
       p_angle := angle;
       p_velocity := velocity;
       p_gravity := 0.25;
       p_drag := 0.045;
       p_wobble := Math_random rt (n + 3) * 360;
       p_wobbleSpeed := Math_random rt (n + 4) * 2 - 1;
       p_color :=
         nth (floor_index (Math_random rt (n + 5))
                (List.length (o_colors options)))
           (o_colors options) "undefined"%string;
       p_size := Math_random rt (n + 6) * 6 + 4;
       p_opacity := 1;
       p_vx := Math_cos rt angle * velocity;
       p_vy := Math_sin rt angle * velocity * 1.4 |}.

Definition velocityFade (vx vy : Q) : Q :=
    Qmin 1 (Math_sqrt rt (vx * vx + vy * vy) / 6).

Definition heightFade (height y : Q) : Q :=
    1 - Qmax 0 ((y - height * 0.95) / (height * 0.05)).

  (** [update()]: the particle after the tick, and the returned boolean.
      [height] is the canvas height held by the enclosing closure. *)
Definition update (height : Q) (p : Particle) : Particle * bool :=
    let x := p_x p + p_vx p in
    let y := p_y p + p_vy p in
    let vy1 := p_vy p + p_gravity p in
    let vx := p_vx p * (1 - p_drag p) in
    let vy := vy1 * (1 - p_drag p) in
    let wobble := p_wobble p + p_wobbleSpeed p in
    let opacity := Qmin (velocityFade vx vy) (heightFade height y) in
    ({| p_x := x;
        p_y := y;
        p_angle := p_angle p;
        p_velocity := p_velocity p;
        p_gravity := p_gravity p;
        p_drag := p_drag p;
        p_wobble := wobble;
        p_wobbleSpeed := p_wobbleSpeed p;
        p_color := p_color p;
        p_size := p_size p;
        p_opacity := opacity;
        p_vx := vx;
        p_vy := vy |},
     Qltb 0.1 opacity && Qltb y height).
End WithRuntime.
End Particle.

(** ** The state of the page *)

(** [config.fireworkDuration], [config.confettiDuration]. *)
Inductive Duration : Type :=
| Infinite              (* the string "infinite" *)
| Millis (ms : Q).

Record Birthday : Type := {
  b_name : string;
  b_date : string
}.

Record Config : Type := {
  birthdays : option (list Birthday);   (* [None]: not an array *)
  fireworkDuration : Duration;
  confettiDuration : Duration
}.

(** What [this.translate("MESSAGES")] does. *)
Inductive Translation : Type :=
| TrMissing                       (* returns the key itself *)
| TrThrows
| TrNotArray
| TrMessages (ms : list string).

Definition defaultTranslations : list string :=
  ["🎉 Happy Birthday, {name}! 🎂";
   "🎈 Best wishes on your special day, {name}! 🎁";
   "🌟 Have a fantastic birthday, {name}! 🎊"]%string.

(** DOM elements.  A spark also keeps the arguments [createSpark] was
    called with. *)
Record Rocket : Type := {
  rocket_id : nat;
  rocket_left : Q
}.

Record Spark : Type := {
  spark_id : nat;
  spark_left : Q;
  spark_top : Q;
  spark_color : string;
  spark_angle : Q;       (* argument [angle], in degrees *)
  spark_velocity : Q;    (* argument [velocity] *)
  spark_duration : Q;
  spark_distance : Q;
  spark_dx : Q;          (* the translate(...) of style.transform *)
  spark_dy : Q;
  spark_faded : bool     (* style.opacity = '0' *)
}.

Record ModuleEl : Type := {
  m_birthday : bool;     (* classList.contains('birthday-module') *)
  m_filter : string;
  m_transition : string
}.

Record Wrapper : Type := {
  display : string;
  message : option string   (* the text of the only child, if any *)
}.

(** The fields of a [Fireworks] object that the code uses ([particles] is
    assigned once and never read; [container] is [document.body]). *)
Record FireworksObj : Type := {
  colors : list string;
  endTime : Deadline
}.

(** The closures passed to [setTimeout]. *)
Inductive Callback : Type :=
| CbLaunchNext                                        (* fireworks.js, start *)
| CbExplode (rocket : nat) (x : Q) (color : string)   (* launch, 800 ms *)
| CbRemoveRocket (rocket : nat)                       (* launch, 1000 ms *)
| CbFadeSpark (spark : nat)                           (* createSpark *)
| CbRemoveSpark (spark : nat)                         (* createExplosion *)
| CbFireBurst (isInfinite : bool) (end_ : Deadline)   (* startConfetti *)
| CbStopCelebration.                                  (* celebrateBirthday *)

Inductive Action : Type :=
| ActCelebrate (name : option string)
| ActLaunch (x : Q) (color : string)
| ActBurst.

Record World : Type := {
  (* the module object *)
  config : Config;
  translate : Translation;
  celebrating : bool;
  wasCelebrating : bool;          (* this._wasCelebrating *)
  fireworks : option FireworksObj;
  (* the Confetti closure *)
  c_width : Q;
  c_height : Q;
  particles : list Particle;
  isAnimating : bool;
  animationFrame : option nat;
  canvas : list Particle;         (* what the last frame drew *)
  (* window and document *)
  innerWidth : Z;
  innerHeight : Z;
  rockets : list Rocket;
  sparks : list Spark;
  modules : list ModuleEl;
  wrapper : option Wrapper;       (* the first .birthday-module element *)
  canvasAttached : bool;
  styleSheet : bool;              (* #fireworkStyles exists *)
  nextNode : nat;
  (* scheduler *)
  timeouts : list (Q * Callback); (* due time, callback *)
  intervals : nat;                (* setInterval(checkBirthdays, 60000) *)
  frames : list nat;              (* pending requestAnimationFrame ids *)
  nextFrame : nat;
  (* Math.random tape position, and the instrumentation *)
  rng : nat;
  log : list Action
}.

(** Assignments to one field of the state. *)

Definition set_celebrating (v : bool) (w : World) : World :=
  {| config := config w; translate := translate w; celebrating := v;
     wasCelebrating := wasCelebrating w; fireworks := fireworks w; c_width
     := c_width w; c_height := c_height w; particles := particles w;
     isAnimating := isAnimating w; animationFrame := animationFrame w;
     canvas := canvas w; innerWidth := innerWidth w; innerHeight :=
     innerHeight w; rockets := rockets w; sparks := sparks w; modules :=
     modules w; wrapper := wrapper w; canvasAttached := canvasAttached w;
     styleSheet := styleSheet w; nextNode := nextNode w; timeouts :=
     timeouts w; intervals := intervals w; frames := frames w; nextFrame :=
     nextFrame w; rng := rng w; log := log w |}.

Definition set_wasCelebrating (v : bool) (w : World) : World :=
  {| config := config w; translate := translate w; celebrating :=
     celebrating w; wasCelebrating := v; fireworks := fireworks w; c_width
     := c_width w; c_height := c_height w; particles := particles w;
     isAnimating := isAnimating w; animationFrame := animationFrame w;
     canvas := canvas w; innerWidth := innerWidth w; innerHeight :=
     innerHeight w; rockets := rockets w; sparks := sparks w; modules :=
     modules w; wrapper := wrapper w; canvasAttached := canvasAttached w;
     styleSheet := styleSheet w; nextNode := nextNode w; timeouts :=
     timeouts w; intervals := intervals w; frames := frames w; nextFrame :=
     nextFrame w; rng := rng w; log := log w |}.

Definition set_fireworks (v : option FireworksObj) (w : World) : World :=
  {| config := config w; translate := translate w; celebrating :=
     celebrating w; wasCelebrating := wasCelebrating w; fireworks := v;
     c_width := c_width w; c_height := c_height w; particles := particles w;
     isAnimating := isAnimating w; animationFrame := animationFrame w;
     canvas := canvas w; innerWidth := innerWidth w; innerHeight :=
     innerHeight w; rockets := rockets w; sparks := sparks w; modules :=
     modules w; wrapper := wrapper w; canvasAttached := canvasAttached w;
     styleSheet := styleSheet w; nextNode := nextNode w; timeouts :=
     timeouts w; intervals := intervals w; frames := frames w; nextFrame :=
     nextFrame w; rng := rng w; log := log w |}.

Definition set_c_width (v : Q) (w : World) : World :=
  {| config := config w; translate := translate w; celebrating :=
     celebrating w; wasCelebrating := wasCelebrating w; fireworks :=
     fireworks w; c_width := v; c_height := c_height w; particles :=
     particles w; isAnimating := isAnimating w; animationFrame :=
     animationFrame w; canvas := canvas w; innerWidth := innerWidth w;
     innerHeight := innerHeight w; rockets := rockets w; sparks := sparks w;
     modules := modules w; wrapper := wrapper w; canvasAttached :=
     canvasAttached w; styleSheet := styleSheet w; nextNode := nextNode w;
     timeouts := timeouts w; intervals := intervals w; frames := frames w;
     nextFrame := nextFrame w; rng := rng w; log := log w |}.

Definition set_c_height (v : Q) (w : World) : World :=
  {| config := config w; translate := translate w; celebrating :=
     celebrating w; wasCelebrating := wasCelebrating w; fireworks :=
     fireworks w; c_width := c_width w; c_height := v; particles :=
     particles w; isAnimating := isAnimating w; animationFrame :=
     animationFrame w; canvas := canvas w; innerWidth := innerWidth w;
     innerHeight := innerHeight w; rockets := rockets w; sparks := sparks w;
     modules := modules w; wrapper := wrapper w; canvasAttached :=
     canvasAttached w; styleSheet := styleSheet w; nextNode := nextNode w;
     timeouts := timeouts w; intervals := intervals w; frames := frames w;
     nextFrame := nextFrame w; rng := rng w; log := log w |}.

Definition set_particles (v : list Particle) (w : World) : World :=
  {| config := config w; translate := translate w; celebrating :=
     celebrating w; wasCelebrating := wasCelebrating w; fireworks :=
     fireworks w; c_width := c_width w; c_height := c_height w; particles :=
     v; isAnimating := isAnimating w; animationFrame := animationFrame w;
     canvas := canvas w; innerWidth := innerWidth w; innerHeight :=
     innerHeight w; rockets := rockets w; sparks := sparks w; modules :=
     modules w; wrapper := wrapper w; canvasAttached := canvasAttached w;
     styleSheet := styleSheet w; nextNode := nextNode w; timeouts :=
     timeouts w; intervals := intervals w; frames := frames w; nextFrame :=
     nextFrame w; rng := rng w; log := log w |}.

Definition set_isAnimating (v : bool) (w : World) : World :=
  {| config := config w; translate := translate w; celebrating :=
     celebrating w; wasCelebrating := wasCelebrating w; fireworks :=
     fireworks w; c_width := c_width w; c_height := c_height w; particles :=
     particles w; isAnimating := v; animationFrame := animationFrame w;
     canvas := canvas w; innerWidth := innerWidth w; innerHeight :=
     innerHeight w; rockets := rockets w; sparks := sparks w; modules :=
     modules w; wrapper := wrapper w; canvasAttached := canvasAttached w;
     styleSheet := styleSheet w; nextNode := nextNode w; timeouts :=
     timeouts w; intervals := intervals w; frames := frames w; nextFrame :=
     nextFrame w; rng := rng w; log := log w |}.

Definition set_animationFrame (v : option nat) (w : World) : World :=
  {| config := config w; translate := translate w; celebrating :=
     celebrating w; wasCelebrating := wasCelebrating w; fireworks :=
     fireworks w; c_width := c_width w; c_height := c_height w; particles :=
     particles w; isAnimating := isAnimating w; animationFrame := v; canvas
     := canvas w; innerWidth := innerWidth w; innerHeight := innerHeight w;
     rockets := rockets w; sparks := sparks w; modules := modules w; wrapper
     := wrapper w; canvasAttached := canvasAttached w; styleSheet :=
     styleSheet w; nextNode := nextNode w; timeouts := timeouts w; intervals
     := intervals w; frames := frames w; nextFrame := nextFrame w; rng :=
     rng w; log := log w |}.

Definition set_canvas (v : list Particle) (w : World) : World :=
  {| config := config w; translate := translate w; celebrating :=
     celebrating w; wasCelebrating := wasCelebrating w; fireworks :=
     fireworks w; c_width := c_width w; c_height := c_height w; particles :=
     particles w; isAnimating := isAnimating w; animationFrame :=
     animationFrame w; canvas := v; innerWidth := innerWidth w; innerHeight
     := innerHeight w; rockets := rockets w; sparks := sparks w; modules :=
     modules w; wrapper := wrapper w; canvasAttached := canvasAttached w;
     styleSheet := styleSheet w; nextNode := nextNode w; timeouts :=
     timeouts w; intervals := intervals w; frames := frames w; nextFrame :=
     nextFrame w; rng := rng w; log := log w |}.

Definition set_innerWidth (v : Z) (w : World) : World :=
  {| config := config w; translate := translate w; celebrating :=
     celebrating w; wasCelebrating := wasCelebrating w; fireworks :=
     fireworks w; c_width := c_width w; c_height := c_height w; particles :=
     particles w; isAnimating := isAnimating w; animationFrame :=
     animationFrame w; canvas := canvas w; innerWidth := v; innerHeight :=
     innerHeight w; rockets := rockets w; sparks := sparks w; modules :=
     modules w; wrapper := wrapper w; canvasAttached := canvasAttached w;
     styleSheet := styleSheet w; nextNode := nextNode w; timeouts :=
     timeouts w; intervals := intervals w; frames := frames w; nextFrame :=
     nextFrame w; rng := rng w; log := log w |}.

Definition set_innerHeight (v : Z) (w : World) : World :=
  {| config := config w; translate := translate w; celebrating :=
     celebrating w; wasCelebrating := wasCelebrating w; fireworks :=
     fireworks w; c_width := c_width w; c_height := c_height w; particles :=
     particles w; isAnimating := isAnimating w; animationFrame :=
     animationFrame w; canvas := canvas w; innerWidth := innerWidth w;
     innerHeight := v; rockets := rockets w; sparks := sparks w; modules :=
     modules w; wrapper := wrapper w; canvasAttached := canvasAttached w;
     styleSheet := styleSheet w; nextNode := nextNode w; timeouts :=
     timeouts w; intervals := intervals w; frames := frames w; nextFrame :=
     nextFrame w; rng := rng w; log := log w |}.

Definition set_rockets (v : list Rocket) (w : World) : World :=
  {| config := config w; translate := translate w; celebrating :=
     celebrating w; wasCelebrating := wasCelebrating w; fireworks :=
     fireworks w; c_width := c_width w; c_height := c_height w; particles :=
     particles w; isAnimating := isAnimating w; animationFrame :=
     animationFrame w; canvas := canvas w; innerWidth := innerWidth w;
     innerHeight := innerHeight w; rockets := v; sparks := sparks w; modules
     := modules w; wrapper := wrapper w; canvasAttached := canvasAttached w;
     styleSheet := styleSheet w; nextNode := nextNode w; timeouts :=
     timeouts w; intervals := intervals w; frames := frames w; nextFrame :=
     nextFrame w; rng := rng w; log := log w |}.

Definition set_sparks (v : list Spark) (w : World) : World :=
  {| config := config w; translate := translate w; celebrating :=
     celebrating w; wasCelebrating := wasCelebrating w; fireworks :=
     fireworks w; c_width := c_width w; c_height := c_height w; particles :=
     particles w; isAnimating := isAnimating w; animationFrame :=
     animationFrame w; canvas := canvas w; innerWidth := innerWidth w;
     innerHeight := innerHeight w; rockets := rockets w; sparks := v;
     modules := modules w; wrapper := wrapper w; canvasAttached :=
     canvasAttached w; styleSheet := styleSheet w; nextNode := nextNode w;
     timeouts := timeouts w; intervals := intervals w; frames := frames w;
     nextFrame := nextFrame w; rng := rng w; log := log w |}.

Definition set_modules (v : list ModuleEl) (w : World) : World :=
  {| config := config w; translate := translate w; celebrating :=
     celebrating w; wasCelebrating := wasCelebrating w; fireworks :=
     fireworks w; c_width := c_width w; c_height := c_height w; particles :=
     particles w; isAnimating := isAnimating w; animationFrame :=
     animationFrame w; canvas := canvas w; innerWidth := innerWidth w;
     innerHeight := innerHeight w; rockets := rockets w; sparks := sparks w;
     modules := v; wrapper := wrapper w; canvasAttached := canvasAttached w;
     styleSheet := styleSheet w; nextNode := nextNode w; timeouts :=
     timeouts w; intervals := intervals w; frames := frames w; nextFrame :=
     nextFrame w; rng := rng w; log := log w |}.

Definition set_wrapper (v : option Wrapper) (w : World) : World :=
  {| config := config w; translate := translate w; celebrating :=
     celebrating w; wasCelebrating := wasCelebrating w; fireworks :=
     fireworks w; c_width := c_width w; c_height := c_height w; particles :=
     particles w; isAnimating := isAnimating w; animationFrame :=
     animationFrame w; canvas := canvas w; innerWidth := innerWidth w;
     innerHeight := innerHeight w; rockets := rockets w; sparks := sparks w;
     modules := modules w; wrapper := v; canvasAttached := canvasAttached w;
     styleSheet := styleSheet w; nextNode := nextNode w; timeouts :=
     timeouts w; intervals := intervals w; frames := frames w; nextFrame :=
     nextFrame w; rng := rng w; log := log w |}.

Definition set_canvasAttached (v : bool) (w : World) : World :=
  {| config := config w; translate := translate w; celebrating :=
     celebrating w; wasCelebrating := wasCelebrating w; fireworks :=
     fireworks w; c_width := c_width w; c_height := c_height w; particles :=
     particles w; isAnimating := isAnimating w; animationFrame :=
     animationFrame w; canvas := canvas w; innerWidth := innerWidth w;
     innerHeight := innerHeight w; rockets := rockets w; sparks := sparks w;
     modules := modules w; wrapper := wrapper w; canvasAttached := v;
     styleSheet := styleSheet w; nextNode := nextNode w; timeouts :=
     timeouts w; intervals := intervals w; frames := frames w; nextFrame :=
     nextFrame w; rng := rng w; log := log w |}.

Definition set_styleSheet (v : bool) (w : World) : World :=
  {| config := config w; translate := translate w; celebrating :=
     celebrating w; wasCelebrating := wasCelebrating w; fireworks :=
     fireworks w; c_width := c_width w; c_height := c_height w; particles :=
     particles w; isAnimating := isAnimating w; animationFrame :=
     animationFrame w; canvas := canvas w; innerWidth := innerWidth w;
     innerHeight := innerHeight w; rockets := rockets w; sparks := sparks w;
     modules := modules w; wrapper := wrapper w; canvasAttached :=
     canvasAttached w; styleSheet := v; nextNode := nextNode w; timeouts :=
     timeouts w; intervals := intervals w; frames := frames w; nextFrame :=
     nextFrame w; rng := rng w; log := log w |}.

Definition set_nextNode (v : nat) (w : World) : World :=
  {| config := config w; translate := translate w; celebrating :=
     celebrating w; wasCelebrating := wasCelebrating w; fireworks :=
     fireworks w; c_width := c_width w; c_height := c_height w; particles :=
     particles w; isAnimating := isAnimating w; animationFrame :=
     animationFrame w; canvas := canvas w; innerWidth := innerWidth w;
     innerHeight := innerHeight w; rockets := rockets w; sparks := sparks w;
     modules := modules w; wrapper := wrapper w; canvasAttached :=
     canvasAttached w; styleSheet := styleSheet w; nextNode := v; timeouts
     := timeouts w; intervals := intervals w; frames := frames w; nextFrame
     := nextFrame w; rng := rng w; log := log w |}.

Definition set_timeouts (v : list (Q * Callback)) (w : World) : World :=
  {| config := config w; translate := translate w; celebrating :=
     celebrating w; wasCelebrating := wasCelebrating w; fireworks :=
     fireworks w; c_width := c_width w; c_height := c_height w; particles :=
     particles w; isAnimating := isAnimating w; animationFrame :=
     animationFrame w; canvas := canvas w; innerWidth := innerWidth w;
     innerHeight := innerHeight w; rockets := rockets w; sparks := sparks w;
     modules := modules w; wrapper := wrapper w; canvasAttached :=
     canvasAttached w; styleSheet := styleSheet w; nextNode := nextNode w;
     timeouts := v; intervals := intervals w; frames := frames w; nextFrame
     := nextFrame w; rng := rng w; log := log w |}.

Definition set_intervals (v : nat) (w : World) : World :=
  {| config := config w; translate := translate w; celebrating :=
     celebrating w; wasCelebrating := wasCelebrating w; fireworks :=
     fireworks w; c_width := c_width w; c_height := c_height w; particles :=
     particles w; isAnimating := isAnimating w; animationFrame :=
     animationFrame w; canvas := canvas w; innerWidth := innerWidth w;
     innerHeight := innerHeight w; rockets := rockets w; sparks := sparks w;
     modules := modules w; wrapper := wrapper w; canvasAttached :=
     canvasAttached w; styleSheet := styleSheet w; nextNode := nextNode w;
     timeouts := timeouts w; intervals := v; frames := frames w; nextFrame
     := nextFrame w; rng := rng w; log := log w |}.

Definition set_frames (v : list nat) (w : World) : World :=
  {| config := config w; translate := translate w; celebrating :=
     celebrating w; wasCelebrating := wasCelebrating w; fireworks :=
     fireworks w; c_width := c_width w; c_height := c_height w; particles :=
     particles w; isAnimating := isAnimating w; animationFrame :=
     animationFrame w; canvas := canvas w; innerWidth := innerWidth w;
     innerHeight := innerHeight w; rockets := rockets w; sparks := sparks w;
     modules := modules w; wrapper := wrapper w; canvasAttached :=
     canvasAttached w; styleSheet := styleSheet w; nextNode := nextNode w;
     timeouts := timeouts w; intervals := intervals w; frames := v;
     nextFrame := nextFrame w; rng := rng w; log := log w |}.

Definition set_nextFrame (v : nat) (w : World) : World :=
  {| config := config w; translate := translate w; celebrating :=
     celebrating w; wasCelebrating := wasCelebrating w; fireworks :=
     fireworks w; c_width := c_width w; c_height := c_height w; particles :=
     particles w; isAnimating := isAnimating w; animationFrame :=
     animationFrame w; canvas := canvas w; innerWidth := innerWidth w;
     innerHeight := innerHeight w; rockets := rockets w; sparks := sparks w;
     modules := modules w; wrapper := wrapper w; canvasAttached :=
     canvasAttached w; styleSheet := styleSheet w; nextNode := nextNode w;
     timeouts := timeouts w; intervals := intervals w; frames := frames w;
     nextFrame := v; rng := rng w; log := log w |}.

Definition set_rng (v : nat) (w : World) : World :=
  {| config := config w; translate := translate w; celebrating :=
     celebrating w; wasCelebrating := wasCelebrating w; fireworks :=
     fireworks w; c_width := c_width w; c_height := c_height w; particles :=
     particles w; isAnimating := isAnimating w; animationFrame :=
     animationFrame w; canvas := canvas w; innerWidth := innerWidth w;
     innerHeight := innerHeight w; rockets := rockets w; sparks := sparks w;
     modules := modules w; wrapper := wrapper w; canvasAttached :=
     canvasAttached w; styleSheet := styleSheet w; nextNode := nextNode w;
     timeouts := timeouts w; intervals := intervals w; frames := frames w;
     nextFrame := nextFrame w; rng := v; log := log w |}.

Definition set_log (v : list Action) (w : World) : World :=
  {| config := config w; translate := translate w; celebrating :=
     celebrating w; wasCelebrating := wasCelebrating w; fireworks :=
     fireworks w; c_width := c_width w; c_height := c_height w; particles :=
     particles w; isAnimating := isAnimating w; animationFrame :=
     animationFrame w; canvas := canvas w; innerWidth := innerWidth w;
     innerHeight := innerHeight w; rockets := rockets w; sparks := sparks w;
     modules := modules w; wrapper := wrapper w; canvasAttached :=
     canvasAttached w; styleSheet := styleSheet w; nextNode := nextNode w;
     timeouts := timeouts w; intervals := intervals w; frames := frames w;
     nextFrame := nextFrame w; rng := rng w; log := v |}.
(** ** Runtime services *)

Definition Qnat (n : nat) : Q := inject_Z (Z.of_nat n).

(** [for (let i = start; i < start + n; i++) body(i)]. *)
Fixpoint for_loop (n start : nat) (body : nat -> World -> World) (w : World)
  : World :=
  match n with
  | O => w
  | S n' => for_loop n' (S start) body (body start w)
  end.

(** [setTimeout(cb, delay)] called at time [now]. *)
Definition setTimeout (cb : Callback) (delay now : Q) (w : World) : World :=
  set_timeouts (timeouts w ++ [(now + delay, cb)]) w.

Section Random.
Variable rt : JsRuntime.

  (** The value of the next [Math.random()], and the tape moved past it. *)
Definition rand (w : World) : Q := Math_random rt (rng w).
Definition tick (w : World) : World := set_rng (S (rng w)) w.
End Random.

(** ** fireworks.js *)

Module Fireworks.
Section WithRuntime.
Variable rt : JsRuntime.

Definition palette : list string :=
    ["#ff0000"; "#ffa500"; "#ffff00"; "#00ff00"; "#00ffff";
     "#0000ff"; "#ff00ff"; "#ff1493"; "#ffd700"; "#00ff7f"]%string.

  (** [new Fireworks()], assigned to [this.fireworks] by the caller. *)
Definition new (w : World) : World :=
    set_styleSheet true
      (set_fireworks (Some {| colors := palette; endTime := Infinity |}) w).

Definition createRocket (x : Q) (w : World) : Rocket * World :=
    ({| rocket_id := nextNode w; rocket_left := x |},
     set_nextNode (S (nextNode w)) w).

Definition createSpark (x y : Q) (color : string) (angle velocity : Q)
      (now : Q) (w : World) : Spark * World :=
    let id := nextNode w in
    let w := set_nextNode (S id) w in
    let rad := angle * Math_PI rt / 180 in
    let duration := 0.8 + rand rt w * 0.6 in
    let w := tick w in
    let distance := velocity * (0.7 + rand rt w * 0.3) in
    let w := tick w in
    let spark :=
      {| spark_id := id;
         spark_left := x;
         spark_top := y;
         spark_color := color;
         spark_angle := angle;
         spark_velocity := velocity;
         spark_duration := duration;
         spark_distance := distance;
         spark_dx := Math_cos rt rad * distance;
         spark_dy := Math_sin rt rad * distance;
         spark_faded := false |} in
    (spark, setTimeout (CbFadeSpark id) (duration * 900) now w).

Definition particleCount : nat := 80.

  (** One iteration of the loop of [createExplosion]. *)
Definition explosion_step (x y : Q) (color : string) (now : Q) (i : nat)
      (w : World) : World :=
    let angle := (Qnat i * 360) / Qnat particleCount + rand rt w * 20 in
    let w := tick w in
    let velocity := 100 + rand rt w * 100 in
    let w := tick w in
    let sw := createSpark x y color angle velocity now w in
    let spark := fst sw in
    let w := snd sw in
    let w := set_sparks (sparks w ++ [spark]) w in
    setTimeout (CbRemoveSpark (spark_id spark)) 2000 now w.

Definition createExplosion (x y : Q) (color : string) (now : Q) (w : World)
    : World :=
    for_loop particleCount 0 (explosion_step x y color now) w.

Definition remove_rocket (id : nat) (w : World) : World :=
    set_rockets
      (filter (fun r => negb (Nat.eqb (rocket_id r) id)) (rockets w)) w.

Definition remove_spark (id : nat) (w : World) : World :=
    set_sparks
      (filter (fun s => negb (Nat.eqb (spark_id s) id)) (sparks w)) w.

Definition fade_spark (id : nat) (w : World) : World :=
    set_sparks
      (map (fun s =>
              if Nat.eqb (spark_id s) id then
                {| spark_id := spark_id s; spark_left := spark_left s;
                   spark_top := spark_top s; spark_color := spark_color s;
                   spark_angle := spark_angle s;
                   spark_velocity := spark_velocity s;
                   spark_duration := spark_duration s;
                   spark_distance := spark_distance s;
                   spark_dx := spark_dx s; spark_dy := spark_dy s;
                   spark_faded := true |}
              else s)
         (sparks w)) w.

  (** The first callback of [launch] (800 ms).  [rect_top] is what layout
      reports for a rocket that is in the document; a detached element
      has an all-zero rectangle. *)
Definition explode (id : nat) (x : Q) (color : string) (rect_top now : Q)
      (w : World) : World :=
    let top :=
      if existsb (fun r => Nat.eqb (rocket_id r) id) (rockets w)
      then rect_top else 0 in
    let w := createExplosion x (top + 50) color now w in
    remove_rocket id w.

  (** The methods below read [this]; they are only ever called on the
      object held by [this.fireworks], so nothing happens without one. *)
Definition launch (now : Q) (w : World) : World :=
    match fireworks w with
    | None => w
    | Some this =>
        let x := rand rt w * (inject_Z (innerWidth w) - 100) + 50 in
        let w := tick w in
        let color :=
          nth (floor_index (rand rt w) (List.length (colors this)))
            (colors this) "undefined"%string in
        let w := tick w in
        let rw := createRocket x w in
        let rocket := fst rw in
        let w := snd rw in
        let w := set_rockets (rockets w ++ [rocket]) w in
        let w := setTimeout (CbExplode (rocket_id rocket) x color) 800 now w in
        let w := setTimeout (CbRemoveRocket (rocket_id rocket)) 1000 now w in
        set_log (log w ++ [ActLaunch x color]) w
    end.

Definition minInterval : Q := 200.
Definition maxInterval : Q := 1000.

Definition launchNext (now : Q) (w : World) : World :=
    match fireworks w with
    | None => w
    | Some this =>
        if before now (endTime this) then
          let w := launch now w in
          let nextDelay :=
            rand rt w * (maxInterval - minInterval) + minInterval in
          let w := tick w in
          setTimeout CbLaunchNext nextDelay now w
        else w
    end.

Definition start (duration : Duration) (now : Q) (w : World) : World :=
    match fireworks w with
    | None => w
    | Some this =>
        let e :=
          match duration with
          | Infinite => Infinity
          | Millis d => At (now + d)
          end in
        launchNext now
          (set_fireworks (Some {| colors := colors this; endTime := e |}) w)
    end.

Definition cleanup (w : World) : World :=
    match fireworks w with
    | None => w
    | Some this =>
        let w :=
          set_fireworks (Some {| colors := colors this; endTime := At 0 |}) w in
        set_sparks [] (set_rockets [] w)
    end.
End WithRuntime.
End Fireworks.

(** ** confetti.js: the emitter *)

Module Confetti.
Section WithRuntime.
Variable rt : JsRuntime.

Definition init (w : World) : World := set_canvasAttached true w.

  (** [requestAnimationFrame(animate)]: the handle returned. *)
Definition requestAnimationFrame (w : World) : nat * World :=
    (nextFrame w,
     set_nextFrame (S (nextFrame w)) (set_frames (frames w ++ [nextFrame w]) w)).

Definition cancelAnimationFrame (id : nat) (w : World) : World :=
    set_frames (filter (fun i => negb (Nat.eqb i id)) (frames w)) w.

  (** The particles after [update()], keeping those that returned [true]. *)
Definition live (height : Q) (ps : list Particle) : list Particle :=
    map fst (filter snd (map (Particle.update rt height) ps)).

Definition animate (w : World) : World :=
    if negb (isAnimating w) then w
    else
      let ps := live (c_height w) (particles w) in
      (* clearRect, then draw() on every particle kept *)
      let w := set_particles ps (set_canvas ps w) in
      if (0 <? List.length ps)%nat then
        let fw := requestAnimationFrame w in
        set_animationFrame (Some (fst fw)) (snd fw)
      else set_isAnimating false w.

Definition burstCount : nat := 15.

Definition push_particle (isLeftCannon : bool) (_ : nat) (w : World)
    : World :=
    let options :=
      {| o_colors := defaultColors; o_velocity := 45; o_spread := 20;
         o_isLeftCannon := isLeftCannon |} in
    let p := Particle.new rt (c_width w) (c_height w) options (rng w) in
    set_particles (particles w ++ [p]) (set_rng (rng w + 7) w).

Definition fire (w : World) : World :=
    let w := set_log (log w ++ [ActBurst]) w in
    let w := for_loop burstCount 0 (push_particle true) w in
    let w := for_loop burstCount 0 (push_particle false) w in
    if negb (isAnimating w) then animate (set_isAnimating true w) else w.

Definition cleanup (w : World) : World :=
    let w := set_isAnimating false w in
    let w :=
      match animationFrame w with
      | Some id => cancelAnimationFrame id w
      | None => w
      end in
    let w := set_particles [] w in
    set_canvasAttached false w.

  (** The [resize] listener.  Assigning [canvas.width] clears the canvas. *)
Definition resize (w : World) : World :=
    set_canvas []
      (set_c_height (inject_Z (innerHeight w))
         (set_c_width (inject_Z (innerWidth w)) w)).
End WithRuntime.
End Confetti.

(** ** MMM-Birthday.js *)

Module MMM_Birthday.
Section WithRuntime.
Variable rt : JsRuntime.

  (** A function either returns or throws; the state is kept either way. *)
Inductive Completion : Type :=
  | Normal
  | Thrown.

Definition set_display (d : string) (w : World) : World :=
    match wrapper w with
    | Some el => set_wrapper (Some {| display := d; message := message el |}) w
    | None => w
    end.

Definition suspend (w : World) : World :=
    if celebrating w then
      let w := set_wasCelebrating true w in
      let w :=
        match fireworks w with
        | Some _ => Fireworks.cleanup w
        | None => w
        end in
      let w := Confetti.cleanup w in
      (* this.celebrationInterval is never assigned: nothing to clear *)
      let w := set_display "none" w in
      set_celebrating false w
    else w.

Definition createWrapper (w : World) : World :=
    set_wrapper (Some {| display := ""; message := None |}) w.

Definition dimOtherModules (w : World) : World :=
    set_modules
      (map (fun m =>
              if negb (m_birthday m) then
                {| m_birthday := m_birthday m;
                   m_filter := "brightness(30%)";
                   m_transition := "filter 0.5s ease-in-out" |}
              else m)
         (modules w)) w.

  (** [String(name)] for the second argument of [replace]. *)
Definition name_text (name : option string) : string :=
    match name with
    | Some s => s
    | None => "undefined"
    end.

  (** [None]: a TypeError ([messages] is empty, so [message] is undefined). *)
Definition getRandomMessage (name : option string) (w : World)
    : option string * World :=
    let messages :=
      match translate w with
      | TrMessages ms => ms
      | TrMissing | TrThrows | TrNotArray => defaultTranslations
      end in
    let i := floor_index (rand rt w) (List.length messages) in
    let w := tick w in
    match nth_error messages i with
    | Some m => (Some (replace_first "{name}" (name_text name) m), w)
    | None => (None, w)
    end.

Definition startFireworks (now : Q) (w : World) : World :=
    Fireworks.start rt (fireworkDuration (config w)) now w.

Definition startConfetti (now : Q) (w : World) : World :=
    let isInfinite :=
      match confettiDuration (config w) with
      | Infinite => true
      | Millis _ => false
      end in
    let end_ :=
      match confettiDuration (config w) with
      | Infinite => Infinity
      | Millis d => At (now + d)
      end in
    setTimeout (CbFireBurst isInfinite end_) 1000 now w.

  (** The closure [fireBurst] of [startConfetti]. *)
Definition fireBurst (isInfinite : bool) (end_ : Deadline) (now : Q)
      (w : World) : World :=
    if celebrating w && (isInfinite || before now end_) then
      let w := Confetti.fire rt w in
      let nextDelay := 2000 + rand rt w * 6000 in
      let w := tick w in
      setTimeout (CbFireBurst isInfinite end_) nextDelay now w
    else w.

Definition celebrateBirthday (name : option string) (now : Q) (w : World)
    : World * Completion :=
    let w := set_log (log w ++ [ActCelebrate name]) w in
    let w :=
      match fireworks w with
      | Some _ => w
      | None => Fireworks.new w
      end in
    let w := Confetti.init w in
    let w :=
      match wrapper w with
      | Some _ => w
      | None => createWrapper w
      end in
    let mw := getRandomMessage name w in
    match fst mw with
    | None => (snd mw, Thrown)
    | Some text =>
        let w := snd mw in
        let w := set_wrapper (Some {| display := "block"; message := Some text |}) w in
        let w := dimOtherModules w in
        let w := startFireworks now w in
        let w := startConfetti now w in
        let w :=
          match fireworkDuration (config w) with
          | Infinite => w
          | Millis d => setTimeout CbStopCelebration d now w
          end in
        (w, Normal)
    end.

Definition resume (now : Q) (w : World) : World * Completion :=
    if wasCelebrating w then
      let w := set_celebrating true w in
      let w := set_wasCelebrating false w in
      let w := set_display "block" w in
      celebrateBirthday None now w
    else (w, Normal).

  (** [month] is [now.getMonth()], [day] is [now.getDate()]. *)
Definition currentDate (month day : nat) : string :=
    (pad2 (month + 1) ++ "-" ++ pad2 day)%string.

  (** The [forEach] of [checkBirthdays]; an exception ends it. *)
Fixpoint forEach_birthday (bs : list Birthday) (today : string) (now : Q)
      (w : World) : World * Completion :=
    match bs with
    | [] => (w, Normal)
    | birthday :: bs' =>
        if String.eqb (b_date birthday) today
           && negb (celebrating w) && negb (wasCelebrating w)
        then
          let w := set_celebrating true w in
          let wc := celebrateBirthday (Some (b_name birthday)) now w in
          match snd wc with
          | Thrown => wc
          | Normal => forEach_birthday bs' today now (fst wc)
          end
        else forEach_birthday bs' today now w
    end.

Definition checkBirthdays (month day : nat) (now : Q) (w : World)
    : World * Completion :=
    match birthdays (config w) with
    | None => (w, Normal)            (* Log.error and return *)
    | Some bs => forEach_birthday bs (currentDate month day) now w
    end.

Definition scheduleNextCheck (month day : nat) (now : Q) (w : World)
    : World * Completion :=
    checkBirthdays month day now (set_intervals (S (intervals w)) w).

Definition start (month day : nat) (now : Q) (w : World)
    : World * Completion :=
    let w := set_fireworks None w in
    let w := set_celebrating false w in
    let w := set_wasCelebrating false w in
    scheduleNextCheck month day now w.

  (** [stopCelebration(wrapper)]; [wrapper] is the element the caller
      found or created, the one [wrapper w] holds. *)
Definition stopCelebration (w : World) : World :=
    let w := set_display "none" w in
    let w :=
      set_modules
        (map (fun m =>
                {| m_birthday := m_birthday m; m_filter := "";
                   m_transition := m_transition m |})
           (modules w)) w in
    let w := set_celebrating false w in
    let w := set_wasCelebrating false w in
    let w :=
      match fireworks w with
      | Some _ => Fireworks.cleanup w
      | None => w
      end in
    Confetti.cleanup w.
End WithRuntime.
End MMM_Birthday.

(** ** The event loop *)

(** One turn of the event loop, with what the environment decides: which
    pending timeout runs and when, the date, what layout reports. *)
Inductive Event : Type :=
| EvTimeout (k : nat) (now rect_top : Q)   (* the k-th pending timeout *)
| EvInterval (month day : nat) (now : Q)   (* the 60000 ms interval *)
| EvFrame                                  (* a display frame *)
| EvSuspend                                (* the host calls suspend() *)
| EvResume (now : Q)                       (* the host calls resume() *)
| EvResize (width height : Z).

Definition remove_nth {A : Type} (k : nat) (l : list A) : list A :=
  firstn k l ++ skipn (S k) l.

Section EventLoop.
Variable rt : JsRuntime.

Definition run_callback (cb : Callback) (now rect_top : Q) (w : World)
  : World :=
  match cb with
  | CbLaunchNext => Fireworks.launchNext rt now w
  | CbExplode id x color => Fireworks.explode rt id x color rect_top now w
  | CbRemoveRocket id => Fireworks.remove_rocket id w
  | CbFadeSpark id => Fireworks.fade_spark id w
  | CbRemoveSpark id => Fireworks.remove_spark id w
  | CbFireBurst isInfinite end_ =>
      MMM_Birthday.fireBurst rt isInfinite end_ now w
  | CbStopCelebration => MMM_Birthday.stopCelebration w
  end.

(** A timeout runs once, not before it is due.  An exception thrown by a
    callback ends the turn; the state it leaves is kept. *)
Definition step (ev : Event) (w : World) : World :=
  match ev with
  | EvTimeout k now rect_top =>
      match nth_error (timeouts w) k with
      | Some (due, cb) =>
          if Qle_bool due now then
            run_callback cb now rect_top
              (set_timeouts (remove_nth k (timeouts w)) w)
          else w
      | None => w
      end
  | EvInterval month day now =>
      if (0 <? intervals w)%nat
      then fst (MMM_Birthday.checkBirthdays rt month day now w)
      else w
  | EvFrame =>
      for_loop (List.length (frames w)) 0 (fun _ => Confetti.animate rt)
        (set_frames [] w)
  | EvSuspend => MMM_Birthday.suspend w
  | EvResume now => fst (MMM_Birthday.resume rt now w)
  | EvResize width height =>
      Confetti.resize (set_innerHeight height (set_innerWidth width w))
  end.

Fixpoint run (evs : list Event) (w : World) : World :=
  match evs with
  | [] => w
  | ev :: evs' => run evs' (step ev w)
  end.

(** The page once the scripts are loaded, before the host calls
    [start()]. *)
Definition loaded (cfg : Config) (tr : Translation) (width height : Z)
    (mods : list ModuleEl) (wr : option Wrapper) : World :=
  {| config := cfg; translate := tr; celebrating := false;
     wasCelebrating := false; fireworks := None;
     c_width := inject_Z width; c_height := inject_Z height;
     particles := []; isAnimating := false; animationFrame := None;
     canvas := []; innerWidth := width; innerHeight := height;
     rockets := []; sparks := []; modules := mods; wrapper := wr;
     canvasAttached := false; styleSheet := false; nextNode := 0%nat;
     timeouts := []; intervals := 0%nat; frames := []; nextFrame := 1%nat;
     rng := 0%nat; log := [] |}.
End EventLoop.

(** ** A runtime to evaluate the model with *)

(** Square root, rounded down to six decimals. *)
Definition sqrt_down (q : Q) : Q :=
  Qmake (Z.sqrt (Qnum q * 1000000000000 / Zpos (Qden q))) 1000000.

(** [Math.random] cycles through 0, 0.1, ..., 0.9; sine and cosine are
    truncated series. *)
Definition sample_runtime : JsRuntime :=
  {| Math_random := fun n => Qmake (Z.of_nat (n mod 10)) 10;
     Math_sqrt := sqrt_down;
     Math_cos := fun a => Qred (1 - a * a / 2 + a * a * a * a / 24);
     Math_sin := fun a => Qred (a - a * a * a / 6 + a * a * a * a * a / 120);
     Math_PI := 3.141592 |}.

(** [Math.random] always returns [r]. *)
Definition constant_runtime (r : Q) : JsRuntime :=
  {| Math_random := fun _ => r;
     Math_sqrt := sqrt_down;
     Math_cos := Math_cos sample_runtime;
     Math_sin := Math_sin sample_runtime;
     Math_PI := 3.141592 |}.

(** * Measures, relations and sample inputs used in the statements *)

(** ** Counters over the instrumentation and the scheduler *)

Definition is_launch (a : Action) : bool :=
  match a with ActLaunch _ _ => true | _ => false end.
Definition is_celebrate (a : Action) : bool :=
  match a with ActCelebrate _ => true | _ => false end.
Definition is_burst (a : Action) : bool :=
  match a with ActBurst => true | _ => false end.

Definition launches (w : World) : nat :=
  List.length (filter is_launch (log w)).
Definition celebrations (w : World) : nat :=
  List.length (filter is_celebrate (log w)).
Definition bursts (w : World) : nat :=
  List.length (filter is_burst (log w)).

Definition is_launchNext (t : Q * Callback) : bool :=
  match snd t with CbLaunchNext => true | _ => false end.
Definition pending_launches (w : World) : nat :=
  List.length (filter is_launchNext (timeouts w)).

(** ** What a function leaves unchanged *)

(** What the emitters leave alone: the module's configuration and flags. *)
Definition unchanged_ctl (w w' : World) : Prop :=
  config w' = config w
  /\ translate w' = translate w
  /\ celebrating w' = celebrating w
  /\ wasCelebrating w' = wasCelebrating w
  /\ intervals w' = intervals w.

(** No launch, no restart, and the fireworks object untouched. *)
Definition no_launch (w w' : World) : Prop :=
  fireworks w' = fireworks w
  /\ launches w' = launches w
  /\ celebrations w' = celebrations w
  /\ pending_launches w' = pending_launches w.

(** What the confetti emitter leaves alone: everything but its own state,
    the frame requests, the random tape and the burst count. *)
Definition confetti_only (w w' : World) : Prop :=
  unchanged_ctl w w'
  /\ no_launch w w'
  /\ timeouts w' = timeouts w
  /\ wrapper w' = wrapper w.

(** The flags, the configuration and the count of celebrations are kept. *)
Definition calm (w w' : World) : Prop :=
  unchanged_ctl w w' /\ celebrations w' = celebrations w.

(** The effect of a teardown on the fireworks: nothing is launched or
    scheduled, and the end time is kept or set to 0. *)
Definition teardown (w w' : World) : Prop :=
  launches w' = launches w
  /\ celebrations w' = celebrations w
  /\ pending_launches w' = pending_launches w
  /\ (fireworks w' = fireworks w
      \/ exists this,
           fireworks w = Some this
           /\ fireworks w' = Some {| colors := colors this; endTime := At 0 |}).

(** ** The explosion *)

(** What iteration [i] of [createExplosion] passes to [createSpark] and
    what [createSpark] derives, when the iteration starts at position [r]
    of the random tape. *)
Definition spark_of_draws (rt : JsRuntime) (i r : nat) (s : Spark) : Prop :=
  spark_angle s
    = (Qnat i * 360) / Qnat Fireworks.particleCount + Math_random rt r * 20
  /\ spark_velocity s = 100 + Math_random rt (S r) * 100
  /\ spark_duration s = 0.8 + Math_random rt (S (S r)) * 0.6
  /\ spark_distance s
     = spark_velocity s * (0.7 + Math_random rt (S (S (S r))) * 0.3).

(** ** The chains and the clock *)

(** The condition [fireBurst] tests. *)
Definition burst_allowed (isInfinite : bool) (end_ : Deadline) (now : Q)
    (w : World) : bool :=
  celebrating w && (isInfinite || before now end_).

(** The [Date.now()] of a turn, for the turns that read the clock. *)
Definition event_time (ev : Event) : option Q :=
  match ev with
  | EvTimeout _ now _ => Some now
  | EvInterval _ _ now => Some now
  | EvResume now => Some now
  | EvFrame | EvSuspend | EvResize _ _ => None
  end.

(** The turn does not happen before [T]. *)
Definition not_before (T : Q) (ev : Event) : Prop :=
  match event_time ev with
  | Some now => T <= now
  | None => True
  end.

(** The fireworks object exists and its end time is [T] or earlier. *)
Definition expired (T : Q) (w : World) : Prop :=
  exists this e, fireworks w = Some this /\ endTime this = At e /\ e <= T.

(** The periodic checks [(month, day, now)] as turns of the event loop. *)
Definition checks (cs : list (nat * nat * Q)) : list Event :=
  map (fun c => EvInterval (fst (fst c)) (snd (fst c)) (snd c)) cs.

(** ** The session flags *)

(** The two session flags are not both set. *)
Definition exclusive (w : World) : Prop :=
  celebrating w && wasCelebrating w = false.

(** The states the module can be in when control is back in the event
    loop: after [start()], after any turn of the event loop, and after a
    call of [checkBirthdays], [suspend], [resume] or [stopCelebration]
    made at any time. *)
Inductive Reachable (rt : JsRuntime) : World -> Prop :=
| R_start (cfg : Config) (tr : Translation) (width height : Z)
    (mods : list ModuleEl) (wr : option Wrapper) (month day : nat) (now : Q) :
    Reachable rt
      (fst (MMM_Birthday.start rt month day now
              (loaded cfg tr width height mods wr)))
| R_step (ev : Event) (w : World) :
    Reachable rt w -> Reachable rt (step rt ev w)
| R_checkBirthdays (month day : nat) (now : Q) (w : World) :
    Reachable rt w ->
    Reachable rt (fst (MMM_Birthday.checkBirthdays rt month day now w))
| R_suspend (w : World) :
    Reachable rt w -> Reachable rt (MMM_Birthday.suspend w)
| R_resume (now : Q) (w : World) :
    Reachable rt w -> Reachable rt (fst (MMM_Birthday.resume rt now w))
| R_stopCelebration (w : World) :
    Reachable rt w -> Reachable rt (MMM_Birthday.stopCelebration w).

(** ** The lifetime of a confetti particle *)

(** A particle as the constructor makes it: gravity 0.25, drag 0.045. *)
Definition constructed (p : Particle) : Prop :=
  p_gravity p = 0.25 /\ p_drag p = 0.045.

(** The particle survives [n] updates in a row: each returns [true]. *)
Fixpoint survives (rt : JsRuntime) (height : Q) (n : nat) (p : Particle)
  : bool :=
  match n with
  | O => true
  | S n' =>
      snd (Particle.update rt height p)
      && survives rt height n' (fst (Particle.update rt height p))
  end.

(** A number of updates no constructed particle survives.  With
    [0.045 * y + vy] growing by 0.23875 per update and [vy] never above
    [max vy 6], the particle is at the bottom edge by then. *)
Definition lifetime_bound (height : Q) (p : Particle) : nat :=
  Nat.max 1
    (Z.to_nat
       (Qceiling
          ((0.045 * height + Qmax (p_vy p) 6 - (0.045 * p_y p + p_vy p))
           / 0.23875))).

(** The number of the first update that returns [false], looking at no
    more than [fuel] updates. *)
Fixpoint death_tick (rt : JsRuntime) (height : Q) (fuel : nat) (p : Particle)
  : nat :=
  match fuel with
  | O => O
  | S fuel' =>
      if snd (Particle.update rt height p)
      then S (death_tick rt height fuel' (fst (Particle.update rt height p)))
      else 1%nat
  end.

(** The lifetime of a particle, in frames: it is in the live set for
    [lifetime - 1] frames and removed by the next. *)
Definition lifetime (rt : JsRuntime) (height : Q) (p : Particle) : nat :=
  death_tick rt height (lifetime_bound height p) p.

(** The longest lifetime in the live set. *)
Definition max_lifetime (rt : JsRuntime) (height : Q) (ps : list Particle)
  : nat :=
  fold_right (fun p m => Nat.max (lifetime rt height p) m) 1%nat ps.

(** The loop is stopped and nothing is left to animate. *)
Definition halted (w : World) : Prop :=
  particles w = [] /\ isAnimating w = false /\ frames w = [].

(** ** Sample inputs *)

(** A particle that was alive at y = 994.9 on a canvas 1000 high, falling
    at 5.3 per tick: the tick moves it to y = 1000.2. *)
Definition falling_particle : Particle :=
  {| p_x := 300; p_y := 994.9; p_angle := 0; p_velocity := 45;
     p_gravity := 0.25; p_drag := 0.045; p_wobble := 0; p_wobbleSpeed := 0;
     p_color := "#ffffff"; p_size := 5; p_opacity := 0.102;
     p_vx := 0; p_vy := 5.3 |}.

(** A particle rising through the middle of a canvas 1000 high. *)
Definition rising_particle : Particle :=
  {| p_x := 300; p_y := 500; p_angle := 0; p_velocity := 45;
     p_gravity := 0.25; p_drag := 0.045; p_wobble := 0; p_wobbleSpeed := 0;
     p_color := "#ffffff"; p_size := 5; p_opacity := 1;
     p_vx := 3; p_vy := -(4) |}.

(** A particle sinking towards the bottom edge, 10 above it. *)
Definition sinking_particle : Particle :=
  {| p_x := 700; p_y := 990; p_angle := 0; p_velocity := 45;
     p_gravity := 0.25; p_drag := 0.045; p_wobble := 0; p_wobbleSpeed := 0;
     p_color := "#ffffff"; p_size := 5; p_opacity := 0.3;
     p_vx := 2; p_vy := 2 |}.

Definition no_birthdays : Config :=
  {| birthdays := None; fireworkDuration := Infinite;
     confettiDuration := Infinite |}.

(** A page 40 pixels wide, and one 1920 wide, each with a fireworks
    object. *)
Definition narrow_page : World :=
  Fireworks.new (loaded no_birthdays TrMissing 40 600 [] None).
Definition wide_page : World :=
  Fireworks.new (loaded no_birthdays TrMissing 1920 1080 [] None).

(** A celebration of Anna on 25 December, five seconds of each effect. *)
Definition anna_config : Config :=
  {| birthdays := Some [{| b_name := "Anna"; b_date := "12-25" |}];
     fireworkDuration := Millis 5000;
     confettiDuration := Millis 5000 |}.
Definition anna_page : World :=
  loaded anna_config TrMissing 1920 1080 [] None.

(** The host calls [start()] on 25 December, at time 1000. *)
Definition anna_started : World :=
  fst (MMM_Birthday.start sample_runtime 11 25 1000 anna_page).

(** Two birthdays on the same day. *)
Definition twins_config : Config :=
  {| birthdays := Some [{| b_name := "Anna"; b_date := "12-25" |};
                        {| b_name := "Bert"; b_date := "12-25" |}];
     fireworkDuration := Infinite;
     confettiDuration := Infinite |}.

(** A page whose confetti loop runs with two particles near the bottom
    edge. *)
Definition two_particle_page : World :=
  set_frames [1%nat]
    (set_nextFrame 2
       (set_animationFrame (Some 1%nat)
          (set_isAnimating true
             (set_particles [falling_particle; sinking_particle]
                (set_c_height 1000
                   (loaded no_birthdays TrMissing 1920 1000 [] None)))))).

(** ** More of what the functions leave unchanged *)

(** What the fireworks emitter leaves alone: the confetti emitter, the
    wrapper, the other modules and the window. *)
Definition outside_fireworks (w w' : World) : Prop :=
  particles w' = particles w
  /\ isAnimating w' = isAnimating w
  /\ animationFrame w' = animationFrame w
  /\ frames w' = frames w
  /\ nextFrame w' = nextFrame w
  /\ canvas w' = canvas w
  /\ c_width w' = c_width w
  /\ c_height w' = c_height w
  /\ wrapper w' = wrapper w
  /\ modules w' = modules w
  /\ canvasAttached w' = canvasAttached w
  /\ styleSheet w' = styleSheet w
  /\ innerWidth w' = innerWidth w
  /\ innerHeight w' = innerHeight w.

(** What the confetti emitter leaves alone in the document. *)
Definition outside_confetti (w w' : World) : Prop :=
  rockets w' = rockets w
  /\ sparks w' = sparks w
  /\ nextNode w' = nextNode w
  /\ modules w' = modules w
  /\ styleSheet w' = styleSheet w
  /\ innerWidth w' = innerWidth w
  /\ innerHeight w' = innerHeight w.

(** The celebrations recorded so far, in order. *)
Definition celebrated (w : World) : list Action :=
  filter is_celebrate (log w).

(** ** Messages and dates *)

(** The list [getRandomMessage] picks from. *)
Definition messages_used (tr : Translation) : list string :=
  match tr with
  | TrMessages ms => ms
  | TrMissing | TrThrows | TrNotArray => defaultTranslations
  end.

(** The character does not occur in the string. *)
Definition lacks (c : ascii) (s : string) : Prop :=
  forall c', In c' (list_ascii_of_string s) -> c' <> c.

(** The two decimal digits of a number below 100. *)
Definition digit (k : nat) : ascii := ascii_of_nat (48 + k).
Definition two_digits (n : nat) : string :=
  String (digit (n / 10)) (String (digit (n mod 10)) EmptyString).

(** The birthday is dated today. *)
Definition dated (today : string) (b : Birthday) : bool :=
  String.eqb (b_date b) today.

(** The pending [stopCelebration] timers. *)
Definition is_stop (t : Q * Callback) : bool :=
  match snd t with CbStopCelebration => true | _ => false end.
Definition pending_stops (w : World) : nat :=
  List.length (filter is_stop (timeouts w)).

(** The pending [fireBurst] callbacks. *)
Definition is_fireBurst (t : Q * Callback) : bool :=
  match snd t with CbFireBurst _ _ => true | _ => false end.
Definition pending_bursts (w : World) : nat :=
  List.length (filter is_fireBurst (timeouts w)).

(** The end time an emitter computes from a configured duration. *)
Definition end_of (d : Duration) (now : Q) : Deadline :=
  match d with
  | Infinite => Infinity
  | Millis ms => At (now + ms)
  end.

(** ** The page around the celebration *)

(** The module element as [dimOtherModules] leaves it. *)
Definition dimmed (m : ModuleEl) : Prop :=
  m_filter m = "brightness(30%)"%string
  /\ m_transition m = "filter 0.5s ease-in-out"%string.

(** The celebration display is absent or hidden. *)
Definition hidden (w : World) : Prop :=
  match wrapper w with
  | Some el => display el = "none"%string
  | None => True
  end.

(** Both emitters are at rest: no rocket, no spark, no particle, the loop
    flag cleared, the canvas detached and an end time that has passed. *)
Definition emitters_down (w : World) : Prop :=
  particles w = [] /\ isAnimating w = false
  /\ canvasAttached w = false
  /\ match fireworks w with
     | Some this => endTime this = At 0 /\ rockets w = [] /\ sparks w = []
     | None => True
     end.

(** ** The confetti loop between turns *)

(** The fields the animation loop lives in. *)
Definition same_loop (w w' : World) : Prop :=
  particles w' = particles w
  /\ isAnimating w' = isAnimating w
  /\ frames w' = frames w
  /\ animationFrame w' = animationFrame w.

(** The loop is either stopped with nothing to animate and no frame
    requested, or running with exactly one frame requested, the one
    [animationFrame] holds; every particle is as the constructor made
    it. *)
Definition loop_ok (w : World) : Prop :=
  (isAnimating w = false -> particles w = [] /\ frames w = [])
  /\ (isAnimating w = true ->
      exists id, frames w = [id] /\ animationFrame w = Some id)
  /\ (forall p, In p (particles w) -> constructed p).

(** ** A confetti burst *)

(** The options [fire] passes to the constructor for each cannon. *)
Definition cannon_options (isLeftCannon : bool) : ParticleOptions :=
  {| o_colors := defaultColors; o_velocity := 45; o_spread := 20;
     o_isLeftCannon := isLeftCannon |}.

(** The [n] particles a cannon adds when the random tape stands at [r]:
    seven draws each. *)
Definition cannon_particles (rt : JsRuntime) (width height : Q)
    (isLeftCannon : bool) (r n : nat) : list Particle :=
  map (fun k =>
         Particle.new rt width height (cannon_options isLeftCannon)
           (r + 7 * k))
    (seq 0 n).

(** The particles of one burst: the left cannon's, then the right
    cannon's. *)
Definition burst_particles (rt : JsRuntime) (w : World) : list Particle :=
  cannon_particles rt (c_width w) (c_height w) true (rng w)
    Confetti.burstCount
  ++ cannon_particles rt (c_width w) (c_height w) false
       (rng w + 7 * Confetti.burstCount) Confetti.burstCount.

(** The base angle of a cannon, in degrees. *)
Definition base_angle (isLeftCannon : bool) : Q :=
  if isLeftCannon then -(45) else -(135).

(** ** The timers of an explosion *)

(** The two timeouts set for spark [k] of an explosion that starts with
    node counter [node] and tape position [r]: the fade after
    [duration * 900] ms and the removal after 2000 ms. *)
Definition spark_timers (rt : JsRuntime) (now : Q) (node r k : nat)
    : list (Q * Callback) :=
  [(now + (0.8 + Math_random rt (r + 4 * k + 2) * 0.6) * 900,
    CbFadeSpark (node + k));
   (now + 2000, CbRemoveSpark (node + k))].

(** The spark is at [(x, y)], in [color], not yet faded. *)
Definition spark_at (x y : Q) (color : string) (s : Spark) : Prop :=
  spark_left s = x /\ spark_top s = y /\ spark_color s = color
  /\ spark_faded s = false.

(** ** The flight of a particle *)

(** The particle after [n] updates. *)
Fixpoint updates (rt : JsRuntime) (height : Q) (n : nat) (p : Particle)
  : Particle :=
  match n with
  | O => p
  | S n' => updates rt height n' (fst (Particle.update rt height p))
  end.

(** What is left of a velocity after [n] updates of drag: [0.955 ^ n]. *)
Fixpoint decay (n : nat) : Q :=
  match n with
  | O => 1
  | S n' => decay n' * 0.955
  end.

(** The vertical velocity at which gravity and drag balance:
    [(v + 0.25) * 0.955 = v]. *)
Definition terminal_velocity : Q := 191 / 36.

(** ** Between two celebrations *)

(** No celebration is under way and neither emitter can produce anything
    by itself: the loop is stopped and empty, and the fireworks' end time
    is 0. *)
Definition quiescent (w : World) : Prop :=
  celebrating w = false
  /\ isAnimating w = false
  /\ particles w = []
  /\ match fireworks w with
     | Some this => endTime this = At 0
     | None => True
     end.

(** A turn of the event loop other than a periodic check and a call of
    [resume]; the clock is not before 0. *)
Definition between_checks (ev : Event) : Prop :=
  match ev with
  | EvInterval _ _ _ | EvResume _ => False
  | EvTimeout _ now _ => 0 <= now
  | EvFrame | EvSuspend | EvResize _ _ => True
  end.

(** Nothing was launched, fired or celebrated from [w] to [w']: the record
    of these calls is the same. *)
Definition same_log (w w' : World) : Prop := log w' = log w.

(** * Properties *)

(** ** Numbers *)

Lemma Qltb_lt (a b : Q) : Qltb a b = true <-> a < b.
Proof.
  unfold Qltb. rewrite negb_true_iff.
  split; intro H.
  - apply Qnot_le_lt. intro Hle. apply Qle_bool_iff in Hle. congruence.
  - destruct (Qle_bool b a) eqn:E; [|reflexivity].
    apply Qle_bool_iff in E. lra.
Qed.

Lemma Qltb_ge (a b : Q) : Qltb a b = false <-> b <= a.
Proof.
  unfold Qltb. rewrite negb_false_iff. apply Qle_bool_iff.
Qed.

Lemma sample_runtime_ok : random_ok sample_runtime.
Proof.
  intro n. unfold sample_runtime, Math_random.
  pose proof (Nat.mod_upper_bound n 10 ltac:(discriminate)) as Hm.
  set (m := (n mod 10)%nat) in *.
  unfold Qle, Qlt. cbn [Qnum Qden]. lia.
Qed.

Lemma constant_runtime_ok (r : Q) :
  0 <= r -> r < 1 -> random_ok (constant_runtime r).
Proof. intros H0 H1 n. split; assumption. Qed.

(** ** The confetti particle (C6) *)

Lemma velocityFade_le_1 (rt : JsRuntime) (vx vy : Q) :
  Particle.velocityFade rt vx vy <= 1.
Proof. apply Q.le_min_l. Qed.

Lemma heightFade_nonneg (height y : Q) :
  0 < height -> y <= height -> 0 <= Particle.heightFade height y.
Proof.
  intros Hh Hy. unfold Particle.heightFade.
  assert (Hd : (y - height * 0.95) / (height * 0.05) <= 1).
  { apply Qle_shift_div_r; lra. }
  destruct (Q.max_spec 0 ((y - height * 0.95) / (height * 0.05)))
    as [[_ E] | [_ E]]; rewrite E; lra.
Qed.

(** Below the bottom edge the height fade is negative. *)
Lemma heightFade_neg (height y : Q) :
  0 < height -> height < y -> Particle.heightFade height y < 0.
Proof.
  intros Hh Hy. unfold Particle.heightFade.
  assert (Hd : 1 < (y - height * 0.95) / (height * 0.05)).
  { apply Qlt_shift_div_l; lra. }
  pose proof (Q.le_max_r 0 ((y - height * 0.95) / (height * 0.05))). lra.
Qed.


(** C6, as stated, fails: the opacity assigned by [update] can be negative. *)
Lemma C6_opacity_negative :
  p_opacity (fst (Particle.update sample_runtime 1000 falling_particle)) < 0.
Proof. vm_compute. reflexivity. Qed.

(** C6 (amended): on a canvas of positive height, the opacity assigned by
    [update] is the minimum of the velocity fade and the height fade and
    is at most 1; it is at least 0 when the new position is not below the
    bottom edge (and [Math.sqrt] returned a non-negative number), and
    negative when it is below; the particle is reported alive exactly
    when the opacity exceeds 0.1 and the new position is above the bottom
    edge, and then the opacity lies in (0.1, 1]. *)
Theorem C6_update_opacity (rt : JsRuntime) (height : Q) (p : Particle) :
  0 < height ->
  let p' := fst (Particle.update rt height p) in
  let alive := snd (Particle.update rt height p) in
  p_opacity p' =
    Qmin (Particle.velocityFade rt (p_vx p') (p_vy p'))
         (Particle.heightFade height (p_y p'))
  /\ p_opacity p' <= 1
  /\ (p_y p' <= height ->
      0 <= Math_sqrt rt (p_vx p' * p_vx p' + p_vy p' * p_vy p') ->
      0 <= p_opacity p')
  /\ (height < p_y p' -> p_opacity p' < 0)
  /\ (alive = true <-> 0.1 < p_opacity p' /\ p_y p' < height)
  /\ (alive = true -> 0.1 < p_opacity p' /\ p_opacity p' <= 1).
Proof.
  intros Hh. cbv zeta. unfold Particle.update.
  cbn [fst snd p_opacity p_vx p_vy p_y].
  set (vx := p_vx p * (1 - p_drag p)).
  set (vy := (p_vy p + p_gravity p) * (1 - p_drag p)).
  set (y := p_y p + p_vy p).
  assert (Hle : Qmin (Particle.velocityFade rt vx vy)
                  (Particle.heightFade height y) <= 1).
  { eapply Qle_trans; [apply Q.le_min_l | apply velocityFade_le_1]. }
  assert (Hiff : Qltb 0.1 (Qmin (Particle.velocityFade rt vx vy)
                             (Particle.heightFade height y))
                 && Qltb y height = true <->
                 0.1 < Qmin (Particle.velocityFade rt vx vy)
                         (Particle.heightFade height y) /\ y < height).
  { rewrite andb_true_iff, !Qltb_lt. tauto. }
  split; [reflexivity|].
  split; [exact Hle|].
  split.
  { intros Hy Hs. apply Q.min_glb.
    - unfold Particle.velocityFade. apply Q.min_glb; [lra|].
      apply Qle_shift_div_l; lra.
    - apply heightFade_nonneg; assumption. }
  split.
  { intros Hy. eapply Qle_lt_trans; [apply Q.le_min_r|].
    apply heightFade_neg; assumption. }
  split; [exact Hiff|].
  intro Ha. apply Hiff in Ha. split; [apply Ha | exact Hle].
Qed.

(** A rising particle in mid-canvas keeps a non-negative opacity and is
    alive. *)
Lemma C6_update_opacity_witness :
  0 <= p_opacity (fst (Particle.update sample_runtime 1000 rising_particle))
  /\ snd (Particle.update sample_runtime 1000 rising_particle) = true.
Proof.
  assert (Hh : 0 < 1000) by reflexivity.
  pose proof (C6_update_opacity sample_runtime 1000 rising_particle Hh) as H.
  cbv zeta in H. destruct H as (_ & _ & H0 & _ & _ & _).
  split.
  - apply H0; vm_compute; congruence.
  - vm_compute. reflexivity.
Defined.

(** ** Loops *)

Lemma for_loop_invariant (P : World -> Prop) (body : nat -> World -> World) :
  (forall i w, P w -> P (body i w)) ->
  forall n start w, P w -> P (for_loop n start body w).
Proof.
  intros Hbody n. induction n as [|n IH]; intros start w Hw; simpl.
  - exact Hw.
  - apply IH. apply Hbody. exact Hw.
Qed.

(** ** The explosion (C5) *)

Lemma explosion_step_spec (rt : JsRuntime) (x y : Q) (color : string)
    (now : Q) (i : nat) (w : World) :
  exists s,
    sparks (Fireworks.explosion_step rt x y color now i w) = sparks w ++ [s]
    /\ rng (Fireworks.explosion_step rt x y color now i w) = (4 + rng w)%nat
    /\ spark_of_draws rt i (rng w) s.
Proof.
  eexists. split; [reflexivity|]. split; [reflexivity|].
  repeat split.
Qed.

Lemma explosion_loop_spec (rt : JsRuntime) (x y : Q) (color : string)
    (now : Q) (n : nat) :
  forall start w,
  exists new,
    sparks (for_loop n start (Fireworks.explosion_step rt x y color now) w)
      = sparks w ++ new
    /\ List.length new = n
    /\ forall k s, nth_error new k = Some s ->
         spark_of_draws rt (start + k) (4 * k + rng w) s.
Proof.
  induction n as [|n IH]; intros start w; simpl for_loop.
  - exists []. split; [now rewrite app_nil_r|]. split; [reflexivity|].
    intros [|k] s; discriminate.
  - destruct (explosion_step_spec rt x y color now start w)
      as (s0 & Hs & Hr & Hd).
    destruct (IH (S start)
                (Fireworks.explosion_step rt x y color now start w))
      as (new & Hn & Hlen & Hall).
    exists (s0 :: new). split; [|split].
    + rewrite Hn, Hs, <- app_assoc. reflexivity.
    + simpl. now rewrite Hlen.
    + intros [|k] s Hk; simpl in Hk.
      * injection Hk as <-. rewrite Nat.add_0_r. exact Hd.
      * specialize (Hall k s Hk). rewrite Hr in Hall.
        replace (start + S k)%nat with (S start + k)%nat by lia.
        replace (4 * S k + rng w)%nat with (4 * k + (4 + rng w))%nat by lia.
        exact Hall.
Qed.

(** C5: [createExplosion] appends exactly 80 sparks; spark [i] is created
    with the angle [i * 360 / 80] plus a jitter [Math.random() * 20], which
    lies in [0, 20) and so within 20 degrees of the evenly spaced angle,
    with a velocity [100 + Math.random() * 100] in [100, 200), and travels
    that velocity times [0.7 + Math.random() * 0.3], a factor in [0.7, 1).
    Every spark has four draws of its own. *)
Theorem C5_explosion_sparks (rt : JsRuntime) (x y : Q) (color : string)
    (now : Q) (w : World) :
  random_ok rt ->
  exists new,
    sparks (Fireworks.createExplosion rt x y color now w) = sparks w ++ new
    /\ List.length new = 80%nat
    /\ forall i s, nth_error new i = Some s ->
         let r := (4 * i + rng w)%nat in
         let jitter := Math_random rt r * 20 in
         let velocity := 100 + Math_random rt (S r) * 100 in
         let factor := 0.7 + Math_random rt (S (S (S r))) * 0.3 in
         spark_angle s = (Qnat i * 360) / 80 + jitter
         /\ 0 <= jitter /\ jitter < 20
         /\ -(20) <= spark_angle s - (Qnat i * 360) / 80
         /\ spark_angle s - (Qnat i * 360) / 80 <= 20
         /\ spark_velocity s = velocity
         /\ 100 <= velocity /\ velocity < 200
         /\ spark_distance s = velocity * factor
         /\ 0.7 <= factor /\ factor < 1.
Proof.
  intros Hr. unfold Fireworks.createExplosion.
  destruct (explosion_loop_spec rt x y color now Fireworks.particleCount 0 w)
    as (new & Hn & Hlen & Hall).
  exists new. split; [exact Hn|]. split; [exact Hlen|].
  intros i s Hi. cbv zeta.
  destruct (Hall i s Hi) as (Ha & Hv & _ & Hd).
  change (0 + i)%nat with i in Ha.
  change (Qnat Fireworks.particleCount) with (80 : Q) in Ha.
  pose proof (Hr (4 * i + rng w)%nat) as [R0 R1].
  pose proof (Hr (S (4 * i + rng w))) as [V0 V1].
  pose proof (Hr (S (S (S (4 * i + rng w))))) as [F0 F1].
  rewrite Hd, Hv, Ha.
  repeat match goal with |- _ /\ _ => split end;
    try reflexivity; try lra.
Qed.

(** An explosion on an empty page, every draw being 0.5. *)
Lemma C5_explosion_sparks_witness :
  exists new,
    sparks (Fireworks.createExplosion (constant_runtime 0.5) 100 200 "#ff0000"
              0 (loaded {| birthdays := None; fireworkDuration := Infinite;
                           confettiDuration := Infinite |}
                   TrMissing 800 600 [] None))
      = new
    /\ List.length new = 80%nat.
Proof.
  destruct (C5_explosion_sparks (constant_runtime 0.5) 100 200 "#ff0000" 0
              (loaded {| birthdays := None; fireworkDuration := Infinite;
                         confettiDuration := Infinite |}
                 TrMissing 800 600 [] None))
    as (new & Hn & Hlen & _).
  - apply constant_runtime_ok; lra.
  - exists new. split; [exact Hn | exact Hlen].
Defined.

(** ** The launch position (C9) *)

Lemma scale_bounds (r a : Q) :
  0 <= r -> r < 1 ->
  (0 <= a -> 0 <= r * a /\ r * a <= a)
  /\ (0 < a -> r * a < a)
  /\ (a <= 0 -> a <= r * a /\ r * a <= 0)
  /\ (a < 0 -> a < r * a).
Proof.
  intros R0 R1. repeat split; intros; nra.
Qed.

(** C9, as stated, fails: nothing clamps the position.  On a page 40
    pixels wide a draw of 0.9 puts the rocket at -4, left of the
    viewport. *)
Lemma C9_launch_left_of_viewport :
  match rockets (Fireworks.launch (constant_runtime 0.9) 0 narrow_page) with
  | [r] => rocket_left r < 0
  | _ => False
  end.
Proof. vm_compute. reflexivity. Qed.

(** C9 (amended): for every viewport width, [launch] adds one rocket at
    [Math.random() * (innerWidth - 100) + 50]; this is a number between
    50 and [innerWidth - 50], in whichever order the two bounds come: inside
    the viewport when the width is at least 100, and [innerWidth - 50 <
    x <= 50] on a narrower one, where it can be left of the viewport. *)
Theorem C9_launch_position (rt : JsRuntime) (now : Q) (w : World)
    (this : FireworksObj) :
  random_ok rt ->
  fireworks w = Some this ->
  let width := inject_Z (innerWidth w) in
  let x := Math_random rt (rng w) * (width - 100) + 50 in
  rockets (Fireworks.launch rt now w)
    = rockets w ++ [{| rocket_id := nextNode w; rocket_left := x |}]
  /\ launches (Fireworks.launch rt now w) = S (launches w)
  /\ (100 <= width -> 50 <= x /\ x <= width - 50 /\ 0 <= x /\ x <= width)
  /\ (100 < width -> x < width - 50)
  /\ (width <= 100 -> width - 50 <= x /\ x <= 50)
  /\ (width < 100 -> width - 50 < x).
Proof.
  intros Hr Hf. cbv zeta. unfold Fireworks.launch. rewrite Hf.
  destruct (Hr (rng w)) as [R0 R1].
  split; [reflexivity|]. split.
  - unfold launches. cbn [log set_log]. simpl log.
    rewrite filter_app, length_app. simpl. lia.
  - destruct (scale_bounds (Math_random rt (rng w))
                (inject_Z (innerWidth w) - 100) R0 R1)
      as (B1 & B2 & B3 & B4).
    unfold rand. simpl rng.
    split; [|split; [|split]]; intros Hw.
    + destruct B1 as [? ?]; [lra|]. repeat split; lra.
    + assert (0 < inject_Z (innerWidth w) - 100) as Hp by lra.
      specialize (B2 Hp). lra.
    + destruct B3 as [? ?]; [lra|]. split; lra.
    + assert (inject_Z (innerWidth w) - 100 < 0) as Hn by lra.
      specialize (B4 Hn). lra.
Qed.

(** A launch on a page 1920 wide. *)
Lemma C9_launch_position_witness :
  launches (Fireworks.launch sample_runtime 0 wide_page) = 1%nat.
Proof.
  destruct (C9_launch_position sample_runtime 0 wide_page
              {| colors := Fireworks.palette; endTime := Infinity |})
    as (_ & H & _).
  - exact sample_runtime_ok.
  - reflexivity.
  - exact H.
Defined.

(** ** Teardown (C4) *)

Lemma filter_idempotent {A : Type} (f : A -> bool) (l : list A) :
  filter f (filter f l) = filter f l.
Proof.
  induction l as [|a l IH]; simpl; [reflexivity|].
  destruct (f a) eqn:E; simpl; rewrite ?E, IH; reflexivity.
Qed.

Lemma Fireworks_cleanup_idempotent (w : World) :
  Fireworks.cleanup (Fireworks.cleanup w) = Fireworks.cleanup w.
Proof.
  unfold Fireworks.cleanup.
  destruct (fireworks w) as [this|] eqn:E; simpl; [reflexivity|].
  rewrite E. reflexivity.
Qed.

Lemma Confetti_cleanup_idempotent (w : World) :
  Confetti.cleanup (Confetti.cleanup w) = Confetti.cleanup w.
Proof.
  unfold Confetti.cleanup, Confetti.cancelAnimationFrame.
  destruct (animationFrame w) as [id|] eqn:E;
    cbn; rewrite ?E; cbn; rewrite ?E; cbn.
  - rewrite filter_idempotent. reflexivity.
  - reflexivity.
Qed.

(** At or after its end time [launchNext] changes nothing. *)
Lemma launchNext_expired (rt : JsRuntime) (now e : Q) (w : World)
    (this : FireworksObj) :
  fireworks w = Some this -> endTime this = At e -> e <= now ->
  Fireworks.launchNext rt now w = w.
Proof.
  intros Hf He Hle. unfold Fireworks.launchNext. rewrite Hf, He.
  simpl. apply Qltb_ge in Hle. rewrite Hle. reflexivity.
Qed.

(** C4: both [cleanup] functions are idempotent and total.  After
    [Fireworks.cleanup] the end time is 0, no rocket and no spark is in
    the document, and a pending [launchNext] does nothing; after
    [Confetti.cleanup] the particle set is empty, the loop is stopped
    ([isAnimating] is false, the requested frame is cancelled, and
    [animate] does nothing), and the canvas is detached. *)
Theorem C4_cleanup_idempotent (rt : JsRuntime) (w : World) :
  Fireworks.cleanup (Fireworks.cleanup w) = Fireworks.cleanup w
  /\ (forall this, fireworks w = Some this ->
        fireworks (Fireworks.cleanup w)
          = Some {| colors := colors this; endTime := At 0 |}
        /\ rockets (Fireworks.cleanup w) = []
        /\ sparks (Fireworks.cleanup w) = []
        /\ forall now, 0 <= now ->
             Fireworks.launchNext rt now (Fireworks.cleanup w)
               = Fireworks.cleanup w)
  /\ Confetti.cleanup (Confetti.cleanup w) = Confetti.cleanup w
  /\ particles (Confetti.cleanup w) = []
  /\ isAnimating (Confetti.cleanup w) = false
  /\ canvasAttached (Confetti.cleanup w) = false
  /\ (forall id, animationFrame w = Some id ->
        ~ In id (frames (Confetti.cleanup w)))
  /\ Confetti.animate rt (Confetti.cleanup w) = Confetti.cleanup w.
Proof.
  split; [apply Fireworks_cleanup_idempotent|].
  split.
  { intros this Hf.
    assert (Hc : fireworks (Fireworks.cleanup w)
                 = Some {| colors := colors this; endTime := At 0 |}).
    { unfold Fireworks.cleanup. rewrite Hf. reflexivity. }
    split; [exact Hc|].
    split; [unfold Fireworks.cleanup; rewrite Hf; reflexivity|].
    split; [unfold Fireworks.cleanup; rewrite Hf; reflexivity|].
    intros now Hnow. eapply launchNext_expired; [exact Hc|reflexivity|exact Hnow]. }
  split; [apply Confetti_cleanup_idempotent|].
  assert (Hstop : isAnimating (Confetti.cleanup w) = false).
  { unfold Confetti.cleanup. cbn. destruct (animationFrame w); reflexivity. }
  split; [reflexivity|].
  split; [exact Hstop|].
  split; [reflexivity|].
  split.
  { intros id Hid Hin. unfold Confetti.cleanup in Hin.
    cbn in Hin. rewrite Hid in Hin. cbn in Hin.
    apply filter_In in Hin. destruct Hin as [_ Hin].
    rewrite Nat.eqb_refl in Hin. discriminate. }
  unfold Confetti.animate. rewrite Hstop. reflexivity.
Qed.

(** [cleanup] removes what is in the document and stops the launches; a
    callback of [launch] that is still pending is not cancelled.  A rocket
    launched at time 1000 and cleaned up at once still explodes at 1800. *)
Example explosion_after_cleanup :
  let w := Fireworks.cleanup
             (Fireworks.start sample_runtime (Millis 5000) 1000 wide_page) in
  List.length (sparks w) = 0%nat
  /\ List.length (sparks (step sample_runtime (EvTimeout 0 1800 300) w))
     = 80%nat.
Proof. vm_compute. split; reflexivity. Qed.

(** ** What each function leaves unchanged *)

Lemma unchanged_ctl_refl (w : World) : unchanged_ctl w w.
Proof. repeat split. Qed.

Lemma unchanged_ctl_trans (w1 w2 w3 : World) :
  unchanged_ctl w1 w2 -> unchanged_ctl w2 w3 -> unchanged_ctl w1 w3.
Proof.
  unfold unchanged_ctl. intros (A1 & A2 & A3 & A4 & A5) (B1 & B2 & B3 & B4 & B5).
  repeat split; congruence.
Qed.

Lemma no_launch_refl (w : World) : no_launch w w.
Proof. repeat split. Qed.

Lemma no_launch_trans (w1 w2 w3 : World) :
  no_launch w1 w2 -> no_launch w2 w3 -> no_launch w1 w3.
Proof.
  unfold no_launch. intros (A1 & A2 & A3 & A4) (B1 & B2 & B3 & B4).
  repeat split; congruence.
Qed.

Ltac frame :=
  unfold unchanged_ctl, no_launch, launches, celebrations, bursts,
    pending_launches;
  cbn;
  rewrite ?filter_app, ?length_app; cbn;
  rewrite ?app_nil_r, ?Nat.add_0_r;
  repeat split; try reflexivity.

Lemma explosion_step_ctl (rt : JsRuntime) (x y : Q) (color : string)
    (now : Q) (i : nat) (w : World) :
  unchanged_ctl w (Fireworks.explosion_step rt x y color now i w).
Proof. frame. Qed.

Lemma explosion_step_quiet (rt : JsRuntime) (x y : Q) (color : string)
    (now : Q) (i : nat) (w : World) :
  no_launch w (Fireworks.explosion_step rt x y color now i w).
Proof. frame. Qed.

Lemma createExplosion_ctl (rt : JsRuntime) (x y : Q) (color : string)
    (now : Q) (w : World) :
  unchanged_ctl w (Fireworks.createExplosion rt x y color now w).
Proof.
  unfold Fireworks.createExplosion.
  apply for_loop_invariant with (P := unchanged_ctl w).
  - intros i w' H. eapply unchanged_ctl_trans; [exact H|].
    apply explosion_step_ctl.
  - apply unchanged_ctl_refl.
Qed.

Lemma createExplosion_quiet (rt : JsRuntime) (x y : Q) (color : string)
    (now : Q) (w : World) :
  no_launch w (Fireworks.createExplosion rt x y color now w).
Proof.
  unfold Fireworks.createExplosion.
  apply for_loop_invariant with (P := no_launch w).
  - intros i w' H. eapply no_launch_trans; [exact H|].
    apply explosion_step_quiet.
  - apply no_launch_refl.
Qed.

Lemma explode_ctl (rt : JsRuntime) (id : nat) (x : Q) (color : string)
    (rect_top now : Q) (w : World) :
  unchanged_ctl w (Fireworks.explode rt id x color rect_top now w).
Proof.
  unfold Fireworks.explode.
  match goal with |- context [Fireworks.createExplosion rt x ?y color now w] =>
    apply unchanged_ctl_trans
      with (Fireworks.createExplosion rt x y color now w);
    [apply createExplosion_ctl
    |generalize (Fireworks.createExplosion rt x y color now w); intro;
     frame] end.
Qed.

Lemma explode_quiet (rt : JsRuntime) (id : nat) (x : Q) (color : string)
    (rect_top now : Q) (w : World) :
  no_launch w (Fireworks.explode rt id x color rect_top now w).
Proof.
  unfold Fireworks.explode.
  match goal with |- context [Fireworks.createExplosion rt x ?y color now w] =>
    apply no_launch_trans
      with (Fireworks.createExplosion rt x y color now w);
    [apply createExplosion_quiet
    |generalize (Fireworks.createExplosion rt x y color now w); intro;
     frame] end.
Qed.

Lemma launch_ctl (rt : JsRuntime) (now : Q) (w : World) :
  unchanged_ctl w (Fireworks.launch rt now w).
Proof. unfold Fireworks.launch. destruct (fireworks w); frame. Qed.

Lemma launch_effect (rt : JsRuntime) (now : Q) (w : World) :
  fireworks (Fireworks.launch rt now w) = fireworks w
  /\ celebrations (Fireworks.launch rt now w) = celebrations w
  /\ bursts (Fireworks.launch rt now w) = bursts w
  /\ pending_launches (Fireworks.launch rt now w) = pending_launches w.
Proof. unfold Fireworks.launch. destruct (fireworks w) eqn:E; frame; exact E. Qed.

Lemma launchNext_ctl (rt : JsRuntime) (now : Q) (w : World) :
  unchanged_ctl w (Fireworks.launchNext rt now w).
Proof.
  unfold Fireworks.launchNext.
  destruct (fireworks w); [|apply unchanged_ctl_refl].
  destruct (before now (endTime f)); [|apply unchanged_ctl_refl].
  apply unchanged_ctl_trans with (Fireworks.launch rt now w);
    [apply launch_ctl | frame].
Qed.

Lemma launchNext_effect (rt : JsRuntime) (now : Q) (w : World) :
  fireworks (Fireworks.launchNext rt now w) = fireworks w
  /\ celebrations (Fireworks.launchNext rt now w) = celebrations w
  /\ bursts (Fireworks.launchNext rt now w) = bursts w.
Proof.
  unfold Fireworks.launchNext.
  destruct (fireworks w) eqn:E; [|repeat split; exact E].
  destruct (before now (endTime f)); [|repeat split; exact E].
  destruct (launch_effect rt now w) as (A & B & C & _).
  revert A B C. generalize (Fireworks.launch rt now w). intros w1 A B C.
  rewrite E in A. rewrite <- A, <- B, <- C. frame.
Qed.

Lemma Fireworks_start_ctl (rt : JsRuntime) (d : Duration) (now : Q)
    (w : World) :
  unchanged_ctl w (Fireworks.start rt d now w).
Proof.
  unfold Fireworks.start. destruct (fireworks w); [|apply unchanged_ctl_refl].
  match goal with |- unchanged_ctl w (Fireworks.launchNext rt now ?w1) =>
    apply unchanged_ctl_trans with w1; [frame | apply launchNext_ctl] end.
Qed.

Lemma Fireworks_start_effect (rt : JsRuntime) (d : Duration) (now : Q)
    (w : World) :
  celebrations (Fireworks.start rt d now w) = celebrations w
  /\ bursts (Fireworks.start rt d now w) = bursts w
  /\ (fireworks w = None -> fireworks (Fireworks.start rt d now w) = None)
  /\ (fireworks w <> None -> fireworks (Fireworks.start rt d now w) <> None).
Proof.
  unfold Fireworks.start. destruct (fireworks w) eqn:E.
  - match goal with |- context [Fireworks.launchNext rt now ?w1] =>
      destruct (launchNext_effect rt now w1) as (A & B & C) end.
    rewrite A, B, C. repeat split; try discriminate.
  - repeat split; congruence.
Qed.

Lemma Fireworks_cleanup_ctl (w : World) :
  unchanged_ctl w (Fireworks.cleanup w).
Proof. unfold Fireworks.cleanup. destruct (fireworks w); frame. Qed.

Lemma Fireworks_cleanup_effect (w : World) :
  launches (Fireworks.cleanup w) = launches w
  /\ celebrations (Fireworks.cleanup w) = celebrations w
  /\ bursts (Fireworks.cleanup w) = bursts w
  /\ pending_launches (Fireworks.cleanup w) = pending_launches w
  /\ timeouts (Fireworks.cleanup w) = timeouts w.
Proof. unfold Fireworks.cleanup. destruct (fireworks w); frame. Qed.

Lemma confetti_only_refl (w : World) : confetti_only w w.
Proof. repeat split. Qed.

Lemma confetti_only_trans (w1 w2 w3 : World) :
  confetti_only w1 w2 -> confetti_only w2 w3 -> confetti_only w1 w3.
Proof.
  intros (A1 & A2 & A3 & A4) (B1 & B2 & B3 & B4).
  split; [eapply unchanged_ctl_trans; eassumption|].
  split; [eapply no_launch_trans; eassumption|].
  split; congruence.
Qed.

Ltac confetti_frame :=
  unfold confetti_only; frame.

Lemma animate_only (rt : JsRuntime) (w : World) :
  confetti_only w (Confetti.animate rt w).
Proof.
  unfold Confetti.animate.
  destruct (negb (isAnimating w)); [apply confetti_only_refl|].
  destruct (0 <? _)%nat; confetti_frame.
Qed.

Lemma animate_log (rt : JsRuntime) (w : World) :
  log (Confetti.animate rt w) = log w.
Proof.
  unfold Confetti.animate.
  destruct (negb (isAnimating w)); [reflexivity|].
  destruct (0 <? _)%nat; reflexivity.
Qed.

Lemma push_particle_only (rt : JsRuntime) (left : bool) (i : nat)
    (w : World) :
  confetti_only w (Confetti.push_particle rt left i w)
  /\ log (Confetti.push_particle rt left i w) = log w.
Proof. split; [confetti_frame | reflexivity]. Qed.

Lemma push_loop_only (rt : JsRuntime) (left : bool) (n start : nat)
    (w : World) :
  confetti_only w (for_loop n start (Confetti.push_particle rt left) w)
  /\ log (for_loop n start (Confetti.push_particle rt left) w) = log w.
Proof.
  apply for_loop_invariant
    with (P := fun w' => confetti_only w w' /\ log w' = log w).
  - intros i w' [H L]. destruct (push_particle_only rt left i w') as [H' L'].
    split; [eapply confetti_only_trans; eassumption | congruence].
  - split; [apply confetti_only_refl | reflexivity].
Qed.

Lemma fire_tail (rt : JsRuntime) (w : World) :
  let w' := if negb (isAnimating w)
            then Confetti.animate rt (set_isAnimating true w) else w in
  confetti_only w w' /\ log w' = log w.
Proof.
  cbv zeta. destruct (negb (isAnimating w)).
  - split.
    + apply confetti_only_trans with (set_isAnimating true w);
        [confetti_frame | apply animate_only].
    + rewrite animate_log. reflexivity.
  - split; [apply confetti_only_refl | reflexivity].
Qed.

Lemma fire_only (rt : JsRuntime) (w : World) :
  confetti_only w (Confetti.fire rt w)
  /\ log (Confetti.fire rt w) = log w ++ [ActBurst].
Proof.
  unfold Confetti.fire. cbv zeta.
  assert (H1 : confetti_only w (set_log (log w ++ [ActBurst]) w)
               /\ log (set_log (log w ++ [ActBurst]) w)
                  = log w ++ [ActBurst]).
  { split; [confetti_frame | reflexivity]. }
  revert H1. generalize (set_log (log w ++ [ActBurst]) w). intros w1 H1.
  pose proof (push_loop_only rt true Confetti.burstCount 0 w1) as H2.
  revert H2.
  generalize (for_loop Confetti.burstCount 0 (Confetti.push_particle rt true)
                w1).
  intros w2 H2.
  pose proof (push_loop_only rt false Confetti.burstCount 0 w2) as H3.
  revert H3.
  generalize (for_loop Confetti.burstCount 0 (Confetti.push_particle rt false)
                w2).
  intros w3 H3.
  pose proof (fire_tail rt w3) as H4. cbv zeta in H4. revert H4.
  generalize (if negb (isAnimating w3)
              then Confetti.animate rt (set_isAnimating true w3) else w3).
  intros w4 H4.
  destruct H1 as [H1 L1], H2 as [H2 L2], H3 as [H3 L3], H4 as [H4 L4].
  split.
  - eapply confetti_only_trans; [exact H1|].
    eapply confetti_only_trans; [exact H2|].
    eapply confetti_only_trans; [exact H3 | exact H4].
  - congruence.
Qed.

Lemma Confetti_cleanup_only (w : World) :
  confetti_only w (Confetti.cleanup w) /\ log (Confetti.cleanup w) = log w.
Proof.
  unfold Confetti.cleanup, Confetti.cancelAnimationFrame. cbn.
  destruct (animationFrame w); split; try reflexivity; confetti_frame.
Qed.

(** ** The confetti burst chain (C7) *)

(** C7: [startConfetti] schedules [fireBurst] with the end time
    [now + confettiDuration] (or the infinite sentinel).  When [fireBurst]
    runs while [celebrating] is true and the end time has not passed (or
    the duration is infinite) it fires one burst and schedules itself
    again after [2000 + Math.random() * 6000] ms, a delay in
    [2000, 8000); otherwise it fires nothing and schedules nothing, so
    the pending callback is consumed and the chain ends. *)
Theorem C7_burst_chain (rt : JsRuntime) (isInfinite : bool)
    (end_ : Deadline) (now : Q) (w : World) :
  random_ok rt ->
  let w' := MMM_Birthday.fireBurst rt isInfinite end_ now w in
  (burst_allowed isInfinite end_ now w = true ->
     bursts w' = S (bursts w)
     /\ exists delay,
          2000 <= delay /\ delay < 8000
          /\ timeouts w'
             = timeouts w ++ [(now + delay, CbFireBurst isInfinite end_)])
  /\ (burst_allowed isInfinite end_ now w = false -> w' = w)
  /\ (forall k due rect_top,
        nth_error (timeouts w) k = Some (due, CbFireBurst isInfinite end_) ->
        due <= now ->
        burst_allowed isInfinite end_ now w = false ->
        step rt (EvTimeout k now rect_top) w
          = set_timeouts (remove_nth k (timeouts w)) w)
  /\ timeouts (MMM_Birthday.startConfetti now w)
     = timeouts w
       ++ [(now + 1000,
            match confettiDuration (config w) with
            | Infinite => CbFireBurst true Infinity
            | Millis d => CbFireBurst false (At (now + d))
            end)].
Proof.
  intros Hr. cbv zeta. unfold MMM_Birthday.fireBurst, burst_allowed.
  split; [|split; [|split]].
  - intros Hlive. rewrite Hlive.
    destruct (fire_only rt w) as ((_ & _ & Ht & _) & Hl).
    pose proof (Hr (rng (Confetti.fire rt w))) as R.
    revert Ht Hl R. unfold rand.
    generalize (Confetti.fire rt w). intros w1 Ht Hl [R0 R1].
    split.
    + unfold bursts. cbn. rewrite Hl, filter_app, length_app. cbn. lia.
    + exists (2000 + Math_random rt (rng w1) * 6000).
      split; [lra|]. split; [lra|].
      cbn. rewrite Ht. reflexivity.
  - intros Hdead. rewrite Hdead. reflexivity.
  - intros k due rect_top Hk Hdue Hdead. unfold step. rewrite Hk.
    apply Qle_bool_iff in Hdue. rewrite Hdue.
    unfold run_callback, MMM_Birthday.fireBurst.
    cbn [celebrating set_timeouts]. rewrite Hdead. reflexivity.
  - unfold MMM_Birthday.startConfetti.
    destruct (confettiDuration (config w)); reflexivity.
Qed.

(** The first burst of Anna's celebration, one second after its start. *)
Lemma C7_burst_chain_witness :
  bursts (MMM_Birthday.fireBurst sample_runtime false (At 6000) 2000
            anna_started)
  = S (bursts anna_started).
Proof.
  pose proof (C7_burst_chain sample_runtime false (At 6000) 2000
                anna_started sample_runtime_ok) as H.
  cbv zeta in H. destruct H as (H & _).
  apply H. vm_compute. reflexivity.
Defined.

(** ** The module's functions *)

Lemma getRandomMessage_frame (rt : JsRuntime) (name : option string)
    (w : World) :
  unchanged_ctl w (snd (MMM_Birthday.getRandomMessage rt name w))
  /\ no_launch w (snd (MMM_Birthday.getRandomMessage rt name w))
  /\ wrapper (snd (MMM_Birthday.getRandomMessage rt name w)) = wrapper w
  /\ timeouts (snd (MMM_Birthday.getRandomMessage rt name w)) = timeouts w.
Proof.
  unfold MMM_Birthday.getRandomMessage.
  destruct (nth_error _ _); frame.
Qed.

Lemma calm_trans (w1 w2 w3 : World) : calm w1 w2 -> calm w2 w3 -> calm w1 w3.
Proof.
  intros [A1 A2] [B1 B2].
  split; [eapply unchanged_ctl_trans; eassumption | congruence].
Qed.

Ltac calm_frame := unfold calm; frame.

Lemma ensure_fireworks_calm (w : World) :
  calm w (match fireworks w with
          | Some _ => w
          | None => Fireworks.new w
          end).
Proof. destruct (fireworks w); calm_frame. Qed.

Lemma ensure_wrapper_calm (w : World) :
  calm w (match wrapper w with
          | Some _ => w
          | None => MMM_Birthday.createWrapper w
          end).
Proof. destruct (wrapper w); calm_frame. Qed.

Lemma init_calm (w : World) : calm w (Confetti.init w).
Proof. calm_frame. Qed.

Lemma getRandomMessage_calm (rt : JsRuntime) (name : option string)
    (w : World) :
  calm w (snd (MMM_Birthday.getRandomMessage rt name w)).
Proof.
  destruct (getRandomMessage_frame rt name w) as (A & (_ & _ & B & _) & _).
  split; assumption.
Qed.

Lemma show_message_calm (el : Wrapper) (w : World) :
  calm w (MMM_Birthday.dimOtherModules (set_wrapper (Some el) w)).
Proof. calm_frame. Qed.

Lemma startFireworks_calm (rt : JsRuntime) (now : Q) (w : World) :
  calm w (MMM_Birthday.startFireworks rt now w).
Proof.
  split; [apply Fireworks_start_ctl | apply Fireworks_start_effect].
Qed.

Lemma startConfetti_calm (now : Q) (w : World) :
  calm w (MMM_Birthday.startConfetti now w).
Proof. calm_frame. Qed.

Lemma schedule_stop_calm (now : Q) (w : World) :
  calm w (match fireworkDuration (config w) with
          | Infinite => w
          | Millis d => setTimeout CbStopCelebration d now w
          end).
Proof. destruct (fireworkDuration (config w)); calm_frame. Qed.

(** [celebrateBirthday] leaves the flags as they are and counts as one
    celebration, whether it returns or throws. *)
Lemma celebrateBirthday_effect (rt : JsRuntime) (name : option string)
    (now : Q) (w : World) :
  unchanged_ctl w (fst (MMM_Birthday.celebrateBirthday rt name now w))
  /\ celebrations (fst (MMM_Birthday.celebrateBirthday rt name now w))
     = S (celebrations w).
Proof.
  unfold MMM_Birthday.celebrateBirthday. cbv zeta.
  assert (H1 : unchanged_ctl w (set_log (log w ++ [ActCelebrate name]) w)
               /\ celebrations (set_log (log w ++ [ActCelebrate name]) w)
                  = S (celebrations w)).
  { frame. lia. }
  revert H1. generalize (set_log (log w ++ [ActCelebrate name]) w).
  intros w1 H1.
  match goal with
  | |- context [MMM_Birthday.getRandomMessage rt name ?W] =>
      assert (H4 : calm w1 W)
        by (eapply calm_trans;
            [eapply calm_trans;
             [apply ensure_fireworks_calm | apply init_calm]
            |apply ensure_wrapper_calm]);
      revert H4; generalize W; intros w4 H4
  end.
  pose proof (getRandomMessage_calm rt name w4) as H5.
  assert (Hend : forall w', calm w4 w' ->
                   unchanged_ctl w w' /\ celebrations w' = S (celebrations w)).
  { intros w' H'. destruct (calm_trans _ _ _ H4 H') as [A B].
    destruct H1 as [A1 B1].
    split; [eapply unchanged_ctl_trans; eassumption | congruence]. }
  destruct (fst (MMM_Birthday.getRandomMessage rt name w4)) as [text|];
    cbn [fst]; apply Hend; [|exact H5].
  eapply calm_trans; [exact H5|].
  eapply calm_trans; [|apply schedule_stop_calm].
  eapply calm_trans; [|apply startConfetti_calm].
  eapply calm_trans; [|apply startFireworks_calm].
  apply show_message_calm.
Qed.

Lemma celebrateBirthday_ctl (rt : JsRuntime) (name : option string)
    (now : Q) (w : World) :
  unchanged_ctl w (fst (MMM_Birthday.celebrateBirthday rt name now w)).
Proof. apply celebrateBirthday_effect. Qed.

Lemma celebrateBirthday_count (rt : JsRuntime) (name : option string)
    (now : Q) (w : World) :
  celebrations (fst (MMM_Birthday.celebrateBirthday rt name now w))
  = S (celebrations w).
Proof. apply celebrateBirthday_effect. Qed.

Lemma forEach_birthday_busy (rt : JsRuntime) (bs : list Birthday)
    (today : string) (now : Q) (w : World) :
  celebrating w || wasCelebrating w = true ->
  MMM_Birthday.forEach_birthday rt bs today now w
  = (w, MMM_Birthday.Normal).
Proof.
  intros Hbusy. induction bs as [|b bs IH]; [reflexivity|].
  cbn [MMM_Birthday.forEach_birthday].
  assert (Hc : String.eqb (b_date b) today && negb (celebrating w)
               && negb (wasCelebrating w) = false).
  { destruct (celebrating w), (wasCelebrating w),
      (String.eqb (b_date b) today); simpl in *; congruence. }
  rewrite Hc. exact IH.
Qed.

(** One pass of the [forEach]: either nothing at all happens, or the state
    was idle, exactly one celebration is started, and [celebrating] is
    set. *)
Lemma forEach_birthday_once (rt : JsRuntime) (bs : list Birthday)
    (today : string) (now : Q) (w : World) :
  let w' := fst (MMM_Birthday.forEach_birthday rt bs today now w) in
  w' = w
  \/ (celebrating w = false /\ wasCelebrating w = false
      /\ celebrating w' = true /\ wasCelebrating w' = false
      /\ celebrations w' = S (celebrations w)).
Proof.
  cbv zeta. induction bs as [|b bs IH]; [left; reflexivity|].
  cbn [MMM_Birthday.forEach_birthday]. cbv zeta.
  destruct (String.eqb (b_date b) today && negb (celebrating w)
            && negb (wasCelebrating w)) eqn:E; [|exact IH].
  right.
  apply andb_true_iff in E. destruct E as [E Ew].
  apply andb_true_iff in E. destruct E as [_ Ec].
  apply negb_true_iff in Ec, Ew.
  destruct (celebrateBirthday_ctl rt (Some (b_name b)) now
              (set_celebrating true w)) as (_ & _ & Hc & Hw & _).
  pose proof (celebrateBirthday_count rt (Some (b_name b)) now
                (set_celebrating true w)) as Hn.
  cbn [celebrating wasCelebrating set_celebrating] in Hc, Hw.
  change (celebrations (set_celebrating true w)) with (celebrations w) in Hn.
  revert Hc Hw Hn.
  generalize (MMM_Birthday.celebrateBirthday rt (Some (b_name b)) now
                (set_celebrating true w)).
  intros wc Hc Hw Hn.
  assert (Hbusy : celebrating (fst wc) || wasCelebrating (fst wc) = true).
  { rewrite Hc. reflexivity. }
  assert (Hres : fst (match snd wc with
                      | MMM_Birthday.Normal =>
                          MMM_Birthday.forEach_birthday rt bs today now (fst wc)
                      | MMM_Birthday.Thrown => wc
                      end) = fst wc).
  { destruct (snd wc); [|reflexivity].
    rewrite forEach_birthday_busy by exact Hbusy. reflexivity. }
  rewrite Hres. rewrite Hc, Hw, Hn.
  repeat split; try assumption; reflexivity.
Qed.

Lemma checkBirthdays_once (rt : JsRuntime) (month day : nat) (now : Q)
    (w : World) :
  let w' := fst (MMM_Birthday.checkBirthdays rt month day now w) in
  w' = w
  \/ (celebrating w = false /\ wasCelebrating w = false
      /\ celebrating w' = true /\ wasCelebrating w' = false
      /\ celebrations w' = S (celebrations w)).
Proof.
  cbv zeta. unfold MMM_Birthday.checkBirthdays.
  destruct (birthdays (config w)); [|left; reflexivity].
  apply forEach_birthday_once.
Qed.

Lemma fireBurst_frame (rt : JsRuntime) (isInfinite : bool) (end_ : Deadline)
    (now : Q) (w : World) :
  unchanged_ctl w (MMM_Birthday.fireBurst rt isInfinite end_ now w)
  /\ no_launch w (MMM_Birthday.fireBurst rt isInfinite end_ now w).
Proof.
  unfold MMM_Birthday.fireBurst.
  destruct (celebrating w && (isInfinite || before now end_));
    [|split; [apply unchanged_ctl_refl | apply no_launch_refl]].
  destruct (fire_only rt w) as ((A & B & _) & _).
  revert A B. unfold rand. generalize (Confetti.fire rt w). intros w1 A B.
  split.
  - eapply unchanged_ctl_trans; [exact A | frame].
  - eapply no_launch_trans; [exact B | frame].
Qed.

(** ** One celebration at a time (C1) *)

Lemma checks_busy (rt : JsRuntime) (cs : list (nat * nat * Q)) (w : World) :
  celebrating w || wasCelebrating w = true ->
  run rt (checks cs) w = w.
Proof.
  intros Hbusy. induction cs as [|c cs IH]; simpl; [reflexivity|].
  destruct (0 <? intervals w)%nat; [|exact IH].
  unfold MMM_Birthday.checkBirthdays.
  destruct (birthdays (config w)); [|exact IH].
  rewrite forEach_birthday_busy by exact Hbusy. exact IH.
Qed.

(** C1: a check starts a celebration only from the idle state.  While
    [celebrating] or [_wasCelebrating] is true, [checkBirthdays] changes
    nothing; a single check starts at most one celebration (also when
    several birthdays match), and only when both flags were false; and
    over any sequence of periodic checks at most one celebration is
    started, none if the module was busy. *)
Theorem C1_trigger_only_when_idle (rt : JsRuntime) (w : World) :
  (forall month day now,
     celebrating w || wasCelebrating w = true ->
     MMM_Birthday.checkBirthdays rt month day now w
     = (w, MMM_Birthday.Normal))
  /\ (forall month day now,
        let w' := fst (MMM_Birthday.checkBirthdays rt month day now w) in
        (celebrations w' <= S (celebrations w))%nat
        /\ (celebrations w' <> celebrations w ->
            celebrating w = false /\ wasCelebrating w = false
            /\ celebrating w' = true
            /\ celebrations w' = S (celebrations w)))
  /\ (forall cs,
        let w' := run rt (checks cs) w in
        (celebrations w' <= S (celebrations w))%nat
        /\ (celebrating w || wasCelebrating w = true -> w' = w)).
Proof.
  split; [|split].
  - intros month day now Hbusy. unfold MMM_Birthday.checkBirthdays.
    destruct (birthdays (config w)); [|reflexivity].
    apply forEach_birthday_busy. exact Hbusy.
  - intros month day now. cbv zeta.
    destruct (checkBirthdays_once rt month day now w)
      as [-> | (Hc & Hw & Hc' & _ & Hn)].
    + split; [lia | congruence].
    + split; [lia | intros _; repeat split; assumption].
  - intros cs. cbv zeta. split; [|apply checks_busy].
    revert w. induction cs as [|c cs IH]; intros w; simpl; [lia|].
    destruct (0 <? intervals w)%nat; [|apply IH].
    destruct (checkBirthdays_once rt (fst (fst c)) (snd (fst c)) (snd c) w)
      as [-> | (_ & _ & Hc' & _ & Hn)]; [apply IH|].
    rewrite checks_busy by (rewrite Hc'; reflexivity). lia.
Qed.

(** Two birthdays on the day of the check: one celebration, for the
    first. *)
Example twins_start_one_celebration :
  filter is_celebrate
    (log (fst (MMM_Birthday.start sample_runtime 11 25 1000
                 (loaded twins_config TrMissing 1920 1080 [] None))))
  = [ActCelebrate (Some "Anna"%string)].
Proof. vm_compute. reflexivity. Qed.

(** ** The session flags (C10) *)

Lemma stopCelebration_flags (w : World) :
  celebrating (MMM_Birthday.stopCelebration w) = false
  /\ wasCelebrating (MMM_Birthday.stopCelebration w) = false.
Proof.
  unfold MMM_Birthday.stopCelebration.
  match goal with |- context [Confetti.cleanup ?w1] =>
    destruct (Confetti_cleanup_only w1) as (((_ & _ & Hc & Hw & _) & _) & _);
    rewrite Hc, Hw; clear Hc Hw
  end.
  match goal with |- context [match fireworks ?w1 with _ => _ end] =>
    destruct (Fireworks_cleanup_ctl w1) as (_ & _ & Hc & Hw & _);
    destruct (fireworks w1); rewrite ?Hc, ?Hw
  end;
  unfold MMM_Birthday.set_display; destruct (wrapper w); split; reflexivity.
Qed.

Lemma suspend_flags (w : World) :
  (celebrating w = false -> MMM_Birthday.suspend w = w)
  /\ (celebrating w = true ->
      celebrating (MMM_Birthday.suspend w) = false
      /\ wasCelebrating (MMM_Birthday.suspend w) = true).
Proof.
  unfold MMM_Birthday.suspend. split; intros H; rewrite H; [reflexivity|].
  split; [unfold MMM_Birthday.set_display;
          destruct (wrapper _); reflexivity|].
  assert (Hd : forall d w0,
             wasCelebrating (MMM_Birthday.set_display d w0) = wasCelebrating w0).
  { intros d w0. unfold MMM_Birthday.set_display.
    destruct (wrapper w0); reflexivity. }
  cbn [wasCelebrating set_celebrating]. rewrite Hd.
  match goal with |- context [Confetti.cleanup ?w1] =>
    destruct (Confetti_cleanup_only w1) as (((_ & _ & _ & Hw & _) & _) & _);
    rewrite Hw; clear Hw
  end.
  match goal with |- context [match fireworks ?w1 with _ => _ end] =>
    destruct (Fireworks_cleanup_ctl w1) as (_ & _ & _ & Hw & _);
    destruct (fireworks w1); rewrite ?Hw
  end; reflexivity.
Qed.

Lemma resume_flags (rt : JsRuntime) (now : Q) (w : World) :
  (wasCelebrating w = false ->
   MMM_Birthday.resume rt now w = (w, MMM_Birthday.Normal))
  /\ (wasCelebrating w = true ->
      celebrating (fst (MMM_Birthday.resume rt now w)) = true
      /\ wasCelebrating (fst (MMM_Birthday.resume rt now w)) = false
      /\ celebrations (fst (MMM_Birthday.resume rt now w))
         = S (celebrations w)).
Proof.
  unfold MMM_Birthday.resume. split; intros H; rewrite H; [reflexivity|].
  match goal with |- context [MMM_Birthday.celebrateBirthday rt None now ?w1] =>
    destruct (celebrateBirthday_ctl rt None now w1) as (_ & _ & Hc & Hw & _);
    pose proof (celebrateBirthday_count rt None now w1) as Hn;
    rewrite Hc, Hw, Hn
  end.
  unfold MMM_Birthday.set_display. destruct (wrapper _); repeat split.
Qed.

Lemma run_callback_flags (rt : JsRuntime) (cb : Callback) (now top : Q)
    (w : World) :
  exclusive w -> exclusive (run_callback rt cb now top w).
Proof.
  unfold exclusive. intros H.
  assert (Hk : forall w', unchanged_ctl w w' ->
                 celebrating w' && wasCelebrating w' = false).
  { intros w' (_ & _ & Hc & Hw & _). rewrite Hc, Hw. exact H. }
  destruct cb; cbn [run_callback].
  - apply Hk, launchNext_ctl.
  - apply Hk, explode_ctl.
  - apply Hk. frame.
  - apply Hk. frame.
  - apply Hk. frame.
  - apply Hk, fireBurst_frame.
  - destruct (stopCelebration_flags w) as [-> _]. reflexivity.
Qed.

Lemma frames_only (rt : JsRuntime) (n start : nat) (w : World) :
  confetti_only w (for_loop n start (fun _ => Confetti.animate rt) w).
Proof.
  apply for_loop_invariant with (P := confetti_only w).
  - intros _ w' H. eapply confetti_only_trans; [exact H|apply animate_only].
  - apply confetti_only_refl.
Qed.

Lemma step_flags (rt : JsRuntime) (ev : Event) (w : World) :
  exclusive w -> exclusive (step rt ev w).
Proof.
  intros H. destruct ev as [k now top | month day now | | | now | wd ht];
    cbn [step].
  - destruct (nth_error (timeouts w) k) as [[due cb]|]; [|exact H].
    destruct (Qle_bool due now); [|exact H].
    apply run_callback_flags. exact H.
  - destruct (0 <? intervals w)%nat; [|exact H].
    destruct (checkBirthdays_once rt month day now w)
      as [-> | (_ & _ & Hc & Hw & _)]; [exact H|].
    unfold exclusive. rewrite Hc, Hw. reflexivity.
  - destruct (frames_only rt (List.length (frames w)) 0 (set_frames [] w))
      as ((_ & _ & Hc & Hw & _) & _).
    unfold exclusive. rewrite Hc, Hw. exact H.
  - destruct (suspend_flags w) as [H0 H1].
    destruct (celebrating w) eqn:E.
    + destruct (H1 eq_refl) as [Hc _]. unfold exclusive. rewrite Hc.
      reflexivity.
    + rewrite H0 by reflexivity. exact H.
  - destruct (resume_flags rt now w) as [H0 H1].
    destruct (wasCelebrating w) eqn:E.
    + destruct (H1 eq_refl) as (Hc & Hw & _). unfold exclusive.
      rewrite Hc, Hw. reflexivity.
    + rewrite H0 by reflexivity. exact H.
  - exact H.
Qed.

(** C10: in every state the module can be in when control is back in the
    event loop, [celebrating] and [_wasCelebrating] are not both true. *)
Theorem C10_flags_exclusive (rt : JsRuntime) (w : World) :
  Reachable rt w -> celebrating w && wasCelebrating w = false.
Proof.
  intros HR. change (exclusive w). induction HR.
  - unfold MMM_Birthday.start, MMM_Birthday.scheduleNextCheck.
    match goal with
    | |- exclusive (fst (MMM_Birthday.checkBirthdays rt month day now ?w0)) =>
        destruct (checkBirthdays_once rt month day now w0)
          as [-> | (_ & _ & Hc & Hw & _)]
    end.
    + reflexivity.
    + unfold exclusive. rewrite Hc, Hw. reflexivity.
  - apply step_flags. exact IHHR.
  - destruct (checkBirthdays_once rt month day now w)
      as [-> | (_ & _ & Hc & Hw & _)]; [exact IHHR|].
    unfold exclusive. rewrite Hc, Hw. reflexivity.
  - apply (step_flags rt EvSuspend). exact IHHR.
  - apply (step_flags rt (EvResume now)). exact IHHR.
  - destruct (stopCelebration_flags w) as [Hc _]. unfold exclusive.
    rewrite Hc. reflexivity.
Qed.

(** Anna's celebration, suspended. *)
Lemma C10_flags_exclusive_witness :
  celebrating (MMM_Birthday.suspend anna_started)
  && wasCelebrating (MMM_Birthday.suspend anna_started) = false.
Proof.
  apply (C10_flags_exclusive sample_runtime).
  apply R_suspend. apply R_start.
Defined.

(** ** The launch chain after the end time (C2) *)

Lemma remove_nth_cons {A : Type} (k : nat) (a : A) (l : list A) :
  remove_nth (S k) (a :: l) = a :: remove_nth k l.
Proof. reflexivity. Qed.

Lemma filter_remove_nth_le {A : Type} (f : A -> bool) (l : list A) :
  forall k,
  (List.length (filter f (remove_nth k l)) <= List.length (filter f l))%nat.
Proof.
  induction l as [|a l IH]; intros k.
  - destruct k; simpl; lia.
  - destruct k as [|k].
    + unfold remove_nth. simpl. destruct (f a); simpl; lia.
    + rewrite remove_nth_cons. simpl. specialize (IH k).
      destruct (f a); simpl; lia.
Qed.

Lemma filter_remove_nth_hit {A : Type} (f : A -> bool) (l : list A) :
  forall k a,
  nth_error l k = Some a -> f a = true ->
  S (List.length (filter f (remove_nth k l))) = List.length (filter f l).
Proof.
  induction l as [|b l IH]; intros k a Hk Hf.
  - destruct k; discriminate.
  - destruct k as [|k].
    + simpl in Hk. injection Hk as ->.
      unfold remove_nth. simpl. rewrite Hf. reflexivity.
    + rewrite remove_nth_cons. simpl in *. specialize (IH k a Hk Hf).
      destruct (f b); simpl; lia.
Qed.

Lemma no_launch_teardown (w w' : World) : no_launch w w' -> teardown w w'.
Proof. intros (A & B & C & D). repeat split; auto. Qed.

Lemma teardown_expired (T : Q) (w w' : World) :
  0 <= T -> teardown w w' -> expired T w -> expired T w'.
Proof.
  intros HT (_ & _ & _ & [Hf | (this & Hf & Hf')]) (this0 & e & H0 & He & Hle).
  - exists this0, e. rewrite Hf. auto.
  - eexists _, 0. rewrite Hf'. repeat split. exact HT.
Qed.

Lemma teardown_trans (w1 w2 w3 : World) :
  teardown w1 w2 -> teardown w2 w3 -> teardown w1 w3.
Proof.
  intros (A1 & A2 & A3 & A4) (B1 & B2 & B3 & B4).
  repeat split; try congruence.
  destruct A4 as [A4 | (t & A4 & A4')], B4 as [B4 | (t' & B4 & B4')].
  - left. congruence.
  - right. exists t'. split; congruence.
  - right. exists t. split; congruence.
  - right. exists t. split; [exact A4|].
    rewrite B4'. rewrite A4' in B4. injection B4 as <-. reflexivity.
Qed.

Lemma Fireworks_cleanup_teardown (w : World) :
  teardown w (match fireworks w with
              | Some _ => Fireworks.cleanup w
              | None => w
              end).
Proof.
  destruct (fireworks w) as [this|] eqn:E.
  - destruct (Fireworks_cleanup_effect w) as (A & B & _ & C & _).
    repeat split; try assumption.
    right. exists this. split; [exact E|].
    unfold Fireworks.cleanup. rewrite E. reflexivity.
  - repeat split. left. reflexivity.
Qed.

Lemma set_display_quiet (d : string) (w : World) :
  no_launch w (MMM_Birthday.set_display d w)
  /\ unchanged_ctl w (MMM_Birthday.set_display d w).
Proof.
  unfold MMM_Birthday.set_display. destruct (wrapper w); split; frame.
Qed.

Lemma stopCelebration_teardown (w : World) :
  teardown w (MMM_Birthday.stopCelebration w).
Proof.
  unfold MMM_Birthday.stopCelebration.
  match goal with |- teardown w (Confetti.cleanup ?w2) =>
    apply teardown_trans with w2;
      [|apply no_launch_teardown, Confetti_cleanup_only] end.
  match goal with |- teardown w (match fireworks ?w1 with _ => _ end) =>
    apply teardown_trans with w1; [|apply Fireworks_cleanup_teardown] end.
  apply no_launch_teardown.
  eapply no_launch_trans; [apply (set_display_quiet "none" w)|]. frame.
Qed.

Lemma suspend_teardown (w : World) :
  teardown w (MMM_Birthday.suspend w).
Proof.
  unfold MMM_Birthday.suspend.
  destruct (celebrating w); [|apply no_launch_teardown, no_launch_refl].
  match goal with
  | |- teardown w (set_celebrating false (MMM_Birthday.set_display ?d ?w3)) =>
      apply teardown_trans with w3;
        [|apply no_launch_teardown;
          eapply no_launch_trans; [apply (set_display_quiet d w3)|frame]]
  end.
  match goal with |- teardown w (Confetti.cleanup ?w2) =>
    apply teardown_trans with w2;
      [|apply no_launch_teardown, Confetti_cleanup_only] end.
  match goal with |- teardown w (match fireworks ?w1 with _ => _ end) =>
    apply teardown_trans with w1; [|apply Fireworks_cleanup_teardown] end.
  apply no_launch_teardown. frame.
Qed.

(** A callback that runs at or after the end time. *)
Lemma run_callback_expired (rt : JsRuntime) (T : Q) (cb : Callback)
    (now top : Q) (w : World) :
  0 <= T -> T <= now -> expired T w ->
  teardown w (run_callback rt cb now top w).
Proof.
  intros HT Hnow (this & e & Hf & He & Hle).
  destruct cb; cbn [run_callback].
  - rewrite (launchNext_expired rt now e w this Hf He) by lra.
    apply no_launch_teardown, no_launch_refl.
  - apply no_launch_teardown, explode_quiet.
  - apply no_launch_teardown. frame.
  - apply no_launch_teardown. frame.
  - apply no_launch_teardown. frame.
  - apply no_launch_teardown, fireBurst_frame.
  - apply stopCelebration_teardown.
Qed.

(** A turn of the event loop at or after the end time either restarts
    the celebration or is a teardown in which the pending [launchNext]
    callbacks can only become fewer. *)
Lemma step_expired (rt : JsRuntime) (T : Q) (ev : Event) (w : World) :
  0 <= T -> not_before T ev -> expired T w ->
  celebrations (step rt ev w) = S (celebrations w)
  \/ (celebrations (step rt ev w) = celebrations w
      /\ launches (step rt ev w) = launches w
      /\ (pending_launches (step rt ev w) <= pending_launches w)%nat
      /\ expired T (step rt ev w)).
Proof.
  intros HT Hev Hex.
  assert (Hid : celebrations w = celebrations w
                /\ launches w = launches w
                /\ (pending_launches w <= pending_launches w)%nat
                /\ expired T w) by (repeat split; auto).
  assert (Htd : forall w', teardown w w' ->
                  celebrations w' = celebrations w
                  /\ launches w' = launches w
                  /\ (pending_launches w' <= pending_launches w)%nat
                  /\ expired T w').
  { intros w' Ht. pose proof (teardown_expired T w w' HT Ht Hex).
    destruct Ht as (A & B & C & _). repeat split; auto. lia. }
  destruct ev as [k now top | month day now | | | now | wd ht];
    unfold not_before in Hev; cbn [event_time] in Hev; cbn [step].
  - destruct (nth_error (timeouts w) k) as [[due cb]|]; [|right; exact Hid].
    destruct (Qle_bool due now); [|right; exact Hid].
    set (w0 := set_timeouts (remove_nth k (timeouts w)) w).
    assert (Hex0 : expired T w0) by exact Hex.
    pose proof (run_callback_expired rt T cb now top w0 HT Hev Hex0) as Ht.
    pose proof (teardown_expired T _ _ HT Ht Hex0) as Hex'.
    destruct Ht as (A & B & C & _).
    right. rewrite A, B, C. repeat split; auto.
    unfold pending_launches, w0. cbn [timeouts set_timeouts].
    apply filter_remove_nth_le.
  - destruct (0 <? intervals w)%nat; [|right; exact Hid].
    destruct (checkBirthdays_once rt month day now w)
      as [-> | (_ & _ & _ & _ & Hn)]; [right; exact Hid | left; exact Hn].
  - right.
    pose proof (frames_only rt (List.length (frames w)) 0 (set_frames [] w))
      as (_ & Hq & _).
    apply Htd. apply no_launch_teardown.
    eapply no_launch_trans; [|exact Hq]. frame.
  - right. apply Htd, suspend_teardown.
  - destruct (resume_flags rt now w) as [H0 H1].
    destruct (wasCelebrating w).
    + left. apply H1. reflexivity.
    + right. rewrite H0 by reflexivity. exact Hid.
  - right. apply Htd. apply no_launch_teardown. frame.
Qed.

(** The count of celebrations never goes down. *)
Lemma step_celebrations_mono (rt : JsRuntime) (ev : Event) (w : World) :
  (celebrations w <= celebrations (step rt ev w))%nat.
Proof.
  destruct ev as [k now top | month day now | | | now | wd ht]; cbn [step].
  - destruct (nth_error (timeouts w) k) as [[due cb]|]; [|lia].
    destruct (Qle_bool due now); [|lia].
    set (w0 := set_timeouts (remove_nth k (timeouts w)) w).
    change (celebrations w) with (celebrations w0).
    destruct cb; cbn [run_callback].
    + destruct (launchNext_effect rt now w0) as (_ & -> & _). lia.
    + destruct (explode_quiet rt rocket x color top now w0)
        as (_ & _ & -> & _). lia.
    + apply Nat.eq_le_incl. reflexivity.
    + apply Nat.eq_le_incl. reflexivity.
    + apply Nat.eq_le_incl. reflexivity.
    + destruct (fireBurst_frame rt isInfinite end_ now w0)
        as (_ & _ & _ & -> & _). lia.
    + destruct (stopCelebration_teardown w0) as (_ & -> & _). lia.
  - destruct (0 <? intervals w)%nat; [|lia].
    destruct (checkBirthdays_once rt month day now w)
      as [-> | (_ & _ & _ & _ & ->)]; lia.
  - destruct (frames_only rt (List.length (frames w)) 0 (set_frames [] w))
      as (_ & (_ & _ & -> & _) & _).
    apply Nat.eq_le_incl. reflexivity.
  - destruct (suspend_teardown w) as (_ & -> & _). lia.
  - destruct (resume_flags rt now w) as [H0 H1].
    destruct (wasCelebrating w).
    + destruct (H1 eq_refl) as (_ & _ & ->). lia.
    + rewrite H0 by reflexivity. simpl. lia.
  - apply Nat.eq_le_incl. reflexivity.
Qed.

Lemma run_celebrations_mono (rt : JsRuntime) (evs : list Event) (w : World) :
  (celebrations w <= celebrations (run rt evs w))%nat.
Proof.
  revert w. induction evs as [|ev evs IH]; intros w; simpl; [lia|].
  eapply Nat.le_trans; [apply step_celebrations_mono | apply IH].
Qed.

Lemma run_expired (rt : JsRuntime) (T : Q) (evs : list Event) (w : World) :
  0 <= T -> Forall (not_before T) evs -> expired T w ->
  celebrations (run rt evs w) = celebrations w ->
  launches (run rt evs w) = launches w
  /\ (pending_launches (run rt evs w) <= pending_launches w)%nat
  /\ expired T (run rt evs w).
Proof.
  intros HT. revert w.
  induction evs as [|ev evs IH]; intros w Hall Hex Hc; simpl in *.
  - repeat split; auto.
  - inversion Hall as [|? ? Hev Hall']; subst.
    pose proof (run_celebrations_mono rt evs (step rt ev w)) as Hm.
    destruct (step_expired rt T ev w HT Hev Hex)
      as [Hs | (Hs & Hl & Hp & Hex')]; [lia|].
    destruct (IH (step rt ev w) Hall' Hex') as (A & B & C); [congruence|].
    repeat split; [congruence | lia | exact C].
Qed.

(** Whenever it runs, a turn that starts no celebration keeps the end
    time at or before [T]. *)
Lemma step_keeps_end (rt : JsRuntime) (T : Q) (ev : Event) (w : World) :
  0 <= T -> expired T w ->
  celebrations (step rt ev w) = celebrations w ->
  expired T (step rt ev w).
Proof.
  intros HT Hex Hc.
  destruct ev as [k now top | month day now | | | now | wd ht]; cbn [step] in *.
  - destruct (nth_error (timeouts w) k) as [[due cb]|]; [|exact Hex].
    destruct (Qle_bool due now); [|exact Hex].
    assert (Hex0 : expired T (set_timeouts (remove_nth k (timeouts w)) w))
      by exact Hex.
    revert Hex0. generalize (set_timeouts (remove_nth k (timeouts w)) w).
    intros w0 Hex0.
    destruct cb; cbn [run_callback].
    + destruct (launchNext_effect rt now w0) as (Hf & _).
      destruct Hex0 as (this & e & H0 & He & Hle).
      exists this, e. rewrite Hf. auto.
    + apply (teardown_expired T w0); auto.
      apply no_launch_teardown, explode_quiet.
    + apply (teardown_expired T w0); auto. apply no_launch_teardown. frame.
    + apply (teardown_expired T w0); auto. apply no_launch_teardown. frame.
    + apply (teardown_expired T w0); auto. apply no_launch_teardown. frame.
    + apply (teardown_expired T w0); auto.
      apply no_launch_teardown, fireBurst_frame.
    + apply (teardown_expired T w0); auto. apply stopCelebration_teardown.
  - destruct (0 <? intervals w)%nat; [|exact Hex].
    destruct (checkBirthdays_once rt month day now w)
      as [E | (_ & _ & _ & _ & Hn)]; [rewrite E; exact Hex | lia].
  - apply (teardown_expired T w); auto. apply no_launch_teardown.
    pose proof (frames_only rt (List.length (frames w)) 0 (set_frames [] w))
      as (_ & Hq & _).
    eapply no_launch_trans; [|exact Hq]. frame.
  - apply (teardown_expired T w); auto. apply suspend_teardown.
  - destruct (resume_flags rt now w) as [H0 H1].
    destruct (wasCelebrating w).
    + destruct (H1 eq_refl) as (_ & _ & Hn). lia.
    + rewrite H0 by reflexivity. exact Hex.
  - apply (teardown_expired T w); auto. apply no_launch_teardown. frame.
Qed.

Lemma run_keeps_end (rt : JsRuntime) (T : Q) (evs : list Event) (w : World) :
  0 <= T -> expired T w ->
  celebrations (run rt evs w) = celebrations w ->
  expired T (run rt evs w).
Proof.
  intros HT. revert w.
  induction evs as [|ev evs IH]; intros w Hex Hc; cbn [run] in *.
  - exact Hex.
  - pose proof (step_celebrations_mono rt ev w) as H1.
    pose proof (run_celebrations_mono rt evs (step rt ev w)) as H2.
    apply IH; [|lia].
    apply step_keeps_end; [exact HT | exact Hex | lia].
Qed.

Lemma run_app (rt : JsRuntime) (evs1 evs2 : list Event) (w : World) :
  run rt (evs1 ++ evs2) w = run rt evs2 (run rt evs1 w).
Proof.
  revert w. induction evs1 as [|ev evs1 IH]; intros w; [reflexivity|].
  apply IH.
Qed.

Lemma not_before_max (T : Q) (evs : list Event) :
  Forall (not_before T) evs -> Forall (not_before 0) evs ->
  Forall (not_before (Qmax 0 T)) evs.
Proof.
  intros H1 H2. induction evs as [|ev evs IH]; constructor.
  - inversion H1; inversion H2; subst. unfold not_before in *.
    destruct (event_time ev); [|exact I].
    apply Q.max_lub; assumption.
  - inversion H1; inversion H2; subst. apply IH; assumption.
Qed.

(** C2: [start(d)] with a finite [d] at time [t0] sets the end time to
    [t0 + d].  A [launchNext] that runs at or after the end time launches
    nothing and schedules nothing: the pending callback is consumed and
    the chain has one link less.  As long as no celebration is started
    again (which would call [start] and assign a new end time), whatever
    turns of the event loop came before, the turns that happen at or after
    [t0 + d] launch no rocket and never add a pending [launchNext]. *)
Theorem C2_no_launch_after_end (rt : JsRuntime) (d t0 : Q) (w : World)
    (this : FireworksObj) :
  fireworks w = Some this ->
  let w1 := Fireworks.start rt (Millis d) t0 w in
  let T := t0 + d in
  fireworks w1 = Some {| colors := colors this; endTime := At T |}
  /\ (forall now, T <= now -> Fireworks.launchNext rt now w1 = w1)
  /\ (forall w' this' e now,
        fireworks w' = Some this' -> endTime this' = At e -> e <= now ->
        Fireworks.launchNext rt now w' = w'
        /\ forall k due rect_top,
             nth_error (timeouts w') k = Some (due, CbLaunchNext) ->
             due <= now ->
             step rt (EvTimeout k now rect_top) w'
             = set_timeouts (remove_nth k (timeouts w')) w'
             /\ S (pending_launches (step rt (EvTimeout k now rect_top) w'))
                = pending_launches w')
  /\ (forall earlier evs,
        Forall (not_before T) evs -> Forall (not_before 0) evs ->
        celebrations (run rt (earlier ++ evs) w1) = celebrations w1 ->
        launches (run rt (earlier ++ evs) w1) = launches (run rt earlier w1)
        /\ (pending_launches (run rt (earlier ++ evs) w1)
            <= pending_launches (run rt earlier w1))%nat).
Proof.
  intros Hf. cbv zeta.
  assert (H1 : fireworks (Fireworks.start rt (Millis d) t0 w)
               = Some {| colors := colors this; endTime := At (t0 + d) |}).
  { unfold Fireworks.start. rewrite Hf.
    match goal with |- context [Fireworks.launchNext rt t0 ?w0] =>
      destruct (launchNext_effect rt t0 w0) as (-> & _) end.
    reflexivity. }
  assert (H3 : forall w' this' e now,
             fireworks w' = Some this' -> endTime this' = At e -> e <= now ->
             Fireworks.launchNext rt now w' = w').
  { intros w' this' e now Hf' He Hle.
    apply (launchNext_expired rt now e w' this' Hf' He Hle). }
  split; [exact H1|].
  split.
  { intros now Hnow. apply (H3 _ _ (t0 + d) now H1 eq_refl Hnow). }
  split.
  { intros w' this' e now Hf' He Hle.
    split; [apply (H3 _ _ _ _ Hf' He Hle)|].
    intros k due rect_top Hk Hdue.
    assert (Hs : step rt (EvTimeout k now rect_top) w'
                 = set_timeouts (remove_nth k (timeouts w')) w').
    { unfold step. rewrite Hk. apply Qle_bool_iff in Hdue. rewrite Hdue.
      unfold run_callback.
      apply (H3 _ this' e now); [exact Hf' | exact He | exact Hle]. }
    split; [exact Hs|].
    rewrite Hs. unfold pending_launches. cbn [timeouts set_timeouts].
    apply (filter_remove_nth_hit is_launchNext (timeouts w') k _ Hk).
    reflexivity. }
  intros earlier evs HT H0 Hc. rewrite run_app in *.
  pose proof (run_celebrations_mono rt earlier
                (Fireworks.start rt (Millis d) t0 w)) as M1.
  pose proof (run_celebrations_mono rt evs
                (run rt earlier (Fireworks.start rt (Millis d) t0 w))) as M2.
  assert (Hex : expired (Qmax 0 (t0 + d))
                  (run rt earlier (Fireworks.start rt (Millis d) t0 w))).
  { apply run_keeps_end; [apply Q.le_max_l | | lia].
    eexists _, (t0 + d). split; [exact H1|]. split; [reflexivity|].
    apply Q.le_max_r. }
  destruct (run_expired rt (Qmax 0 (t0 + d)) evs
              (run rt earlier (Fireworks.start rt (Millis d) t0 w)))
    as (A & B & _).
  - apply Q.le_max_l.
  - apply not_before_max; assumption.
  - exact Hex.
  - lia.
  - split; assumption.
Qed.

(** Five seconds of fireworks started at time 1000: two turns before
    the end time 6000, then five turns after it. *)
Lemma C2_no_launch_after_end_witness :
  launches
    (run sample_runtime
       ([EvTimeout 2 1900 0; EvTimeout 0 2000 300]
        ++ [EvTimeout 3 6100 0; EvTimeout 0 6200 300; EvFrame; EvSuspend;
            EvInterval 11 25 61000])
       (Fireworks.start sample_runtime (Millis 5000) 1000 wide_page))
  = launches
      (run sample_runtime [EvTimeout 2 1900 0; EvTimeout 0 2000 300]
         (Fireworks.start sample_runtime (Millis 5000) 1000 wide_page)).
Proof.
  destruct (C2_no_launch_after_end sample_runtime 5000 1000 wide_page
              {| colors := Fireworks.palette; endTime := Infinity |} eq_refl)
    as (_ & _ & _ & H).
  apply H.
  - repeat constructor; unfold not_before; simpl; lra.
  - repeat constructor; unfold not_before; simpl; lra.
  - vm_compute. reflexivity.
Defined.

(** Before the end time the chain does launch: the pending [launchNext]
    of the same start, run at time 1900, launches a second rocket. *)
Example launch_before_end :
  launches
    (run sample_runtime [EvTimeout 2 1900 0]
       (Fireworks.start sample_runtime (Millis 5000) 1000 wide_page))
  = 2%nat.
Proof. vm_compute. reflexivity. Qed.

(** ** The confetti loop (C8) *)

Lemma Qnat_S (n : nat) : Qnat (S n) == Qnat n + 1.
Proof.
  unfold Qnat. rewrite Nat2Z.inj_succ, <- Z.add_1_r, inject_Z_plus.
  reflexivity.
Qed.

Lemma update_constructed (rt : JsRuntime) (height : Q) (p : Particle) :
  constructed p -> constructed (fst (Particle.update rt height p)).
Proof. intros H. exact H. Qed.

(** The potential [0.045 * y + vy] grows by 0.23875 with every update. *)
Lemma update_potential (rt : JsRuntime) (height : Q) (p : Particle) :
  constructed p ->
  0.045 * p_y (fst (Particle.update rt height p))
  + p_vy (fst (Particle.update rt height p))
  == 0.045 * p_y p + p_vy p + 0.23875.
Proof.
  intros [Hg Hd]. cbn. rewrite Hg, Hd. lra.
Qed.

Lemma update_vy_bound (rt : JsRuntime) (height M : Q) (p : Particle) :
  constructed p -> p_vy p <= M -> 6 <= M ->
  p_vy (fst (Particle.update rt height p)) <= M.
Proof.
  intros [Hg Hd] Hv HM. cbn. rewrite Hg, Hd. lra.
Qed.

Lemma update_alive_above (rt : JsRuntime) (height : Q) (p : Particle) :
  snd (Particle.update rt height p) = true ->
  p_y (fst (Particle.update rt height p)) < height.
Proof.
  cbn. intros H. apply andb_true_iff in H. apply Qltb_lt. apply H.
Qed.

Lemma survives_bounded (rt : JsRuntime) (height M : Q) (n : nat) :
  forall p,
  constructed p -> p_vy p <= M -> 6 <= M ->
  0.045 * height + M <= 0.045 * p_y p + p_vy p + 0.23875 * Qnat n ->
  (1 <= n)%nat ->
  survives rt height n p = false.
Proof.
  induction n as [|n IH]; intros p Hc Hv HM Hn H1; [lia|].
  cbn [survives]. destruct (snd (Particle.update rt height p)) eqn:Ha;
    [|reflexivity].
  cbn [andb].
  pose proof (update_potential rt height p Hc) as Hp.
  pose proof (update_vy_bound rt height M p Hc Hv HM) as Hv'.
  pose proof (update_alive_above rt height p Ha) as Hy.
  pose proof (Qnat_S n) as HS.
  destruct n as [|n].
  - exfalso. change (Qnat 0) with 0 in HS. lra.
  - apply IH; [apply update_constructed; exact Hc | exact Hv' | exact HM
              | lra | lia].
Qed.

Lemma lifetime_bound_reached (height : Q) (p : Particle) (n : nat) :
  (lifetime_bound height p <= n)%nat ->
  0.045 * height + Qmax (p_vy p) 6
  <= 0.045 * p_y p + p_vy p + 0.23875 * Qnat n.
Proof.
  unfold lifetime_bound. intros H.
  set (q := (0.045 * height + Qmax (p_vy p) 6 - (0.045 * p_y p + p_vy p))
            / 0.23875) in *.
  assert (Hq : q <= Qnat n).
  { eapply Qle_trans; [apply Qle_ceiling|].
    unfold Qnat. rewrite <- Zle_Qle. lia. }
  assert (Hd : q * 0.23875
               == 0.045 * height + Qmax (p_vy p) 6
                  - (0.045 * p_y p + p_vy p)).
  { unfold q. field. }
  lra.
Qed.

(** No constructed particle survives [lifetime_bound] updates. *)
Lemma survives_lifetime_bound (rt : JsRuntime) (height : Q) (p : Particle) :
  constructed p ->
  survives rt height (lifetime_bound height p) p = false.
Proof.
  intros Hc.
  apply survives_bounded with (M := Qmax (p_vy p) 6); auto.
  - apply Q.le_max_l.
  - apply Q.le_max_r.
  - apply lifetime_bound_reached. lia.
  - unfold lifetime_bound. lia.
Qed.

(** [death_tick] finds the first update that returns [false], when there
    is one within the fuel. *)
Lemma death_tick_spec (rt : JsRuntime) (height : Q) (fuel : nat) :
  forall p,
  survives rt height fuel p = false ->
  (1 <= death_tick rt height fuel p <= fuel)%nat
  /\ forall n, survives rt height n p = true
               <-> (n < death_tick rt height fuel p)%nat.
Proof.
  induction fuel as [|fuel IH]; intros p Hdead; [discriminate|].
  cbn [survives death_tick] in *.
  destruct (snd (Particle.update rt height p)) eqn:Ha.
  - cbn [andb] in Hdead. destruct (IH _ Hdead) as [Hr Hn].
    split; [lia|]. intros [|n]; cbn [survives].
    + split; [lia | reflexivity].
    + rewrite Ha. cbn [andb]. rewrite Hn. lia.
  - split; [lia|]. intros [|n]; cbn [survives].
    + split; [lia | reflexivity].
    + rewrite Ha. cbn [andb]. split; [discriminate | lia].
Qed.

(** The lifetime of a constructed particle is exact and bounded. *)
Lemma lifetime_spec (rt : JsRuntime) (height : Q) (p : Particle) :
  constructed p ->
  (1 <= lifetime rt height p <= lifetime_bound height p)%nat
  /\ forall n, survives rt height n p = true
               <-> (n < lifetime rt height p)%nat.
Proof.
  intros Hc. apply death_tick_spec, survives_lifetime_bound, Hc.
Qed.

Lemma max_lifetime_ge (rt : JsRuntime) (height : Q) (ps : list Particle) :
  (1 <= max_lifetime rt height ps)%nat
  /\ forall p, In p ps ->
       (lifetime rt height p <= max_lifetime rt height ps)%nat.
Proof.
  induction ps as [|a ps [IH1 IH2]]; simpl.
  - split; [lia | intros p []].
  - split; [lia|]. intros p [<- | Hin]; [lia|].
    specialize (IH2 p Hin). lia.
Qed.

Lemma animate_spec (rt : JsRuntime) (w : World) :
  isAnimating w = true ->
  let ps := Confetti.live rt (c_height w) (particles w) in
  particles (Confetti.animate rt w) = ps
  /\ canvas (Confetti.animate rt w) = ps
  /\ c_height (Confetti.animate rt w) = c_height w
  /\ (ps = [] ->
      isAnimating (Confetti.animate rt w) = false
      /\ frames (Confetti.animate rt w) = frames w)
  /\ (ps <> [] ->
      isAnimating (Confetti.animate rt w) = true
      /\ frames (Confetti.animate rt w) = frames w ++ [nextFrame w]
      /\ animationFrame (Confetti.animate rt w) = Some (nextFrame w)).
Proof.
  intros Ha. cbv zeta. unfold Confetti.animate. rewrite Ha. cbn [negb].
  destruct (Confetti.live rt (c_height w) (particles w)) as [|p ps] eqn:E;
    cbn.
  - repeat split; intros; congruence.
  - repeat split; intros; try congruence.
Qed.

Lemma live_survivors (rt : JsRuntime) (height : Q) (ps : list Particle)
    (p' : Particle) :
  In p' (Confetti.live rt height ps) ->
  exists p, In p ps
            /\ p' = fst (Particle.update rt height p)
            /\ snd (Particle.update rt height p) = true.
Proof.
  unfold Confetti.live. intros H.
  apply in_map_iff in H. destruct H as ([q a] & <- & H).
  apply filter_In in H. destruct H as [H Ha].
  apply in_map_iff in H. destruct H as (p & Hp & Hin).
  exists p. rewrite Hp. simpl in *. auto.
Qed.

Lemma frame_turn (rt : JsRuntime) (w : World) :
  isAnimating w = true -> List.length (frames w) = 1%nat ->
  particles (step rt EvFrame w)
  = Confetti.live rt (c_height w) (particles w)
  /\ c_height (step rt EvFrame w) = c_height w
  /\ (halted (step rt EvFrame w)
      \/ (isAnimating (step rt EvFrame w) = true
          /\ List.length (frames (step rt EvFrame w)) = 1%nat)).
Proof.
  intros Ha Hf. simpl step. rewrite Hf. simpl for_loop.
  destruct (animate_spec rt (set_frames [] w) Ha) as (Hp & _ & Hh & H0 & H1).
  cbv zeta in *. cbn [particles c_height frames nextFrame set_frames] in *.
  split; [exact Hp|]. split; [exact Hh|].
  destruct (Confetti.live rt (c_height w) (particles w)) as [|p ps].
  - left. destruct (H0 eq_refl) as [E1 E2]. repeat split; assumption.
  - right. destruct H1 as (E1 & E2 & _); [discriminate|].
    split; [exact E1|]. rewrite E2. reflexivity.
Qed.

Lemma halted_stays (rt : JsRuntime) (n : nat) (w : World) :
  halted w -> run rt (repeat EvFrame n) w = w.
Proof.
  intros (_ & _ & Hf). induction n as [|n IH]; simpl; [reflexivity|].
  rewrite Hf. simpl.
  replace (set_frames [] w) with w; [exact IH|].
  destruct w; simpl in *; subst; reflexivity.
Qed.

(** After [n] frames without a new burst, the particles that do not
    survive [n] updates are gone; if none survives, the loop has stopped. *)
Lemma frames_drain (rt : JsRuntime) (n : nat) :
  forall w,
  (1 <= n)%nat ->
  isAnimating w = true -> List.length (frames w) = 1%nat ->
  (forall p, In p (particles w) -> survives rt (c_height w) n p = false) ->
  halted (run rt (repeat EvFrame n) w).
Proof.
  induction n as [|n IH]; intros w H1 Ha Hf Hdead; [lia|].
  change (repeat EvFrame (S n)) with (EvFrame :: repeat EvFrame n).
  cbn [run].
  destruct (frame_turn rt w Ha Hf) as (Hp & Hh & Hcase).
  destruct Hcase as [Hhalt | [Ha' Hf']].
  - rewrite (halted_stays rt n _ Hhalt). exact Hhalt.
  - destruct n as [|n].
    + exfalso.
      assert (Hnil : particles (step rt EvFrame w) = []).
      { rewrite Hp. unfold Confetti.live.
        destruct (filter snd
                    (map (Particle.update rt (c_height w)) (particles w)))
          as [|[q a] l] eqn:E; [reflexivity|].
        exfalso.
        assert (Hin : In (q, a)
                        (filter snd
                           (map (Particle.update rt (c_height w))
                              (particles w))))
          by (rewrite E; left; reflexivity).
        apply filter_In in Hin. destruct Hin as [Hin Hsnd].
        apply in_map_iff in Hin. destruct Hin as (p & Hu & Hin).
        specialize (Hdead p Hin). cbn [survives] in Hdead.
        rewrite Hu in Hdead. cbn [snd] in Hsnd, Hdead.
        rewrite Hsnd in Hdead. discriminate. }
      destruct (animate_spec rt (set_frames [] w) Ha) as (_ & _ & _ & H0 & _).
      cbv zeta in H0. cbn [particles c_height set_frames] in H0.
      rewrite <- Hp in H0. destruct (H0 Hnil) as [E _].
      assert (Hs : step rt EvFrame w
                   = Confetti.animate rt (set_frames [] w)).
      { simpl step. rewrite Hf. reflexivity. }
      rewrite Hs in Ha'. congruence.
    + apply IH; [lia | exact Ha' | exact Hf' |].
      intros p' Hin. rewrite Hp in Hin. rewrite Hh.
      destruct (live_survivors rt _ _ _ Hin) as (p & Hp0 & -> & Halive).
      specialize (Hdead p Hp0).
      change (survives rt (c_height w) (S (S n)) p)
        with (snd (Particle.update rt (c_height w) p)
              && survives rt (c_height w) (S n)
                   (fst (Particle.update rt (c_height w) p))) in Hdead.
      rewrite Halive in Hdead. exact Hdead.
Qed.

(** C8: a pass of the loop updates every live particle, keeps those that
    report alive (and only those are drawn), and when none is left clears
    [isAnimating] and requests no frame; otherwise it requests exactly one.
    Every particle has a lifetime: the number of the first update it does
    not survive, which exists and is at most [lifetime_bound].  Hence,
    with no new burst, once as many frames have passed as the longest
    lifetime in the live set, the live set is empty and the loop has
    stopped: no frame is pending. *)
Theorem C8_confetti_loop (rt : JsRuntime) (w : World) :
  (isAnimating w = false -> Confetti.animate rt w = w)
  /\ (isAnimating w = true ->
      let ps := map fst (filter snd
                           (map (Particle.update rt (c_height w))
                              (particles w))) in
      particles (Confetti.animate rt w) = ps
      /\ canvas (Confetti.animate rt w) = ps
      /\ (ps = [] ->
          isAnimating (Confetti.animate rt w) = false
          /\ frames (Confetti.animate rt w) = frames w)
      /\ (ps <> [] ->
          isAnimating (Confetti.animate rt w) = true
          /\ frames (Confetti.animate rt w) = frames w ++ [nextFrame w]))
  /\ (forall p, constructed p ->
        (1 <= lifetime rt (c_height w) p <= lifetime_bound (c_height w) p)%nat
        /\ forall n, survives rt (c_height w) n p = true
                     <-> (n < lifetime rt (c_height w) p)%nat)
  /\ (isAnimating w = true -> List.length (frames w) = 1%nat ->
      (forall p, In p (particles w) -> constructed p) ->
      forall n, (max_lifetime rt (c_height w) (particles w) <= n)%nat ->
      particles (run rt (repeat EvFrame n) w) = []
      /\ isAnimating (run rt (repeat EvFrame n) w) = false
      /\ frames (run rt (repeat EvFrame n) w) = []).
Proof.
  split; [|split; [|split]].
  - intros Ha. unfold Confetti.animate. rewrite Ha. reflexivity.
  - intros Ha. cbv zeta.
    destruct (animate_spec rt w Ha) as (A & B & _ & C & D).
    cbv zeta in *. unfold Confetti.live in *.
    split; [exact A|]. split; [exact B|]. split; [exact C|].
    intros Hne. destruct (D Hne) as (D1 & D2 & _). split; assumption.
  - intros p Hc. apply lifetime_spec. exact Hc.
  - intros Ha Hf Hc n Hn.
    destruct (max_lifetime_ge rt (c_height w) (particles w)) as [H1 Hall].
    apply (frames_drain rt n w); [lia | exact Ha | exact Hf |].
    intros p Hin.
    destruct (lifetime_spec rt (c_height w) p (Hc p Hin)) as [_ Hl].
    specialize (Hall p Hin).
    destruct (survives rt (c_height w) n p) eqn:E; [|reflexivity].
    apply Hl in E. lia.
Qed.

(** Two particles with lifetimes 1 and 3: ten frames are enough. *)
Lemma C8_confetti_loop_witness :
  particles (run sample_runtime (repeat EvFrame 10) two_particle_page) = []
  /\ isAnimating (run sample_runtime (repeat EvFrame 10) two_particle_page)
     = false
  /\ frames (run sample_runtime (repeat EvFrame 10) two_particle_page) = [].
Proof.
  destruct (C8_confetti_loop sample_runtime two_particle_page)
    as (_ & _ & _ & H).
  apply H.
  - reflexivity.
  - reflexivity.
  - intros p [<- | [<- | []]]; split; reflexivity.
  - apply Nat.leb_le. vm_compute. reflexivity.
Defined.

(** ** Resume (C3) *)

(** C3 does not hold of the code: [resume] calls [celebrateBirthday()]
    with no argument, so the celebration it restarts is for [undefined],
    not for the name that started the original one.  Anna's celebration,
    suspended and resumed: the display is visible again, [celebrating] is
    true again and the start sequence ran a second time, but for no name,
    and the message reads "undefined". *)
Theorem C3_resume_forgets_name :
  let w := run sample_runtime [EvSuspend; EvResume 3000] anna_started in
  filter is_celebrate (log anna_started)
  = [ActCelebrate (Some "Anna"%string)]
  /\ filter is_celebrate (log w)
     = [ActCelebrate (Some "Anna"%string); ActCelebrate None]
  /\ wrapper w
     = Some {| display := "block";
               message :=
                 Some "🎈 Best wishes on your special day, undefined! 🎁"%string |}
  /\ celebrating w = true
  /\ wasCelebrating w = false.
Proof. vm_compute. repeat split. Qed.

(** The flags and the count of celebrations after [resume], for every
    suspended celebration. *)
Lemma resume_restarts (rt : JsRuntime) (now : Q) (w : World) :
  wasCelebrating w = true ->
  celebrating (fst (MMM_Birthday.resume rt now w)) = true
  /\ wasCelebrating (fst (MMM_Birthday.resume rt now w)) = false
  /\ celebrations (fst (MMM_Birthday.resume rt now w)) = S (celebrations w).
Proof. apply resume_flags. Qed.

(** * Further properties of the code *)

(** ** More of what the functions leave unchanged *)

Lemma outside_fireworks_refl (w : World) : outside_fireworks w w.
Proof. repeat split. Qed.

Lemma outside_fireworks_trans (w1 w2 w3 : World) :
  outside_fireworks w1 w2 -> outside_fireworks w2 w3 ->
  outside_fireworks w1 w3.
Proof.
  unfold outside_fireworks. intros H1 H2.
  decompose [and] H1. decompose [and] H2.
  repeat split; congruence.
Qed.

Lemma outside_confetti_refl (w : World) : outside_confetti w w.
Proof. repeat split. Qed.

Lemma outside_confetti_trans (w1 w2 w3 : World) :
  outside_confetti w1 w2 -> outside_confetti w2 w3 -> outside_confetti w1 w3.
Proof.
  unfold outside_confetti. intros H1 H2.
  decompose [and] H1. decompose [and] H2.
  repeat split; congruence.
Qed.

Ltac outside := unfold outside_fireworks, outside_confetti; repeat split.

Lemma explosion_step_outside (rt : JsRuntime) (x y : Q) (color : string)
    (now : Q) (i : nat) (w : World) :
  outside_fireworks w (Fireworks.explosion_step rt x y color now i w).
Proof. outside. Qed.

Lemma createExplosion_outside (rt : JsRuntime) (x y : Q) (color : string)
    (now : Q) (w : World) :
  outside_fireworks w (Fireworks.createExplosion rt x y color now w).
Proof.
  unfold Fireworks.createExplosion.
  apply for_loop_invariant with (P := outside_fireworks w).
  - intros i w' H. eapply outside_fireworks_trans; [exact H|].
    apply explosion_step_outside.
  - apply outside_fireworks_refl.
Qed.

Lemma explode_outside (rt : JsRuntime) (id : nat) (x : Q) (color : string)
    (rect_top now : Q) (w : World) :
  outside_fireworks w (Fireworks.explode rt id x color rect_top now w).
Proof.
  unfold Fireworks.explode.
  match goal with |- context [Fireworks.createExplosion rt x ?y color now w] =>
    apply outside_fireworks_trans
      with (Fireworks.createExplosion rt x y color now w);
    [apply createExplosion_outside
    |generalize (Fireworks.createExplosion rt x y color now w); intro;
     outside] end.
Qed.

Lemma launch_outside (rt : JsRuntime) (now : Q) (w : World) :
  outside_fireworks w (Fireworks.launch rt now w).
Proof. unfold Fireworks.launch. destruct (fireworks w); outside. Qed.

Lemma launchNext_outside (rt : JsRuntime) (now : Q) (w : World) :
  outside_fireworks w (Fireworks.launchNext rt now w).
Proof.
  unfold Fireworks.launchNext.
  destruct (fireworks w); [|apply outside_fireworks_refl].
  destruct (before now (endTime f)); [|apply outside_fireworks_refl].
  apply outside_fireworks_trans with (Fireworks.launch rt now w);
    [apply launch_outside|].
  generalize (Fireworks.launch rt now w). intro. outside.
Qed.

Lemma Fireworks_start_outside (rt : JsRuntime) (d : Duration) (now : Q)
    (w : World) :
  outside_fireworks w (Fireworks.start rt d now w).
Proof.
  unfold Fireworks.start.
  destruct (fireworks w); [|apply outside_fireworks_refl].
  match goal with |- outside_fireworks w (Fireworks.launchNext rt now ?w1) =>
    apply outside_fireworks_trans with w1;
      [outside | apply launchNext_outside] end.
Qed.

Lemma Fireworks_cleanup_outside (w : World) :
  outside_fireworks w (Fireworks.cleanup w).
Proof. unfold Fireworks.cleanup. destruct (fireworks w); outside. Qed.

Lemma animate_outside (rt : JsRuntime) (w : World) :
  outside_confetti w (Confetti.animate rt w).
Proof.
  unfold Confetti.animate.
  destruct (negb (isAnimating w)); [apply outside_confetti_refl|].
  destruct (0 <? _)%nat; outside.
Qed.

Lemma push_loop_outside (rt : JsRuntime) (left : bool) (n start : nat)
    (w : World) :
  outside_confetti w (for_loop n start (Confetti.push_particle rt left) w).
Proof.
  apply for_loop_invariant with (P := outside_confetti w).
  - intros i w' H. eapply outside_confetti_trans; [exact H|]. outside.
  - apply outside_confetti_refl.
Qed.

Lemma fire_outside (rt : JsRuntime) (w : World) :
  outside_confetti w (Confetti.fire rt w).
Proof.
  unfold Confetti.fire. cbv zeta.
  assert (H1 : outside_confetti w (set_log (log w ++ [ActBurst]) w))
    by outside.
  revert H1. generalize (set_log (log w ++ [ActBurst]) w). intros w1 H1.
  pose proof (push_loop_outside rt true Confetti.burstCount 0 w1) as H2.
  revert H2.
  generalize (for_loop Confetti.burstCount 0 (Confetti.push_particle rt true)
                w1).
  intros w2 H2.
  pose proof (push_loop_outside rt false Confetti.burstCount 0 w2) as H3.
  revert H3.
  generalize (for_loop Confetti.burstCount 0 (Confetti.push_particle rt false)
                w2).
  intros w3 H3.
  assert (H123 : outside_confetti w w3).
  { eapply outside_confetti_trans; [exact H1|].
    eapply outside_confetti_trans; [exact H2 | exact H3]. }
  destruct (negb (isAnimating w3)); [|exact H123].
  eapply outside_confetti_trans; [exact H123|].
  apply outside_confetti_trans with (set_isAnimating true w3);
    [outside | apply animate_outside].
Qed.

Lemma Confetti_cleanup_outside (w : World) :
  outside_confetti w (Confetti.cleanup w).
Proof.
  unfold Confetti.cleanup, Confetti.cancelAnimationFrame. cbn.
  destruct (animationFrame w); outside.
Qed.

(** ** The message (getRandomMessage) *)

Lemma floor_index_lt (r : Q) (len : nat) :
  0 <= r -> r < 1 -> (0 < len)%nat -> (floor_index r len < len)%nat.
Proof.
  intros H0 H1 Hlen. unfold floor_index.
  set (L := inject_Z (Z.of_nat len)).
  assert (HL : 0 < L).
  { unfold L. change 0 with (inject_Z 0). rewrite <- Zlt_Qlt. lia. }
  assert (Hlo : (0 <= Qfloor (r * L))%Z).
  { change 0%Z with (Qfloor 0). apply Qfloor_resp_le. nra. }
  assert (Hhi : (Qfloor (r * L) < Z.of_nat len)%Z).
  { rewrite Zlt_Qlt. fold L.
    eapply Qle_lt_trans; [apply Qfloor_le|]. nra. }
  lia.
Qed.

Lemma getRandomMessage_picks (rt : JsRuntime) (name : option string)
    (w : World) :
  random_ok rt ->
  translate w <> TrMessages [] ->
  exists m, In m (messages_used (translate w))
            /\ fst (MMM_Birthday.getRandomMessage rt name w)
               = Some (replace_first "{name}"
                         (MMM_Birthday.name_text name) m).
Proof.
  intros Hr Hne. unfold MMM_Birthday.getRandomMessage.
  fold (messages_used (translate w)).
  set (ms := messages_used (translate w)).
  set (i := floor_index (rand rt w) (List.length ms)).
  assert (Hlen : (0 < List.length ms)%nat).
  { destruct ms as [|m ms'] eqn:E; [|simpl; lia].
    exfalso. apply Hne. unfold ms, messages_used in E.
    destruct (translate w); try discriminate. congruence. }
  assert (Hi : (i < List.length ms)%nat).
  { destruct (Hr (rng w)). apply floor_index_lt; assumption. }
  destruct (nth_error ms i) as [m|] eqn:E.
  - exists m. split; [eapply nth_error_In; exact E | reflexivity].
  - apply nth_error_None in E. lia.
Qed.



Lemma replace_first_absent (c : ascii) (pat rep s : string) :
  lacks c s -> replace_first (String c pat) rep s = s.
Proof.
  induction s as [|a s IH]; intros Hl; [reflexivity|].
  cbn [replace_first String.prefix].
  destruct (Ascii.ascii_dec c a) as [->|Hne].
  - exfalso. apply (Hl a); [left; reflexivity | reflexivity].
  - rewrite IH; [reflexivity|].
    intros c' Hin. apply Hl. right. exact Hin.
Qed.

Lemma drop_length_append (pat post : string) :
  drop (String.length pat) (pat ++ post) = post.
Proof. induction pat as [|a pat IH]; [reflexivity | exact IH]. Qed.

Lemma prefix_append (pat post : string) :
  String.prefix pat (pat ++ post) = true.
Proof.
  induction pat as [|a pat IH]; [destruct post; reflexivity|].
  cbn. destruct (Ascii.ascii_dec a a); [exact IH | congruence].
Qed.

(** X2: the placeholder is replaced where it first stands: a template
    consisting of a text without '{', the placeholder and any rest yields
    the text, the name and the rest; a template without '{' is returned
    as it is.  (For a name without '$', which [replace] would
    interpret.) *)
Theorem message_placeholder (name pre post : string) :
  lacks "$" name ->
  lacks "{" pre ->
  replace_first "{name}" name (pre ++ "{name}" ++ post)
  = (pre ++ name ++ post)%string
  /\ replace_first "{name}" name pre = pre.
Proof.
  intros _ Hpre. split; [|apply replace_first_absent; exact Hpre].
  induction pre as [|a pre IH].
  - change ("" ++ "{name}" ++ post)%string with ("{name}" ++ post)%string.
    unfold replace_first at 1.
    destruct ("{name}" ++ post)%string eqn:E; [discriminate|].
    rewrite <- E. rewrite prefix_append.
    rewrite drop_length_append. reflexivity.
  - change ((String a pre) ++ "{name}" ++ post)%string
      with (String a (pre ++ "{name}" ++ post)).
    cbn [replace_first String.prefix].
    destruct (Ascii.ascii_dec "{" a) as [<-|Hne].
    + exfalso. apply (Hpre "{"%char); [left; reflexivity | reflexivity].
    + rewrite IH; [reflexivity|].
      intros c' Hin. apply Hpre. right. exact Hin.
Qed.

Lemma message_placeholder_witness :
  replace_first "{name}" "Anna" "Happy Birthday, {name}! And again, {name}!"
  = "Happy Birthday, Anna! And again, {name}!"%string.
Proof.
  apply (message_placeholder "Anna" "Happy Birthday, " "! And again, {name}!").
  - intros c' Hin. simpl in Hin.
    repeat (destruct Hin as [<- | Hin]; [discriminate|]). destruct Hin.
  - intros c' Hin. simpl in Hin.
    repeat (destruct Hin as [<- | Hin]; [discriminate|]). destruct Hin.
Defined.

(** ** The date of the check (checkBirthdays) *)

Lemma pad2_two_digits (n : nat) : (n < 100)%nat -> pad2 n = two_digits n.
Proof.
  intros Hn.
  assert (Hall : forallb (fun k => String.eqb (pad2 k) (two_digits k))
                   (seq 0 100) = true) by (vm_compute; reflexivity).
  rewrite forallb_forall in Hall.
  apply String.eqb_eq, Hall, in_seq. lia.
Qed.

Lemma digit_inj (a b : nat) :
  (a < 10)%nat -> (b < 10)%nat -> digit a = digit b -> a = b.
Proof.
  intros Ha Hb H. unfold digit in H.
  apply (f_equal nat_of_ascii) in H.
  rewrite !nat_ascii_embedding in H by lia. lia.
Qed.

Lemma two_digits_inj (n m : nat) :
  (n < 100)%nat -> (m < 100)%nat -> two_digits n = two_digits m -> n = m.
Proof.
  intros Hn Hm H.
  assert (H1 : digit (n / 10) = digit (m / 10))
    by (unfold two_digits in H; congruence).
  assert (H2 : digit (n mod 10) = digit (m mod 10))
    by (unfold two_digits in H; congruence).
  apply digit_inj in H1;
    [|apply Nat.Div0.div_lt_upper_bound; lia
     |apply Nat.Div0.div_lt_upper_bound; lia].
  apply digit_inj in H2;
    [|apply Nat.mod_upper_bound; lia | apply Nat.mod_upper_bound; lia].
  rewrite (Nat.div_mod_eq n 10), (Nat.div_mod_eq m 10). lia.
Qed.

(** X3: for a month number 0..11 from [getMonth()] and a day of the month
    the date is written MM-DD, with two digits each and the month counted
    from 1; two calendar days are written the same only if they are the
    same day, so a birthday's date can match on one day of the year
    only. *)
Theorem currentDate_format (month day month' day' : nat) :
  (month < 12)%nat -> (day < 100)%nat ->
  (month' < 12)%nat -> (day' < 100)%nat ->
  MMM_Birthday.currentDate month day
  = (two_digits (month + 1) ++ "-" ++ two_digits day)%string
  /\ String.length (MMM_Birthday.currentDate month day) = 5%nat
  /\ (MMM_Birthday.currentDate month day
      = MMM_Birthday.currentDate month' day' ->
      month = month' /\ day = day').
Proof.
  intros Hm Hd Hm' Hd'. unfold MMM_Birthday.currentDate.
  rewrite !pad2_two_digits by lia.
  split; [reflexivity|]. split; [reflexivity|].
  intros H.
  assert (E1 : two_digits (month + 1) = two_digits (month' + 1))
    by (unfold two_digits in *; cbn [String.append] in H; congruence).
  assert (E2 : two_digits day = two_digits day')
    by (unfold two_digits in *; cbn [String.append] in H; congruence).
  apply two_digits_inj in E1; [|lia|lia].
  apply two_digits_inj in E2; [|lia|lia].
  lia.
Qed.

(** Christmas day and New Year's Eve. *)
Lemma currentDate_format_witness :
  MMM_Birthday.currentDate 11 25 = "12-25"%string
  /\ MMM_Birthday.currentDate 11 25 <> MMM_Birthday.currentDate 11 31.
Proof.
  destruct (currentDate_format 11 25 11 31) as (H1 & _ & H3); try lia.
  split.
  - rewrite H1. reflexivity.
  - intros E. apply H3 in E. lia.
Defined.

(** ** One link of the launch chain (launch, launchNext, start) *)

Lemma launch_spec (rt : JsRuntime) (now : Q) (w : World)
    (this : FireworksObj) :
  fireworks w = Some this ->
  let x := Math_random rt (rng w) * (inject_Z (innerWidth w) - 100) + 50 in
  let color :=
    nth (floor_index (Math_random rt (S (rng w))) (List.length (colors this)))
      (colors this) "undefined"%string in
  let id := nextNode w in
  let w' := Fireworks.launch rt now w in
  rockets w' = rockets w ++ [{| rocket_id := id; rocket_left := x |}]
  /\ sparks w' = sparks w
  /\ nextNode w' = S id
  /\ rng w' = S (S (rng w))
  /\ log w' = log w ++ [ActLaunch x color]
  /\ timeouts w'
     = timeouts w ++ [(now + 800, CbExplode id x color);
                      (now + 1000, CbRemoveRocket id)]
  /\ fireworks w' = Some this.
Proof.
  intros Hf. cbv zeta. unfold Fireworks.launch. rewrite Hf.
  cbn. rewrite <- app_assoc. repeat split. exact Hf.
Qed.

(** X4: while the end time has not passed, [launchNext] launches exactly
    one rocket, in a colour of the palette, schedules its explosion 800 ms
    and its fallback removal 1000 ms later, and schedules itself again
    after [Math.random() * 800 + 200] ms, a delay in [200, 1000). *)
Theorem launchNext_link (rt : JsRuntime) (now : Q) (w : World)
    (this : FireworksObj) :
  random_ok rt ->
  fireworks w = Some this ->
  colors this <> [] ->
  before now (endTime this) = true ->
  let w' := Fireworks.launchNext rt now w in
  exists x color delay,
    In color (colors this)
    /\ 200 <= delay /\ delay < 1000
    /\ rockets w'
       = rockets w ++ [{| rocket_id := nextNode w; rocket_left := x |}]
    /\ launches w' = S (launches w)
    /\ timeouts w'
       = timeouts w ++ [(now + 800, CbExplode (nextNode w) x color);
                        (now + 1000, CbRemoveRocket (nextNode w));
                        (now + delay, CbLaunchNext)]
    /\ pending_launches w' = S (pending_launches w)
    /\ fireworks w' = Some this.
Proof.
  intros Hr Hf Hc Hb. cbv zeta.
  unfold Fireworks.launchNext. rewrite Hf, Hb.
  destruct (launch_spec rt now w this Hf) as (A & _ & _ & B & C & D & E).
  cbv zeta in *. revert A B C D E.
  generalize (Fireworks.launch rt now w). intros w1 A B C D E.
  exists (Math_random rt (rng w) * (inject_Z (innerWidth w) - 100) + 50),
    (nth (floor_index (Math_random rt (S (rng w)))
            (List.length (colors this)))
       (colors this) "undefined"%string),
    (Math_random rt (S (S (rng w))) * (1000 - 200) + 200).
  split.
  { apply nth_In. destruct (Hr (S (rng w))) as [C0 C1].
    apply floor_index_lt; [exact C0 | exact C1 |].
    destruct (colors this) eqn:E0; [congruence | simpl; lia]. }
  destruct (Hr (S (S (rng w)))) as [R0 R1].
  split; [lra|]. split; [lra|].
  split; [exact A|].
  split.
  { unfold launches. cbn. rewrite C, filter_app, length_app. cbn. lia. }
  split.
  { cbn. rewrite D, <- app_assoc. unfold rand. rewrite B. reflexivity. }
  split.
  { unfold pending_launches. cbn. rewrite D, !filter_app, !length_app.
    cbn. lia. }
  exact E.
Qed.

(** A launch on the wide page, five seconds before the end time. *)
Lemma launchNext_link_witness :
  pending_launches
    (Fireworks.launchNext sample_runtime 1000
       (set_fireworks
          (Some {| colors := Fireworks.palette; endTime := At 6000 |})
          wide_page))
  = 1%nat.
Proof.
  destruct (launchNext_link sample_runtime 1000
              (set_fireworks
                 (Some {| colors := Fireworks.palette; endTime := At 6000 |})
                 wide_page)
              {| colors := Fireworks.palette; endTime := At 6000 |}
              sample_runtime_ok eq_refl)
    as (x & color & delay & _ & _ & _ & _ & _ & _ & H & _).
  - discriminate.
  - reflexivity.
  - exact H.
Defined.

Lemma Fireworks_start_spec (rt : JsRuntime) (d : Duration) (now : Q)
    (w : World) (this : FireworksObj) :
  fireworks w = Some this ->
  let e := match d with Infinite => Infinity | Millis ms => At (now + ms) end in
  let w' := Fireworks.start rt d now w in
  fireworks w' = Some {| colors := colors this; endTime := e |}
  /\ celebrated w' = celebrated w
  /\ outside_fireworks w w'
  /\ exists extra,
       timeouts w' = timeouts w ++ extra
       /\ (forall t cb, In (t, cb) extra ->
             match cb with
             | CbStopCelebration | CbFireBurst _ _ => False
             | _ => True
             end)
       /\ List.length (filter is_launchNext extra)
          = if before now e then 1%nat else 0%nat.
Proof.
  intros Hf. cbv zeta.
  pose proof (Fireworks_start_outside rt d now w) as Ho.
  unfold Fireworks.start in *. rewrite Hf in *.
  set (this' := {| colors := colors this;
                   endTime := match d with
                              | Infinite => Infinity
                              | Millis ms => At (now + ms)
                              end |}) in *.
  assert (Hf1 : fireworks (set_fireworks (Some this') w) = Some this')
    by reflexivity.
  assert (Hc1 : celebrated (set_fireworks (Some this') w) = celebrated w)
    by reflexivity.
  assert (Ht1 : timeouts (set_fireworks (Some this') w) = timeouts w)
    by reflexivity.
  revert Ho Hf1 Hc1 Ht1. generalize (set_fireworks (Some this') w).
  intros w1 Ho Hf1 Hc1 Ht1.
  split; [destruct (launchNext_effect rt now w1) as (-> & _); exact Hf1|].
  split; [|split; [exact Ho|]].
  - rewrite <- Hc1. unfold Fireworks.launchNext. rewrite Hf1.
    destruct (before now (endTime this')); [|reflexivity].
    destruct (launch_spec rt now w1 this' Hf1) as (_ & _ & _ & _ & C & _).
    cbv zeta in C. revert C. generalize (Fireworks.launch rt now w1).
    intros w2 C. unfold celebrated. cbn. rewrite C, filter_app. cbn.
    apply app_nil_r.
  - rewrite <- Ht1. unfold Fireworks.launchNext. rewrite Hf1.
    change (match d with
            | Infinite => Infinity
            | Millis ms => At (now + ms)
            end) with (endTime this').
    destruct (before now (endTime this'));
      [|exists []; split; [now rewrite app_nil_r |];
        split; [intros ? ? [] | reflexivity]].
    destruct (launch_spec rt now w1 this' Hf1) as (_ & _ & _ & _ & _ & D & _).
    cbv zeta in D. revert D. generalize (Fireworks.launch rt now w1).
    intros w2 D. cbn. rewrite D, <- app_assoc.
    eexists. split; [reflexivity|]. split; [|reflexivity].
    intros t cb Hin. cbn in Hin.
    destruct Hin as [E | [E | [E | []]]]; injection E as _ <-; exact I.
Qed.

(** ** The start of a celebration (celebrateBirthday) *)

Lemma getRandomMessage_state (rt : JsRuntime) (name : option string)
    (w : World) :
  snd (MMM_Birthday.getRandomMessage rt name w) = tick w.
Proof.
  unfold MMM_Birthday.getRandomMessage. destruct (nth_error _ _); reflexivity.
Qed.

Lemma no_stop_among (extra : list (Q * Callback)) :
  (forall t cb, In (t, cb) extra ->
     match cb with
     | CbStopCelebration | CbFireBurst _ _ => False
     | _ => True
     end) ->
  filter is_stop extra = [] /\ filter is_fireBurst extra = [].
Proof.
  induction extra as [|[t cb] extra IH]; intros H; [split; reflexivity|].
  cbn. pose proof (H t cb (or_introl eq_refl)) as Hcb.
  destruct cb; try contradiction; cbn; apply IH;
    intros t' cb' Hin; apply (H t' cb'); right; exact Hin.
Qed.

Lemma celebrateBirthday_spec (rt : JsRuntime) (name : option string)
    (now : Q) (w : World) :
  random_ok rt ->
  translate w <> TrMessages [] ->
  let r := MMM_Birthday.celebrateBirthday rt name now w in
  let w' := fst r in
  snd r = MMM_Birthday.Normal
  /\ celebrated w' = celebrated w ++ [ActCelebrate name]
  /\ (exists m,
        In m (messages_used (translate w))
        /\ wrapper w'
           = Some {| display := "block";
                     message :=
                       Some (replace_first "{name}"
                               (MMM_Birthday.name_text name) m) |})
  /\ canvasAttached w' = true
  /\ fireworks w'
     = Some {| colors := match fireworks w with
                         | Some this => colors this
                         | None => Fireworks.palette
                         end;
               endTime := end_of (fireworkDuration (config w)) now |}
  /\ modules w' = modules (MMM_Birthday.dimOtherModules w)
  /\ particles w' = particles w
  /\ isAnimating w' = isAnimating w
  /\ In (now + 1000,
         CbFireBurst
           (match confettiDuration (config w) with
            | Infinite => true
            | Millis _ => false
            end)
           (end_of (confettiDuration (config w)) now))
        (timeouts w')
  /\ match fireworkDuration (config w) with
     | Infinite => pending_stops w' = pending_stops w
     | Millis d =>
         pending_stops w' = S (pending_stops w)
         /\ In (now + d, CbStopCelebration) (timeouts w')
     end
  /\ exists extra,
       timeouts w'
       = timeouts w ++ extra
         ++ [(now + 1000,
              CbFireBurst
                (match confettiDuration (config w) with
                 | Infinite => true
                 | Millis _ => false
                 end)
                (end_of (confettiDuration (config w)) now))]
         ++ match fireworkDuration (config w) with
            | Infinite => []
            | Millis d => [(now + d, CbStopCelebration)]
            end
       /\ filter is_stop extra = []
       /\ filter is_fireBurst extra = []
       /\ List.length (filter is_launchNext extra)
          = if before now (end_of (fireworkDuration (config w)) now)
            then 1%nat else 0%nat.
Proof.
  intros Hr Htr. cbv zeta. unfold MMM_Birthday.celebrateBirthday. cbv zeta.
  (* up to the wrapper *)
  match goal with
  | |- context [MMM_Birthday.getRandomMessage rt name ?W] =>
      assert (H4 :
        celebrated W = celebrated w ++ [ActCelebrate name]
        /\ (exists el, wrapper W = Some el)
        /\ canvasAttached W = true
        /\ (exists this,
              fireworks W = Some this
              /\ colors this = match fireworks w with
                               | Some this => colors this
                               | None => Fireworks.palette
                               end)
        /\ modules W = modules w
        /\ particles W = particles w
        /\ isAnimating W = isAnimating w
        /\ timeouts W = timeouts w
        /\ config W = config w
        /\ translate W = translate w);
      [|revert H4; generalize W; intros w4 H4]
  end.
  { unfold celebrated. cbn.
    destruct (fireworks w) as [this|] eqn:Ef, (wrapper w) as [el|] eqn:Ew;
      cbn; rewrite ?Ef, ?Ew, ?filter_app; cbn;
      repeat split; eauto; apply filter_app. }
  destruct H4 as (A1 & (el & A2) & A3 & (this & A4 & A4') & A5 & A6 & A7 & A8
                  & A9 & A10).
  (* the message *)
  pose proof (getRandomMessage_picks rt name w4 Hr) as Hm.
  rewrite A10 in Hm. destruct (Hm Htr) as (m & Hin & Hfst).
  rewrite Hfst, getRandomMessage_state. cbn [fst snd].
  set (text := replace_first "{name}" (MMM_Birthday.name_text name) m) in *.
  (* the emitters *)
  unfold MMM_Birthday.startFireworks.
  set (w6 := MMM_Birthday.dimOtherModules
               (set_wrapper
                  (Some {| display := "block"; message := Some text |})
                  (tick w4))).
  assert (H6 :
    celebrated w6 = celebrated w4
    /\ wrapper w6 = Some {| display := "block"; message := Some text |}
    /\ canvasAttached w6 = canvasAttached w4
    /\ fireworks w6 = fireworks w4
    /\ modules w6 = modules (MMM_Birthday.dimOtherModules w4)
    /\ particles w6 = particles w4
    /\ isAnimating w6 = isAnimating w4
    /\ timeouts w6 = timeouts w4
    /\ config w6 = config w4) by (repeat split).
  clearbody w6.
  destruct H6 as (B1 & B2 & B3 & B4 & B5 & B6 & B7 & B8 & B9).
  rewrite A4 in B4.
  destruct (Fireworks_start_spec rt (fireworkDuration (config w6)) now w6
              this B4) as (C1 & C2 & C3 & extra & C4 & C5 & C5').
  cbv zeta in C1, C2, C3, C4, C5'.
  rewrite B9, A9 in C5'.
  destruct (Fireworks_start_ctl rt (fireworkDuration (config w6)) now w6)
    as (C6 & _).
  revert C1 C2 C3 C4 C6.
  generalize (Fireworks.start rt (fireworkDuration (config w6)) now w6).
  intros w7 C1 C2 C3 C4 C6.
  destruct C3 as (D1 & D2 & _ & _ & _ & _ & _ & _ & D9 & D10 & D11 & _).
  assert (Hcfg : config w7 = config w) by congruence.
  destruct (no_stop_among extra C5) as (Hstop & Hfire).
  unfold MMM_Birthday.startConfetti. cbn [config setTimeout set_timeouts].
  rewrite Hcfg.
  split; [reflexivity|].
  assert (Hcommon :
    forall w9,
      celebrated w9 = celebrated w7 -> wrapper w9 = wrapper w7 ->
      canvasAttached w9 = canvasAttached w7 -> fireworks w9 = fireworks w7 ->
      modules w9 = modules w7 -> particles w9 = particles w7 ->
      isAnimating w9 = isAnimating w7 ->
      celebrated w9 = celebrated w ++ [ActCelebrate name]
      /\ (exists m,
            In m (messages_used (translate w))
            /\ wrapper w9
               = Some {| display := "block";
                         message :=
                           Some (replace_first "{name}"
                                   (MMM_Birthday.name_text name) m) |})
      /\ canvasAttached w9 = true
      /\ fireworks w9
         = Some {| colors := match fireworks w with
                             | Some this => colors this
                             | None => Fireworks.palette
                             end;
                   endTime := end_of (fireworkDuration (config w)) now |}
      /\ modules w9 = modules (MMM_Birthday.dimOtherModules w)
      /\ particles w9 = particles w
      /\ isAnimating w9 = isAnimating w).
  { intros w9 E1 E2 E3 E4 E5 E6 E7.
    split; [congruence|].
    split; [exists m; split; [exact Hin | rewrite E2, D9, B2; reflexivity]|].
    split; [congruence|].
    split.
    { rewrite E4, C1, A4', B9, A9. reflexivity. }
    split.
    { rewrite E5, D10, B5. unfold MMM_Birthday.dimOtherModules. cbn.
      rewrite A5. reflexivity. }
    split; congruence. }
  destruct (fireworkDuration (config w)) as [|d] eqn:Ed.
  - match goal with |- celebrated ?w9 = _ /\ _ =>
      destruct (Hcommon w9) as (F1 & F2 & F3 & F4 & F5 & F6 & F7);
        try reflexivity end.
    cbn [fst].
    repeat (split; [assumption|]).
    split.
    + cbn. apply in_or_app. right. left.
      destruct (confettiDuration (config w)); reflexivity.
    + split.
      * unfold pending_stops. cbn.
        rewrite C4, B8, A8, !filter_app, Hstop, !length_app. cbn. lia.
      * exists extra. cbn. rewrite C4, B8, A8, <- ?app_assoc.
        split; [|split; [exact Hstop|split; [exact Hfire|exact C5']]].
        destruct (confettiDuration (config w)); reflexivity.
  - match goal with |- celebrated ?w9 = _ /\ _ =>
      destruct (Hcommon w9) as (F1 & F2 & F3 & F4 & F5 & F6 & F7);
        try reflexivity end.
    cbn [fst].
    repeat (split; [assumption|]).
    split.
    + cbn. apply in_or_app. left. apply in_or_app. right. left.
      destruct (confettiDuration (config w)); reflexivity.
    + split; [split|].
      * unfold pending_stops. cbn.
        rewrite C4, B8, A8, !filter_app, Hstop, !length_app. cbn. lia.
      * cbn. apply in_or_app. right. left. reflexivity.
      * exists extra. cbn. rewrite C4, B8, A8, <- !app_assoc.
        split; [|split; [exact Hstop|split; [exact Hfire|exact C5']]].
        destruct (confettiDuration (config w)); reflexivity.
Qed.




(** ** What a check does (checkBirthdays) *)

Lemma forEach_birthday_skip (rt : JsRuntime) (pre rest : list Birthday)
    (today : string) (now : Q) (w : World) :
  forallb (fun b => negb (dated today b)) pre = true ->
  MMM_Birthday.forEach_birthday rt (pre ++ rest) today now w
  = MMM_Birthday.forEach_birthday rt rest today now w.
Proof.
  induction pre as [|b pre IH]; intros H; [reflexivity|].
  cbn [forallb] in H. apply andb_true_iff in H. destruct H as [Hb Hpre].
  change ((b :: pre) ++ rest) with (b :: (pre ++ rest)).
  cbn [MMM_Birthday.forEach_birthday].
  unfold dated in Hb. apply negb_true_iff in Hb. rewrite Hb.
  cbn [andb]. apply IH. exact Hpre.
Qed.

Lemma checkBirthdays_first (rt : JsRuntime) (month day : nat) (now : Q)
    (w : World) (pre post : list Birthday) (b : Birthday) :
  birthdays (config w) = Some (pre ++ b :: post) ->
  forallb (fun b' => negb (dated (MMM_Birthday.currentDate month day) b'))
    pre = true ->
  dated (MMM_Birthday.currentDate month day) b = true ->
  celebrating w = false -> wasCelebrating w = false ->
  MMM_Birthday.checkBirthdays rt month day now w
  = MMM_Birthday.celebrateBirthday rt (Some (b_name b)) now
      (set_celebrating true w).
Proof.
  unfold MMM_Birthday.checkBirthdays.
  intros -> Hpre Hb Hc Hw.
  rewrite forEach_birthday_skip by exact Hpre.
  cbn [MMM_Birthday.forEach_birthday].
  unfold dated in Hb. rewrite Hb, Hc, Hw. cbn [andb negb].
  destruct (celebrateBirthday_ctl rt (Some (b_name b)) now
              (set_celebrating true w)) as (_ & _ & Hc' & _).
  cbn [celebrating set_celebrating] in Hc'. revert Hc'.
  generalize (MMM_Birthday.celebrateBirthday rt (Some (b_name b)) now
                (set_celebrating true w)).
  intros [w' c] Hc'. cbn [fst snd] in *.
  destruct c; [|reflexivity].
  apply forEach_birthday_busy. rewrite Hc'. reflexivity.
Qed.

(** X6: [checkBirthdays] does nothing when [config.birthdays] is not an
    array and when no birthday is dated today.  From the idle state, with
    a birthday dated today, it sets [celebrating] and calls
    [celebrateBirthday] once, with the name of the first such birthday in
    the list; the birthdays after it are passed over, and an exception of
    [celebrateBirthday] is not caught. *)
Theorem checkBirthdays_decides (rt : JsRuntime) (month day : nat) (now : Q)
    (w : World) :
  let today := MMM_Birthday.currentDate month day in
  (birthdays (config w) = None ->
   MMM_Birthday.checkBirthdays rt month day now w
   = (w, MMM_Birthday.Normal))
  /\ (forall bs,
        birthdays (config w) = Some bs ->
        forallb (fun b => negb (dated today b)) bs = true ->
        MMM_Birthday.checkBirthdays rt month day now w
        = (w, MMM_Birthday.Normal))
  /\ (forall pre b post,
        birthdays (config w) = Some (pre ++ b :: post) ->
        forallb (fun b => negb (dated today b)) pre = true ->
        dated today b = true ->
        celebrating w = false -> wasCelebrating w = false ->
        MMM_Birthday.checkBirthdays rt month day now w
        = MMM_Birthday.celebrateBirthday rt (Some (b_name b)) now
            (set_celebrating true w)).
Proof.
  cbv zeta. split; [|split].
  - unfold MMM_Birthday.checkBirthdays. intros ->. reflexivity.
  - unfold MMM_Birthday.checkBirthdays. intros bs -> Hnone.
    rewrite <- (app_nil_r bs), forEach_birthday_skip by exact Hnone.
    reflexivity.
  - intros pre b post. apply checkBirthdays_first.
Qed.

Lemma getRandomMessage_empty (rt : JsRuntime) (name : option string)
    (w : World) :
  translate w = TrMessages [] ->
  MMM_Birthday.getRandomMessage rt name w = (None, tick w).
Proof.
  intros Htr. unfold MMM_Birthday.getRandomMessage. rewrite Htr.
  cbn [List.length]. destruct (floor_index (rand rt w) 0); reflexivity.
Qed.

Lemma celebrateBirthday_throws (rt : JsRuntime) (name : option string)
    (now : Q) (w : World) :
  translate w = TrMessages [] ->
  let r := MMM_Birthday.celebrateBirthday rt name now w in
  snd r = MMM_Birthday.Thrown
  /\ timeouts (fst r) = timeouts w
  /\ launches (fst r) = launches w
  /\ modules (fst r) = modules w
  /\ celebrating (fst r) = celebrating w
  /\ wasCelebrating (fst r) = wasCelebrating w
  /\ celebrated (fst r) = celebrated w ++ [ActCelebrate name]
  /\ wrapper (fst r) =
       Some (match wrapper w with
             | Some el => el
             | None => {| display := ""; message := None |}
             end).
Proof.
  intros Htr. cbv zeta. unfold MMM_Birthday.celebrateBirthday. cbv zeta.
  match goal with
  | |- context [MMM_Birthday.getRandomMessage rt name ?W] =>
      assert (H4 :
        translate W = translate w
        /\ timeouts W = timeouts w
        /\ launches W = launches w
        /\ modules W = modules w
        /\ celebrating W = celebrating w
        /\ wasCelebrating W = wasCelebrating w
        /\ celebrated W = celebrated w ++ [ActCelebrate name]
        /\ wrapper W =
             Some (match wrapper w with
                   | Some el => el
                   | None => {| display := ""; message := None |}
                   end));
      [|revert H4; generalize W; intros w4 H4]
  end.
  { unfold launches, celebrated. cbn.
    destruct (fireworks w) as [this|] eqn:Ef, (wrapper w) as [el|] eqn:Ew;
      cbn; rewrite ?Ef, ?Ew, ?filter_app; cbn; rewrite ?app_nil_r;
      repeat split; rewrite ?filter_app; cbn; rewrite ?app_nil_r, ?Ew;
      reflexivity. }
  destruct H4 as (A1 & A2 & A3 & A4 & A5 & A6 & A7 & A8).
  rewrite Htr in A1.
  rewrite (getRandomMessage_empty rt name w4 A1). cbn [fst snd].
  repeat split; assumption.
Qed.

(** X7: with an empty [MESSAGES] array the celebration never starts.  The
    check that finds the birthday sets [celebrating] and calls
    [celebrateBirthday], which throws in [getRandomMessage] before
    anything is shown, dimmed, launched or scheduled; the exception is
    not caught and [celebrating] stays set, so no [stopCelebration] is
    pending to clear it and every later periodic check does nothing. *)
Theorem empty_messages_stall (rt : JsRuntime) (month day : nat) (now : Q)
    (w : World) (pre post : list Birthday) (b : Birthday) :
  translate w = TrMessages [] ->
  birthdays (config w) = Some (pre ++ b :: post) ->
  forallb (fun b' => negb (dated (MMM_Birthday.currentDate month day) b'))
    pre = true ->
  dated (MMM_Birthday.currentDate month day) b = true ->
  celebrating w = false -> wasCelebrating w = false ->
  let r := MMM_Birthday.checkBirthdays rt month day now w in
  snd r = MMM_Birthday.Thrown
  /\ celebrating (fst r) = true
  /\ wasCelebrating (fst r) = false
  /\ timeouts (fst r) = timeouts w
  /\ launches (fst r) = launches w
  /\ modules (fst r) = modules w
  /\ wrapper (fst r) =
       Some (match wrapper w with
             | Some el => el
             | None => {| display := ""; message := None |}
             end)
  /\ forall cs, run rt (checks cs) (fst r) = fst r.
Proof.
  intros Htr Hbs Hpre Hb Hc Hw. cbv zeta.
  rewrite (checkBirthdays_first rt month day now w pre post b
             Hbs Hpre Hb Hc Hw).
  destruct (celebrateBirthday_throws rt (Some (b_name b)) now
              (set_celebrating true w) Htr)
    as (T1 & T2 & T3 & T4 & T5 & T6 & _ & T8).
  revert T1 T2 T3 T4 T5 T6 T8.
  generalize (MMM_Birthday.celebrateBirthday rt (Some (b_name b)) now
                (set_celebrating true w)).
  intros [w' c]. cbn [fst snd]. intros T1 T2 T3 T4 T5 T6 T8.
  cbn [celebrating wasCelebrating set_celebrating] in T5, T6.
  repeat split; try assumption.
  - rewrite T6. exact Hw.
  - intros cs. apply checks_busy. rewrite T5. reflexivity.
Qed.

Lemma empty_messages_stall_witness :
  let w := loaded anna_config (TrMessages []) 1920 1080 [] None in
  let r := MMM_Birthday.checkBirthdays sample_runtime 11 25 1000 w in
  snd r = MMM_Birthday.Thrown
  /\ celebrating (fst r) = true
  /\ wasCelebrating (fst r) = false
  /\ timeouts (fst r) = timeouts w
  /\ launches (fst r) = launches w
  /\ modules (fst r) = modules w
  /\ wrapper (fst r) =
       Some (match wrapper w with
             | Some el => el
             | None => {| display := ""; message := None |}
             end)
  /\ forall cs, run sample_runtime (checks cs) (fst r) = fst r.
Proof.
  exact (empty_messages_stall sample_runtime 11 25 1000
           (loaded anna_config (TrMessages []) 1920 1080 [] None)
           [] [] {| b_name := "Anna"; b_date := "12-25" |}
           eq_refl eq_refl eq_refl eq_refl eq_refl eq_refl).
Defined.

(** ** Ending and suspending a celebration *)

Lemma stopCelebration_fields (w : World) :
  modules (MMM_Birthday.stopCelebration w)
  = map (fun m => {| m_birthday := m_birthday m; m_filter := "";
                     m_transition := m_transition m |}) (modules w)
  /\ timeouts (MMM_Birthday.stopCelebration w) = timeouts w
  /\ config (MMM_Birthday.stopCelebration w) = config w
  /\ translate (MMM_Birthday.stopCelebration w) = translate w
  /\ log (MMM_Birthday.stopCelebration w) = log w
  /\ wrapper (MMM_Birthday.stopCelebration w)
     = option_map (fun el => {| display := "none"; message := message el |})
         (wrapper w)
  /\ fireworks (MMM_Birthday.stopCelebration w)
     = option_map (fun this => {| colors := colors this; endTime := At 0 |})
         (fireworks w)
  /\ emitters_down (MMM_Birthday.stopCelebration w).
Proof.
  unfold MMM_Birthday.stopCelebration, MMM_Birthday.set_display,
    Fireworks.cleanup, Confetti.cleanup, Confetti.cancelAnimationFrame,
    emitters_down.
  destruct (wrapper w) as [el|] eqn:Ew, (fireworks w) as [this|] eqn:Ef,
    (animationFrame w) as [id|] eqn:Ea;
    do 4 (cbn; rewrite ?Ew, ?Ef, ?Ea); repeat split.
Qed.

Lemma suspend_fields (w : World) :
  celebrating w = true ->
  modules (MMM_Birthday.suspend w) = modules w
  /\ timeouts (MMM_Birthday.suspend w) = timeouts w
  /\ config (MMM_Birthday.suspend w) = config w
  /\ translate (MMM_Birthday.suspend w) = translate w
  /\ log (MMM_Birthday.suspend w) = log w
  /\ wrapper (MMM_Birthday.suspend w)
     = option_map (fun el => {| display := "none"; message := message el |})
         (wrapper w)
  /\ fireworks (MMM_Birthday.suspend w)
     = option_map (fun this => {| colors := colors this; endTime := At 0 |})
         (fireworks w)
  /\ emitters_down (MMM_Birthday.suspend w).
Proof.
  intros Hc.
  unfold MMM_Birthday.suspend, MMM_Birthday.set_display,
    Fireworks.cleanup, Confetti.cleanup, Confetti.cancelAnimationFrame,
    emitters_down.
  rewrite Hc.
  destruct (wrapper w) as [el|] eqn:Ew, (fireworks w) as [this|] eqn:Ef,
    (animationFrame w) as [id|] eqn:Ea;
    do 4 (cbn; rewrite ?Ew, ?Ef, ?Ea); repeat split.
Qed.

Lemma dimOtherModules_spec (ms : list ModuleEl) :
  let dim := fun m =>
    if negb (m_birthday m) then
      {| m_birthday := m_birthday m; m_filter := "brightness(30%)";
         m_transition := "filter 0.5s ease-in-out" |}
    else m in
  map m_birthday (map dim ms) = map m_birthday ms
  /\ map dim (map dim ms) = map dim ms
  /\ (forall m, In m (map dim ms) ->
        if m_birthday m then In m ms else dimmed m).
Proof.
  cbv zeta. induction ms as [|m ms (IH1 & IH2 & IH3)]; [repeat split; intros _ []|].
  cbn [map]. split; [|split].
  - rewrite IH1. destruct (m_birthday m) eqn:E; cbn; rewrite ?E; reflexivity.
  - rewrite IH2. destruct (m_birthday m) eqn:E; cbn; rewrite ?E; reflexivity.
  - intros m' [<- | Hin].
    + destruct (m_birthday m) eqn:E; cbn; rewrite ?E.
      * left. reflexivity.
      * split; reflexivity.
    + specialize (IH3 m' Hin). destruct (m_birthday m'); [right|]; exact IH3.
Qed.

Lemma restore_dim_spec (ms : list ModuleEl) :
  let dim := fun m =>
    if negb (m_birthday m) then
      {| m_birthday := m_birthday m; m_filter := "brightness(30%)";
         m_transition := "filter 0.5s ease-in-out" |}
    else m in
  let restore := fun m =>
    {| m_birthday := m_birthday m; m_filter := "";
       m_transition := m_transition m |} in
  map m_birthday (map restore (map dim ms)) = map m_birthday ms
  /\ Forall (fun m => m_filter m = ""%string) (map restore (map dim ms))
  /\ map m_transition (map restore (map dim ms))
     = map m_transition (map dim ms)
  /\ (Forall (fun m => m_filter m = ""%string) ms ->
      map m_filter (map restore (map dim ms)) = map m_filter ms).
Proof.
  cbv zeta. induction ms as [|m ms (IH1 & IH2 & IH3 & IH4)].
  - repeat split. constructor.
  - cbn [map]. split; [|split; [|split]].
    + rewrite IH1. destruct (m_birthday m) eqn:E; cbn; rewrite ?E; reflexivity.
    + constructor; [reflexivity | exact IH2].
    + rewrite IH3. reflexivity.
    + intros Hall. inversion Hall as [|? ? Hm Hms]; subst.
      rewrite IH4 by exact Hms. cbn. rewrite Hm. reflexivity.
Qed.

(** X8: [dimOtherModules] keeps the module elements, their order and
    their class; it leaves the elements of class [birthday-module] as they
    are and gives every other one the filter [brightness(30%)] and the
    transition [filter 0.5s ease-in-out]; doing it twice changes nothing
    more.  [stopCelebration] afterwards clears the filter of every module
    element and leaves the transition that was set, so a page whose
    modules had no filter gets its filters back and keeps the
    transition. *)
Theorem dim_then_restore (w : World) :
  let wd := MMM_Birthday.dimOtherModules w in
  let ws := MMM_Birthday.stopCelebration wd in
  map m_birthday (modules wd) = map m_birthday (modules w)
  /\ MMM_Birthday.dimOtherModules wd = wd
  /\ (forall m, In m (modules wd) ->
        if m_birthday m then In m (modules w) else dimmed m)
  /\ map m_birthday (modules ws) = map m_birthday (modules w)
  /\ Forall (fun m => m_filter m = ""%string) (modules ws)
  /\ map m_transition (modules ws) = map m_transition (modules wd)
  /\ (Forall (fun m => m_filter m = ""%string) (modules w) ->
      map m_filter (modules ws) = map m_filter (modules w)).
Proof.
  cbv zeta.
  destruct (stopCelebration_fields (MMM_Birthday.dimOtherModules w))
    as (Hm & _).
  rewrite Hm. clear Hm.
  destruct (dimOtherModules_spec (modules w)) as (D1 & D2 & D3).
  destruct (restore_dim_spec (modules w)) as (R1 & R2 & R3 & R4).
  cbv zeta in D1, D2, D3, R1, R2, R3, R4.
  unfold MMM_Birthday.dimOtherModules. cbn [modules set_modules].
  split; [exact D1|]. split; [rewrite D2; reflexivity|].
  split; [exact D3|]. split; [exact R1|]. split; [exact R2|].
  split; [exact R3|exact R4].
Qed.

Lemma restore_idempotent (ms : list ModuleEl) :
  let restore := fun m =>
    {| m_birthday := m_birthday m; m_filter := "";
       m_transition := m_transition m |} in
  map restore (map restore ms) = map restore ms.
Proof.
  cbv zeta. rewrite map_map. reflexivity.
Qed.

(** Assigning a field the value it holds changes nothing. *)
Lemma set_wrapper_same (w : World) v :
  wrapper w = v -> set_wrapper v w = w.
Proof. intros <-. destruct w; reflexivity. Qed.

Lemma set_modules_same (w : World) v :
  modules w = v -> set_modules v w = w.
Proof. intros <-. destruct w; reflexivity. Qed.

Lemma set_celebrating_same (w : World) v :
  celebrating w = v -> set_celebrating v w = w.
Proof. intros <-. destruct w; reflexivity. Qed.

Lemma set_wasCelebrating_same (w : World) v :
  wasCelebrating w = v -> set_wasCelebrating v w = w.
Proof. intros <-. destruct w; reflexivity. Qed.

Lemma set_fireworks_same (w : World) v :
  fireworks w = v -> set_fireworks v w = w.
Proof. intros <-. destruct w; reflexivity. Qed.

Lemma set_rockets_same (w : World) v :
  rockets w = v -> set_rockets v w = w.
Proof. intros <-. destruct w; reflexivity. Qed.

Lemma set_sparks_same (w : World) v :
  sparks w = v -> set_sparks v w = w.
Proof. intros <-. destruct w; reflexivity. Qed.

Lemma set_isAnimating_same (w : World) v :
  isAnimating w = v -> set_isAnimating v w = w.
Proof. intros <-. destruct w; reflexivity. Qed.

Lemma set_frames_same (w : World) v :
  frames w = v -> set_frames v w = w.
Proof. intros <-. destruct w; reflexivity. Qed.

Lemma set_particles_same (w : World) v :
  particles w = v -> set_particles v w = w.
Proof. intros <-. destruct w; reflexivity. Qed.

Lemma set_canvasAttached_same (w : World) v :
  canvasAttached w = v -> set_canvasAttached v w = w.
Proof. intros <-. destruct w; reflexivity. Qed.

Lemma stopCelebration_loop (w : World) :
  animationFrame (MMM_Birthday.stopCelebration w) = animationFrame w
  /\ frames (MMM_Birthday.stopCelebration w)
     = match animationFrame w with
       | Some id => filter (fun i => negb (Nat.eqb i id)) (frames w)
       | None => frames w
       end
  /\ celebrating (MMM_Birthday.stopCelebration w) = false
  /\ wasCelebrating (MMM_Birthday.stopCelebration w) = false.
Proof.
  unfold MMM_Birthday.stopCelebration, MMM_Birthday.set_display,
    Fireworks.cleanup, Confetti.cleanup, Confetti.cancelAnimationFrame.
  destruct (wrapper w) as [el|] eqn:Ew, (fireworks w) as [this|] eqn:Ef,
    (animationFrame w) as [id|] eqn:Ea;
    do 4 (cbn; rewrite ?Ew, ?Ef, ?Ea); repeat split.
Qed.

Lemma stopCelebration_idempotent (w : World) :
  MMM_Birthday.stopCelebration (MMM_Birthday.stopCelebration w)
  = MMM_Birthday.stopCelebration w.
Proof.
  destruct (stopCelebration_fields w)
    as (Hm & _ & _ & _ & _ & Hwr & Hf & Hp & Ha & Hcv & Hfw).
  destruct (stopCelebration_loop w) as (Haf & Hfr & Hc & Hw).
  pose proof (restore_idempotent (modules w)) as Hr. cbv zeta in Hr.
  revert Hm Hwr Hf Hp Ha Hcv Hfw Haf Hfr Hc Hw.
  generalize (MMM_Birthday.stopCelebration w).
  intros ws Hm Hwr Hf Hp Ha Hcv Hfw Haf Hfr Hc Hw.
  unfold MMM_Birthday.stopCelebration.
  assert (E1 : MMM_Birthday.set_display "none" ws = ws).
  { unfold MMM_Birthday.set_display.
    destruct (wrapper ws) as [el|] eqn:E; [|reflexivity].
    apply set_wrapper_same. rewrite E.
    destruct (wrapper w); cbn in Hwr; [|discriminate].
    injection Hwr as ->. reflexivity. }
  rewrite E1.
  rewrite (set_modules_same ws) by (rewrite Hm at 2; rewrite Hm, Hr; reflexivity).
  rewrite (set_celebrating_same ws) by exact Hc.
  rewrite (set_wasCelebrating_same ws) by exact Hw.
  assert (E2 : match fireworks ws with
               | Some _ => Fireworks.cleanup ws
               | None => ws
               end = ws).
  { unfold Fireworks.cleanup.
    destruct (fireworks ws) as [this|] eqn:E; [|reflexivity].
    destruct Hfw as (He & Hro & Hsp).
    rewrite (set_fireworks_same ws)
      by (rewrite E; destruct this; cbn in *; rewrite He; reflexivity).
    rewrite (set_rockets_same ws) by exact Hro.
    apply set_sparks_same. exact Hsp. }
  rewrite E2.
  unfold Confetti.cleanup, Confetti.cancelAnimationFrame.
  rewrite (set_isAnimating_same ws) by exact Ha.
  assert (E3 : match animationFrame ws with
               | Some id =>
                   set_frames
                     (filter (fun i => negb (Nat.eqb i id)) (frames ws)) ws
               | None => ws
               end = ws).
  { rewrite Haf. destruct (animationFrame w) as [id|]; [|reflexivity].
    apply set_frames_same. rewrite Hfr at 2. rewrite Hfr.
    rewrite filter_idempotent. reflexivity. }
  rewrite E3.
  rewrite (set_particles_same ws) by exact Hp.
  apply set_canvasAttached_same. exact Hcv.
Qed.

Lemma fireBurst_idle (rt : JsRuntime) (isInfinite : bool) (end_ : Deadline)
    (now : Q) (w : World) :
  celebrating w = false ->
  MMM_Birthday.fireBurst rt isInfinite end_ now w = w.
Proof.
  intros Hc. unfold MMM_Birthday.fireBurst. rewrite Hc. reflexivity.
Qed.

Lemma launchNext_down (rt : JsRuntime) (now : Q) (w : World) :
  emitters_down w -> 0 <= now -> Fireworks.launchNext rt now w = w.
Proof.
  intros (_ & _ & _ & Hf) Hnow.
  destruct (fireworks w) as [this|] eqn:Ef.
  - destruct Hf as (He & _).
    exact (launchNext_expired rt now 0 w this Ef He Hnow).
  - unfold Fireworks.launchNext. rewrite Ef. reflexivity.
Qed.

(** X9: [stopCelebration] ends the celebration whatever state it is
    called in: both session flags are cleared, the display is hidden with
    its message left in place, both emitters are torn down, and no pending
    timeout is cancelled.  The callbacks still pending are without effect
    on the state it leaves: [fireBurst] and (from time 0 on) [launchNext]
    return at once, and so do [suspend], [resume] and a second
    [stopCelebration]. *)
Theorem stopCelebration_ends (rt : JsRuntime) (w : World) :
  let ws := MMM_Birthday.stopCelebration w in
  celebrating ws = false /\ wasCelebrating ws = false
  /\ hidden ws
  /\ wrapper ws
     = option_map (fun el => {| display := "none"; message := message el |})
         (wrapper w)
  /\ emitters_down ws
  /\ timeouts ws = timeouts w
  /\ MMM_Birthday.stopCelebration ws = ws
  /\ MMM_Birthday.suspend ws = ws
  /\ (forall now, MMM_Birthday.resume rt now ws = (ws, MMM_Birthday.Normal))
  /\ (forall isInfinite end_ now,
        MMM_Birthday.fireBurst rt isInfinite end_ now ws = ws)
  /\ (forall now, 0 <= now -> Fireworks.launchNext rt now ws = ws).
Proof.
  cbv zeta.
  destruct (stopCelebration_flags w) as (Hc & Hw).
  destruct (stopCelebration_fields w) as (_ & Ht & _ & _ & _ & Hwr & _ & Hd).
  pose proof (stopCelebration_idempotent w) as Hi.
  revert Hc Hw Ht Hwr Hd Hi.
  generalize (MMM_Birthday.stopCelebration w). intros ws Hc Hw Ht Hwr Hd Hi.
  split; [exact Hc|]. split; [exact Hw|].
  split; [unfold hidden; rewrite Hwr; destruct (wrapper w); reflexivity|].
  split; [exact Hwr|]. split; [exact Hd|]. split; [exact Ht|].
  split; [exact Hi|].
  split; [unfold MMM_Birthday.suspend; rewrite Hc; reflexivity|].
  split; [intros now; unfold MMM_Birthday.resume; rewrite Hw; reflexivity|].
  split; [intros i e now; apply fireBurst_idle, Hc|].
  intros now Hnow. apply launchNext_down; assumption.
Qed.

(** ** Suspension, and what a restart leaves pending *)

(** X10: [suspend] during a celebration records it in [_wasCelebrating],
    clears [celebrating], hides the display and tears both emitters down.
    It cancels no pending timeout (the [stopCelebration] timer among them)
    and leaves the other modules as they are, dimmed.  On the state it
    leaves, the pending [fireBurst] and [launchNext] callbacks, a second
    [suspend] and every periodic check return without effect. *)
Theorem suspend_leaves (rt : JsRuntime) (w : World) :
  celebrating w = true ->
  let s := MMM_Birthday.suspend w in
  celebrating s = false /\ wasCelebrating s = true
  /\ hidden s
  /\ emitters_down s
  /\ modules s = modules w
  /\ timeouts s = timeouts w
  /\ MMM_Birthday.suspend s = s
  /\ (forall isInfinite end_ now,
        MMM_Birthday.fireBurst rt isInfinite end_ now s = s)
  /\ (forall now, 0 <= now -> Fireworks.launchNext rt now s = s)
  /\ (forall month day now,
        MMM_Birthday.checkBirthdays rt month day now s
        = (s, MMM_Birthday.Normal)).
Proof.
  intros Hcel. cbv zeta.
  destruct (suspend_flags w) as (_ & Hfl). destruct (Hfl Hcel) as (Hc & Hw).
  destruct (suspend_fields w Hcel) as (Hm & Ht & _ & _ & _ & Hwr & _ & Hd).
  revert Hc Hw Hm Ht Hwr Hd.
  generalize (MMM_Birthday.suspend w). intros s Hc Hw Hm Ht Hwr Hd.
  split; [exact Hc|]. split; [exact Hw|].
  split; [unfold hidden; rewrite Hwr; destruct (wrapper w); reflexivity|].
  split; [exact Hd|]. split; [exact Hm|]. split; [exact Ht|].
  split; [unfold MMM_Birthday.suspend; rewrite Hc; reflexivity|].
  split; [intros i e now; apply fireBurst_idle, Hc|].
  split; [intros now Hnow; apply launchNext_down; assumption|].
  intros month day now. unfold MMM_Birthday.checkBirthdays.
  destruct (birthdays (config s)); [|reflexivity].
  apply forEach_birthday_busy. rewrite Hw. apply orb_true_r.
Qed.

Lemma suspend_leaves_witness :
  let s := MMM_Birthday.suspend anna_started in
  celebrating s = false /\ wasCelebrating s = true
  /\ hidden s
  /\ emitters_down s
  /\ modules s = modules anna_started
  /\ timeouts s = timeouts anna_started
  /\ MMM_Birthday.suspend s = s
  /\ (forall isInfinite end_ now,
        MMM_Birthday.fireBurst sample_runtime isInfinite end_ now s = s)
  /\ (forall now, 0 <= now -> Fireworks.launchNext sample_runtime now s = s)
  /\ (forall month day now,
        MMM_Birthday.checkBirthdays sample_runtime month day now s
        = (s, MMM_Birthday.Normal)).
Proof.
  apply (suspend_leaves sample_runtime anna_started). vm_compute. reflexivity.
Defined.

(** X11: a finite celebration starts over at the next check of the same
    day.  [stopCelebration] clears both flags and keeps no record of the
    celebration, so a check that finds a birthday dated today celebrates
    it again, from the start and for the first such birthday in the
    list. *)
Theorem celebration_repeats (rt : JsRuntime) (month day : nat) (now : Q)
    (w : World) (pre post : list Birthday) (b : Birthday) :
  random_ok rt ->
  translate w <> TrMessages [] ->
  birthdays (config w) = Some (pre ++ b :: post) ->
  forallb (fun b' => negb (dated (MMM_Birthday.currentDate month day) b'))
    pre = true ->
  dated (MMM_Birthday.currentDate month day) b = true ->
  let ws := MMM_Birthday.stopCelebration w in
  let r := MMM_Birthday.checkBirthdays rt month day now ws in
  snd r = MMM_Birthday.Normal
  /\ celebrating (fst r) = true
  /\ celebrated (fst r) = celebrated w ++ [ActCelebrate (Some (b_name b))]
  /\ fireworks (fst r)
     = Some {| colors := match fireworks w with
                         | Some this => colors this
                         | None => Fireworks.palette
                         end;
               endTime := end_of (fireworkDuration (config w)) now |}.
Proof.
  intros Hr Htr Hbs Hpre Hb. cbv zeta.
  destruct (stopCelebration_flags w) as (Hc & Hw).
  destruct (stopCelebration_fields w) as (_ & _ & Hcfg & Htra & Hlog & _ & Hf & _).
  revert Hc Hw Hcfg Htra Hlog Hf.
  generalize (MMM_Birthday.stopCelebration w).
  intros ws Hc Hw Hcfg Htra Hlog Hf.
  rewrite <- Hcfg in Hbs.
  rewrite (checkBirthdays_first rt month day now ws pre post b
             Hbs Hpre Hb Hc Hw).
  assert (Htr' : translate (set_celebrating true ws) <> TrMessages [])
    by (change (translate (set_celebrating true ws)) with (translate ws);
        rewrite Htra; exact Htr).
  destruct (celebrateBirthday_spec rt (Some (b_name b)) now
              (set_celebrating true ws) Hr Htr')
    as (S1 & S2 & _ & _ & S5 & _).
  destruct (celebrateBirthday_ctl rt (Some (b_name b)) now
              (set_celebrating true ws)) as (_ & _ & Hc' & _).
  cbv zeta in S1, S2, S5.
  change (fireworks (set_celebrating true ws)) with (fireworks ws) in S5.
  change (config (set_celebrating true ws)) with (config ws) in S5.
  change (celebrated (set_celebrating true ws)) with (celebrated ws) in S2.
  revert S1 S2 S5 Hc'.
  generalize (MMM_Birthday.celebrateBirthday rt (Some (b_name b)) now
                (set_celebrating true ws)).
  intros [w' c]. cbn [fst snd]. intros S1 S2 S5 Hc'.
  split; [exact S1|]. split; [exact Hc'|].
  split; [rewrite S2; unfold celebrated; rewrite Hlog; reflexivity|].
  rewrite S5, Hf, Hcfg. destruct (fireworks w); reflexivity.
Qed.

Lemma celebration_repeats_witness :
  let ws := MMM_Birthday.stopCelebration anna_started in
  let r := MMM_Birthday.checkBirthdays sample_runtime 11 25 61000 ws in
  snd r = MMM_Birthday.Normal
  /\ celebrating (fst r) = true
  /\ celebrated (fst r)
     = celebrated anna_started ++ [ActCelebrate (Some "Anna"%string)]
  /\ fireworks (fst r)
     = Some {| colors := match fireworks anna_started with
                         | Some this => colors this
                         | None => Fireworks.palette
                         end;
               endTime := end_of (fireworkDuration (config anna_started))
                            61000 |}.
Proof.
  apply (celebration_repeats sample_runtime 11 25 61000 anna_started
           [] [] {| b_name := "Anna"; b_date := "12-25" |}
           sample_runtime_ok).
  - vm_compute. discriminate.
  - vm_compute. reflexivity.
  - reflexivity.
  - reflexivity.
Defined.

Lemma set_display_fields (d : string) (w : World) :
  timeouts (MMM_Birthday.set_display d w) = timeouts w
  /\ config (MMM_Birthday.set_display d w) = config w
  /\ translate (MMM_Birthday.set_display d w) = translate w
  /\ fireworks (MMM_Birthday.set_display d w) = fireworks w
  /\ celebrating (MMM_Birthday.set_display d w) = celebrating w
  /\ wasCelebrating (MMM_Birthday.set_display d w) = wasCelebrating w.
Proof.
  unfold MMM_Birthday.set_display. destruct (wrapper w); repeat split.
Qed.

(** X12: [suspend] cancels no timer and [resume] starts the celebration
    from scratch, so a suspension adds to what is pending: after
    [suspend] and [resume] every timeout that was pending is still
    pending, and one more [fireBurst] chain, one more [launchNext] chain
    (when the new end time lies ahead) and, for a finite duration, one
    more [stopCelebration] timer have been added; [celebrating] is set
    again, so the chains from before the suspension go on beside the new
    ones. *)
Theorem resume_adds_chains (rt : JsRuntime) (now : Q) (w : World) :
  random_ok rt ->
  translate w <> TrMessages [] ->
  celebrating w = true ->
  let r := MMM_Birthday.resume rt now (MMM_Birthday.suspend w) in
  snd r = MMM_Birthday.Normal
  /\ celebrating (fst r) = true
  /\ wasCelebrating (fst r) = false
  /\ (exists added, timeouts (fst r) = timeouts w ++ added)
  /\ pending_bursts (fst r) = S (pending_bursts w)
  /\ pending_launches (fst r)
     = (pending_launches w
        + if before now (end_of (fireworkDuration (config w)) now)
          then 1 else 0)%nat
  /\ pending_stops (fst r)
     = (pending_stops w
        + match fireworkDuration (config w) with
          | Infinite => 0
          | Millis _ => 1
          end)%nat.
Proof.
  intros Hr Htr Hcel. cbv zeta.
  destruct (suspend_flags w) as (_ & Hfl). destruct (Hfl Hcel) as (_ & Hw).
  destruct (suspend_fields w Hcel) as (_ & Ht & Hcfg & Htra & _).
  revert Hw Ht Hcfg Htra.
  generalize (MMM_Birthday.suspend w). intros s Hw Ht Hcfg Htra.
  unfold MMM_Birthday.resume. rewrite Hw.
  match goal with
  | |- context [MMM_Birthday.celebrateBirthday rt None now ?W] =>
      assert (H0 : timeouts W = timeouts w /\ config W = config w
                   /\ translate W = translate w
                   /\ celebrating W = true /\ wasCelebrating W = false);
      [|revert H0; generalize W; intros w0 (T0 & C0 & R0 & F0 & G0)]
  end.
  { match goal with |- context [MMM_Birthday.set_display ?d ?W] =>
      destruct (set_display_fields d W) as (A1 & A2 & A3 & _ & A5 & A6) end.
    rewrite A1, A2, A3, A5, A6. cbn. repeat split; assumption. }
  assert (Htr0 : translate w0 <> TrMessages []) by (rewrite R0; exact Htr).
  destruct (celebrateBirthday_spec rt None now w0 Hr Htr0)
    as (S1 & _ & _ & _ & _ & _ & _ & _ & _ & _ & extra & S11 & E1 & E2 & E3).
  destruct (celebrateBirthday_ctl rt None now w0) as (_ & _ & Hc' & Hw' & _).
  cbv zeta in S1, S11. rewrite C0, T0 in S11. rewrite C0 in E3.
  revert S1 S11 Hc' Hw'.
  generalize (MMM_Birthday.celebrateBirthday rt None now w0).
  intros [w' c]. cbn [fst snd]. intros S1 S11 Hc' Hw'.
  split; [exact S1|]. split; [rewrite Hc'; exact F0|].
  split; [rewrite Hw'; exact G0|].
  split; [eexists; exact S11|].
  unfold pending_bursts, pending_launches, pending_stops.
  rewrite S11, !filter_app, !length_app, E1, E2, E3.
  destruct (fireworkDuration (config w)), (confettiDuration (config w)),
    (before now _); cbn; repeat split; lia.
Qed.

Lemma resume_adds_chains_witness :
  let r := MMM_Birthday.resume sample_runtime 3000
             (MMM_Birthday.suspend anna_started) in
  snd r = MMM_Birthday.Normal
  /\ celebrating (fst r) = true
  /\ wasCelebrating (fst r) = false
  /\ (exists added, timeouts (fst r) = timeouts anna_started ++ added)
  /\ pending_bursts (fst r) = S (pending_bursts anna_started)
  /\ pending_launches (fst r)
     = (pending_launches anna_started
        + if before 3000
               (end_of (fireworkDuration (config anna_started)) 3000)
          then 1 else 0)%nat
  /\ pending_stops (fst r)
     = (pending_stops anna_started
        + match fireworkDuration (config anna_started) with
          | Infinite => 0
          | Millis _ => 1
          end)%nat.
Proof.
  apply (resume_adds_chains sample_runtime 3000 anna_started
           sample_runtime_ok).
  - vm_compute. discriminate.
  - vm_compute. reflexivity.
Defined.

(** ** The confetti loop in every reachable state *)

Lemma same_loop_refl (w : World) : same_loop w w.
Proof. repeat split. Qed.

Lemma same_loop_trans (w1 w2 w3 : World) :
  same_loop w1 w2 -> same_loop w2 w3 -> same_loop w1 w3.
Proof.
  intros (A1 & A2 & A3 & A4) (B1 & B2 & B3 & B4).
  repeat split; congruence.
Qed.

Lemma outside_fireworks_loop (w w' : World) :
  outside_fireworks w w' -> same_loop w w'.
Proof.
  intros (A1 & A2 & A3 & A4 & _). repeat split; assumption.
Qed.

Lemma loop_ok_same (w w' : World) :
  same_loop w w' -> loop_ok w -> loop_ok w'.
Proof.
  intros (A1 & A2 & A3 & A4) (H1 & H2 & H3).
  unfold loop_ok. rewrite A1, A2, A3, A4.
  split; [exact H1|]. split; [exact H2|exact H3].
Qed.

Lemma set_display_loop (d : string) (w : World) :
  same_loop w (MMM_Birthday.set_display d w).
Proof.
  unfold MMM_Birthday.set_display. destruct (wrapper w); repeat split.
Qed.

Lemma celebrateBirthday_loop (rt : JsRuntime) (name : option string)
    (now : Q) (w : World) :
  same_loop w (fst (MMM_Birthday.celebrateBirthday rt name now w)).
Proof.
  unfold MMM_Birthday.celebrateBirthday. cbv zeta.
  match goal with
  | |- context [MMM_Birthday.getRandomMessage rt name ?W] =>
      assert (H4 : same_loop w W);
      [|revert H4; generalize W; intros w4 H4]
  end.
  { cbn. destruct (fireworks w) eqn:Ef, (wrapper w) eqn:Ew;
      do 3 (cbn; rewrite ?Ef, ?Ew); repeat split. }
  rewrite getRandomMessage_state.
  destruct (fst (MMM_Birthday.getRandomMessage rt name w4)) as [text|];
    cbn [fst]; [|eapply same_loop_trans; [exact H4|repeat split]].
  unfold MMM_Birthday.startFireworks.
  match goal with
  | |- context [Fireworks.start rt ?d now ?W] =>
      assert (H6 : same_loop w W)
        by (eapply same_loop_trans; [exact H4|repeat split]);
      pose proof (outside_fireworks_loop _ _
                    (Fireworks_start_outside rt d now W)) as H7;
      revert H7; generalize (Fireworks.start rt d now W); intros w7 H7
  end.
  eapply same_loop_trans; [exact H6|].
  eapply same_loop_trans; [exact H7|].
  unfold MMM_Birthday.startConfetti. cbn [config setTimeout set_timeouts].
  destruct (fireworkDuration (config w7)); repeat split.
Qed.

Lemma forEach_birthday_loop (rt : JsRuntime) (bs : list Birthday)
    (today : string) (now : Q) :
  forall w,
  same_loop w (fst (MMM_Birthday.forEach_birthday rt bs today now w)).
Proof.
  induction bs as [|b bs IH]; intros w; [apply same_loop_refl|].
  cbn [MMM_Birthday.forEach_birthday].
  destruct (String.eqb (b_date b) today && negb (celebrating w)
            && negb (wasCelebrating w)); [|apply IH].
  pose proof (celebrateBirthday_loop rt (Some (b_name b)) now
                (set_celebrating true w)) as H.
  revert H.
  generalize (MMM_Birthday.celebrateBirthday rt (Some (b_name b)) now
                (set_celebrating true w)).
  intros [w' c] H. cbn [fst snd] in *.
  assert (H' : same_loop w w')
    by (eapply same_loop_trans; [|exact H]; repeat split).
  destruct c; [|exact H'].
  eapply same_loop_trans; [exact H'|apply IH].
Qed.

Lemma checkBirthdays_loop (rt : JsRuntime) (month day : nat) (now : Q)
    (w : World) :
  same_loop w (fst (MMM_Birthday.checkBirthdays rt month day now w)).
Proof.
  unfold MMM_Birthday.checkBirthdays.
  destruct (birthdays (config w)); [|apply same_loop_refl].
  apply forEach_birthday_loop.
Qed.

Lemma resume_loop (rt : JsRuntime) (now : Q) (w : World) :
  same_loop w (fst (MMM_Birthday.resume rt now w)).
Proof.
  unfold MMM_Birthday.resume.
  destruct (wasCelebrating w); [|apply same_loop_refl].
  match goal with
  | |- context [MMM_Birthday.celebrateBirthday rt None now ?W] =>
      apply same_loop_trans with W; [|apply celebrateBirthday_loop]
  end.
  eapply same_loop_trans; [|apply set_display_loop]. repeat split.
Qed.

Lemma Confetti_cleanup_loop_ok (w : World) :
  loop_ok w -> loop_ok (Confetti.cleanup w).
Proof.
  intros (H1 & H2 & _).
  unfold Confetti.cleanup, Confetti.cancelAnimationFrame, loop_ok.
  assert (Hfr : match animationFrame w with
                | Some id => filter (fun i => negb (Nat.eqb i id)) (frames w)
                | None => frames w
                end = []).
  { destruct (isAnimating w) eqn:Ea.
    - destruct (H2 eq_refl) as (id & Hf & Haf). rewrite Haf, Hf. cbn.
      rewrite Nat.eqb_refl. reflexivity.
    - destruct (H1 eq_refl) as (_ & Hf). rewrite Hf.
      destruct (animationFrame w); reflexivity. }
  cbv zeta.
  change (animationFrame (set_isAnimating false w)) with (animationFrame w).
  destruct (animationFrame w) as [id|]; cbn; cbn in Hfr; rewrite ?Hfr;
    (split; [intros _; split; reflexivity|]);
    (split; [discriminate | intros p []]).
Qed.

Lemma Fireworks_cleanup_loop (w : World) :
  same_loop w (match fireworks w with
               | Some _ => Fireworks.cleanup w
               | None => w
               end).
Proof.
  destruct (fireworks w) eqn:E; [|apply same_loop_refl].
  apply outside_fireworks_loop, Fireworks_cleanup_outside.
Qed.

Lemma stopCelebration_loop_ok (w : World) :
  loop_ok w -> loop_ok (MMM_Birthday.stopCelebration w).
Proof.
  intros H. unfold MMM_Birthday.stopCelebration. cbv zeta.
  apply Confetti_cleanup_loop_ok.
  match goal with |- loop_ok (match fireworks ?W with _ => _ end) =>
    apply loop_ok_same with W; [apply Fireworks_cleanup_loop|] end.
  eapply loop_ok_same; [|exact H].
  eapply same_loop_trans; [apply (set_display_loop "none" w)|repeat split].
Qed.

Lemma suspend_loop_ok (w : World) :
  loop_ok w -> loop_ok (MMM_Birthday.suspend w).
Proof.
  intros H. unfold MMM_Birthday.suspend. cbv zeta.
  destruct (celebrating w); [|exact H].
  match goal with
  | |- loop_ok (set_celebrating false (MMM_Birthday.set_display ?d ?W)) =>
      apply loop_ok_same with W;
        [eapply same_loop_trans; [apply (set_display_loop d W)|repeat split]|]
  end.
  apply Confetti_cleanup_loop_ok.
  match goal with |- loop_ok (match fireworks ?W with _ => _ end) =>
    apply loop_ok_same with W; [apply Fireworks_cleanup_loop|] end.
  eapply loop_ok_same; [|exact H]. repeat split.
Qed.

Lemma new_constructed (rt : JsRuntime) (width height : Q)
    (options : ParticleOptions) (n : nat) :
  constructed (Particle.new rt width height options n).
Proof. split; reflexivity. Qed.

Lemma live_constructed (rt : JsRuntime) (height : Q) (ps : list Particle) :
  (forall p, In p ps -> constructed p) ->
  forall p, In p (Confetti.live rt height ps) -> constructed p.
Proof.
  intros H p Hin.
  destruct (live_survivors rt height ps p Hin) as (p0 & Hin0 & -> & _).
  apply update_constructed, H, Hin0.
Qed.

Lemma animate_loop_ok (rt : JsRuntime) (w : World) :
  isAnimating w = true -> frames w = [] ->
  (forall p, In p (particles w) -> constructed p) ->
  loop_ok (Confetti.animate rt w).
Proof.
  intros Ha Hf Hc.
  destruct (animate_spec rt w Ha) as (A & _ & _ & B & C). cbv zeta in *.
  pose proof (live_constructed rt (c_height w) (particles w) Hc) as Hl.
  revert A B C. generalize (Confetti.animate rt w). intros w' A B C.
  unfold loop_ok. rewrite A.
  destruct (Confetti.live rt (c_height w) (particles w)) as [|p ps] eqn:E.
  - destruct (B eq_refl) as (B1 & B2). rewrite B1, B2, Hf.
    split; [intros _; split; reflexivity|].
    split; [discriminate | intros p []].
  - destruct C as (C1 & C2 & C3); [discriminate|]. rewrite C1, C2, C3, Hf.
    split; [discriminate|].
    split; [intros _; exists (nextFrame w); split; reflexivity|exact Hl].
Qed.

Lemma push_loop_spec (rt : JsRuntime) (left : bool) (n start : nat)
    (w : World) :
  let w' := for_loop n start (Confetti.push_particle rt left) w in
  isAnimating w' = isAnimating w
  /\ frames w' = frames w
  /\ animationFrame w' = animationFrame w
  /\ ((forall p, In p (particles w) -> constructed p) ->
      forall p, In p (particles w') -> constructed p).
Proof.
  cbv zeta.
  apply for_loop_invariant
    with (P := fun w' =>
                 isAnimating w' = isAnimating w
                 /\ frames w' = frames w
                 /\ animationFrame w' = animationFrame w
                 /\ ((forall p, In p (particles w) -> constructed p) ->
                     forall p, In p (particles w') -> constructed p)).
  - intros i w' (A1 & A2 & A3 & A4).
    unfold Confetti.push_particle. cbn.
    split; [exact A1|]. split; [exact A2|]. split; [exact A3|].
    intros Hc p Hin. apply in_app_or in Hin. destruct Hin as [Hin | [<- | []]].
    + apply A4; assumption.
    + apply new_constructed.
  - split; [reflexivity|]. split; [reflexivity|]. split; [reflexivity|].
    intros Hc. exact Hc.
Qed.

Lemma fire_loop_ok (rt : JsRuntime) (w : World) :
  loop_ok w -> loop_ok (Confetti.fire rt w).
Proof.
  intros (H1 & H2 & H3). unfold Confetti.fire. cbv zeta.
  assert (H0 : isAnimating (set_log (log w ++ [ActBurst]) w) = isAnimating w
               /\ frames (set_log (log w ++ [ActBurst]) w) = frames w
               /\ animationFrame (set_log (log w ++ [ActBurst]) w)
                  = animationFrame w
               /\ forall p, In p (particles (set_log (log w ++ [ActBurst]) w))
                            -> constructed p)
    by (split; [reflexivity|]; split; [reflexivity|];
        split; [reflexivity|exact H3]).
  revert H0. generalize (set_log (log w ++ [ActBurst]) w).
  intros w0 (A1 & A2 & A3 & A4).
  destruct (push_loop_spec rt true Confetti.burstCount 0 w0)
    as (B1 & B2 & B3 & B4).
  cbv zeta in *. specialize (B4 A4). revert B1 B2 B3 B4.
  generalize (for_loop Confetti.burstCount 0
                (Confetti.push_particle rt true) w0).
  intros w1 B1 B2 B3 B4.
  destruct (push_loop_spec rt false Confetti.burstCount 0 w1)
    as (C1 & C2 & C3 & C4).
  cbv zeta in *. specialize (C4 B4). revert C1 C2 C3 C4.
  generalize (for_loop Confetti.burstCount 0
                (Confetti.push_particle rt false) w1).
  intros w2 C1 C2 C3 C4.
  assert (Ea : isAnimating w2 = isAnimating w) by congruence.
  assert (Ef : frames w2 = frames w) by congruence.
  assert (Eaf : animationFrame w2 = animationFrame w) by congruence.
  destruct (isAnimating w2) eqn:E; cbn [negb].
  - unfold loop_ok. rewrite E, Ef, Eaf.
    split; [discriminate|]. split; [|exact C4].
    intros _. apply H2. congruence.
  - apply animate_loop_ok; [reflexivity| |exact C4].
    cbn. rewrite Ef. apply H1. congruence.
Qed.

Lemma fireBurst_loop_ok (rt : JsRuntime) (isInfinite : bool)
    (end_ : Deadline) (now : Q) (w : World) :
  loop_ok w -> loop_ok (MMM_Birthday.fireBurst rt isInfinite end_ now w).
Proof.
  intros H. unfold MMM_Birthday.fireBurst. cbv zeta.
  destruct (celebrating w && (isInfinite || before now end_)); [|exact H].
  pose proof (fire_loop_ok rt w H) as Hf. revert Hf.
  generalize (Confetti.fire rt w). intros w1 Hf.
  eapply loop_ok_same; [|exact Hf]. repeat split.
Qed.

Lemma run_callback_loop_ok (rt : JsRuntime) (cb : Callback)
    (now rect_top : Q) (w : World) :
  loop_ok w -> loop_ok (run_callback rt cb now rect_top w).
Proof.
  intros H. destruct cb; cbn [run_callback].
  - eapply loop_ok_same; [|exact H].
    apply outside_fireworks_loop, launchNext_outside.
  - eapply loop_ok_same; [|exact H].
    apply outside_fireworks_loop, explode_outside.
  - eapply loop_ok_same; [|exact H]. repeat split.
  - eapply loop_ok_same; [|exact H]. repeat split.
  - eapply loop_ok_same; [|exact H]. repeat split.
  - apply fireBurst_loop_ok, H.
  - apply stopCelebration_loop_ok, H.
Qed.

Lemma frame_loop_ok (rt : JsRuntime) (w : World) :
  loop_ok w -> loop_ok (step rt EvFrame w).
Proof.
  intros (H1 & H2 & H3). cbn [step].
  destruct (isAnimating w) eqn:Ea.
  - destruct (H2 eq_refl) as (id & Hf & _). rewrite Hf.
    cbn [List.length for_loop].
    apply animate_loop_ok; [exact Ea|reflexivity|exact H3].
  - destruct (H1 eq_refl) as (Hp & Hf). rewrite Hf.
    cbn [List.length for_loop]. unfold loop_ok. cbn. rewrite Ea, Hp.
    split; [intros _; split; reflexivity|].
    split; [discriminate | intros p []].
Qed.

Lemma step_loop_ok (rt : JsRuntime) (ev : Event) (w : World) :
  loop_ok w -> loop_ok (step rt ev w).
Proof.
  intros H. destruct ev as [k now top|month day now| | |now|width height].
  - cbn [step]. destruct (nth_error (timeouts w) k) as [[due cb]|]; [|exact H].
    destruct (Qle_bool due now); [|exact H].
    apply run_callback_loop_ok. eapply loop_ok_same; [|exact H]. repeat split.
  - cbn [step]. destruct (0 <? intervals w)%nat; [|exact H].
    eapply loop_ok_same; [apply checkBirthdays_loop|exact H].
  - apply frame_loop_ok, H.
  - apply suspend_loop_ok, H.
  - cbn [step]. eapply loop_ok_same; [apply resume_loop|exact H].
  - cbn [step]. eapply loop_ok_same; [|exact H]. repeat split.
Qed.

Lemma reachable_loop_ok (rt : JsRuntime) (w : World) :
  Reachable rt w -> loop_ok w.
Proof.
  induction 1 as [cfg tr width height mods wr month day now
                 |ev w _ IH|month day now w _ IH|w _ IH|now w _ IH|w _ IH].
  - unfold MMM_Birthday.start, MMM_Birthday.scheduleNextCheck. cbv zeta.
    eapply loop_ok_same; [apply checkBirthdays_loop|].
    split; [intros _; split; reflexivity|].
    split; [discriminate | intros p []].
  - apply step_loop_ok, IH.
  - eapply loop_ok_same; [apply checkBirthdays_loop|exact IH].
  - apply suspend_loop_ok, IH.
  - eapply loop_ok_same; [apply resume_loop|exact IH].
  - apply stopCelebration_loop_ok, IH.
Qed.

(** X13: in every state the module can be in between turns of the event
    loop, the confetti loop is consistent: when [isAnimating] is false
    there is no particle and no frame is requested; when it is true
    exactly one frame is requested, the one [animationFrame] holds; and
    every live particle has the constructor's gravity and drag.  Hence
    from any reachable state, with no further event but display frames,
    the loop stops: after as many frames as the longest lifetime in the
    live set no particle is left, [isAnimating] is false and no frame is
    pending. *)
Theorem confetti_loop_invariant (rt : JsRuntime) (w : World) :
  Reachable rt w ->
  loop_ok w
  /\ forall n, (max_lifetime rt (c_height w) (particles w) <= n)%nat ->
       halted (run rt (repeat EvFrame n) w).
Proof.
  intros HR. pose proof (reachable_loop_ok rt w HR) as Hok.
  split; [exact Hok|]. destruct Hok as (H1 & H2 & H3).
  intros n Hn.
  destruct (isAnimating w) eqn:Ea.
  - destruct (H2 eq_refl) as (id & Hf & _).
    destruct (max_lifetime_ge rt (c_height w) (particles w)) as [Hone Hall].
    apply (frames_drain rt n w);
      [lia | exact Ea | rewrite Hf; reflexivity |].
    intros p Hin.
    destruct (lifetime_spec rt (c_height w) p (H3 p Hin)) as [_ Hl].
    specialize (Hall p Hin).
    destruct (survives rt (c_height w) n p) eqn:E; [|reflexivity].
    apply Hl in E. lia.
  - destruct (H1 eq_refl) as (Hp & Hf).
    rewrite halted_stays; repeat split; assumption.
Qed.

Lemma confetti_loop_invariant_witness :
  loop_ok anna_started
  /\ forall n,
       (max_lifetime sample_runtime (c_height anna_started)
          (particles anna_started) <= n)%nat ->
       halted (run sample_runtime (repeat EvFrame n) anna_started).
Proof.
  exact (confetti_loop_invariant sample_runtime anna_started
           (R_start sample_runtime anna_config TrMissing 1920 1080 [] None
              11 25 1000)).
Defined.

(** ** A confetti burst (Confetti.fire, the Particle constructor) *)

Lemma push_loop_closed (rt : JsRuntime) (left : bool) (n : nat) :
  forall start w,
  let w' := for_loop n start (Confetti.push_particle rt left) w in
  particles w'
  = particles w ++ cannon_particles rt (c_width w) (c_height w) left (rng w) n
  /\ rng w' = (rng w + 7 * n)%nat
  /\ c_width w' = c_width w /\ c_height w' = c_height w
  /\ isAnimating w' = isAnimating w
  /\ frames w' = frames w /\ nextFrame w' = nextFrame w
  /\ animationFrame w' = animationFrame w.
Proof.
  cbv zeta. induction n as [|n IH]; intros start w.
  - cbn. rewrite app_nil_r, Nat.add_0_r. repeat split.
  - cbn [for_loop].
    destruct (IH (S start) (Confetti.push_particle rt left start w))
      as (A1 & A2 & A3 & A4 & A5 & A6 & A7 & A8).
    revert A1 A2 A3 A4 A5 A6 A7 A8.
    generalize (for_loop n (S start) (Confetti.push_particle rt left)
                  (Confetti.push_particle rt left start w)).
    intros w' A1 A2 A3 A4 A5 A6 A7 A8.
    unfold Confetti.push_particle in A1, A2, A3, A4, A5, A6, A7, A8.
    cbn [particles rng c_width c_height isAnimating frames nextFrame
         animationFrame set_particles set_rng] in *.
    split.
    { rewrite A1, <- app_assoc. f_equal.
      unfold cannon_particles. cbn [seq map app].
      rewrite Nat.mul_0_r, Nat.add_0_r. f_equal.
      rewrite <- seq_shift, map_map. apply map_ext. intros k.
      f_equal. lia. }
    split; [rewrite A2; lia|].
    repeat split; assumption.
Qed.

Lemma animate_rng (rt : JsRuntime) (w : World) :
  rng (Confetti.animate rt w) = rng w.
Proof.
  unfold Confetti.animate. destruct (negb (isAnimating w)); [reflexivity|].
  cbv zeta. destruct (0 <? _)%nat; reflexivity.
Qed.

(** X14: one call of [fire] constructs exactly 30 particles, 15 for the
    left cannon and then 15 for the right one, each from seven draws of
    its own, 210 draws in all.  When the loop is running they are added
    after the live particles and no frame is requested; when it is not,
    the loop is started and they get their first update at once. *)
Theorem fire_adds_burst (rt : JsRuntime) (w : World) :
  let added := burst_particles rt w in
  List.length added = 30%nat
  /\ rng (Confetti.fire rt w) = (rng w + 210)%nat
  /\ (isAnimating w = true ->
      particles (Confetti.fire rt w) = particles w ++ added
      /\ frames (Confetti.fire rt w) = frames w
      /\ isAnimating (Confetti.fire rt w) = true)
  /\ (isAnimating w = false ->
      particles (Confetti.fire rt w)
      = Confetti.live rt (c_height w) (particles w ++ added)).
Proof.
  cbv zeta.
  split.
  { unfold burst_particles, cannon_particles.
    rewrite length_app, !length_map, !length_seq. reflexivity. }
  unfold Confetti.fire. cbv zeta.
  assert (H0 : particles (set_log (log w ++ [ActBurst]) w) = particles w
               /\ rng (set_log (log w ++ [ActBurst]) w) = rng w
               /\ c_width (set_log (log w ++ [ActBurst]) w) = c_width w
               /\ c_height (set_log (log w ++ [ActBurst]) w) = c_height w
               /\ isAnimating (set_log (log w ++ [ActBurst]) w)
                  = isAnimating w
               /\ frames (set_log (log w ++ [ActBurst]) w) = frames w)
    by (repeat split).
  revert H0. generalize (set_log (log w ++ [ActBurst]) w).
  intros w0 (Z1 & Z2 & Z3 & Z4 & Z5 & Z6).
  destruct (push_loop_closed rt true Confetti.burstCount 0 w0)
    as (A1 & A2 & A3 & A4 & A5 & A6 & _).
  cbv zeta in *. revert A1 A2 A3 A4 A5 A6.
  generalize (for_loop Confetti.burstCount 0
                (Confetti.push_particle rt true) w0).
  intros w1 A1 A2 A3 A4 A5 A6.
  destruct (push_loop_closed rt false Confetti.burstCount 0 w1)
    as (B1 & B2 & B3 & B4 & B5 & B6 & _).
  cbv zeta in *. revert B1 B2 B3 B4 B5 B6.
  generalize (for_loop Confetti.burstCount 0
                (Confetti.push_particle rt false) w1).
  intros w2 B1 B2 B3 B4 B5 B6.
  assert (Hp : particles w2 = particles w ++ burst_particles rt w).
  { rewrite B1, A1, A2, A3, A4, Z1, Z2, Z3, Z4, <- app_assoc. reflexivity. }
  assert (Hr : rng w2 = (rng w + 210)%nat).
  { rewrite B2, A2, Z2. unfold Confetti.burstCount. lia. }
  assert (Ha : isAnimating w2 = isAnimating w) by congruence.
  assert (Hf : frames w2 = frames w) by congruence.
  assert (Hh : c_height w2 = c_height w) by congruence.
  rewrite Ha.
  split; [destruct (isAnimating w); cbn [negb];
          [exact Hr|rewrite animate_rng; exact Hr]|].
  split; intros E; rewrite E; cbn [negb].
  - split; [exact Hp|]. split; [exact Hf|]. rewrite Ha. exact E.
  - destruct (animate_spec rt (set_isAnimating true w2) eq_refl)
      as (C1 & _).
    cbv zeta in C1. rewrite C1. cbn [c_height particles set_isAnimating].
    rewrite Hh, Hp. reflexivity.
Qed.

(** X15: the constructor places a particle of [fire] at 15% (left
    cannon) or 85% (right cannon) of the canvas width, 20 above the
    bottom edge, with opacity 1, gravity 0.25 and drag 0.045.  Its
    direction is within 20 degrees of -45 (left) or -135 (right), its
    speed in [42.75, 54), its size in [4, 10), its wobble in [0, 360)
    with a wobble speed in [-1, 1), and its colour one of the five
    confetti colours. *)
Theorem particle_new_bounds (rt : JsRuntime) (width height : Q)
    (isLeftCannon : bool) (n : nat) :
  random_ok rt ->
  let p := Particle.new rt width height (cannon_options isLeftCannon) n in
  p_x p = (if isLeftCannon then width * 0.15 else width * 0.85)
  /\ p_y p = height - 20
  /\ p_opacity p = 1
  /\ constructed p
  /\ (exists deg,
        p_angle p = (deg * Math_PI rt) / 180
        /\ base_angle isLeftCannon - 20 <= deg
        /\ deg < base_angle isLeftCannon + 20)
  /\ 42.75 <= p_velocity p /\ p_velocity p < 54
  /\ 4 <= p_size p /\ p_size p < 10
  /\ 0 <= p_wobble p /\ p_wobble p < 360
  /\ -(1) <= p_wobbleSpeed p /\ p_wobbleSpeed p < 1
  /\ In (p_color p) defaultColors
  /\ p_vx p = Math_cos rt (p_angle p) * p_velocity p
  /\ p_vy p = Math_sin rt (p_angle p) * p_velocity p * 1.4.
Proof.
  intros Hr. cbv zeta.
  destruct (Hr n) as [R0 R0']. destruct (Hr (n + 1)%nat) as [R1 R1'].
  destruct (Hr (n + 2)%nat) as [R2 R2']. destruct (Hr (n + 3)%nat) as [R3 R3'].
  destruct (Hr (n + 4)%nat) as [R4 R4']. destruct (Hr (n + 5)%nat) as [R5 R5'].
  destruct (Hr (n + 6)%nat) as [R6 R6'].
  unfold Particle.new, cannon_options, base_angle.
  cbn [o_isLeftCannon o_velocity o_spread o_colors p_x p_y p_opacity p_angle
       p_velocity p_size p_wobble p_wobbleSpeed p_color p_vx p_vy].
  split; [reflexivity|]. split; [reflexivity|]. split; [reflexivity|].
  split; [split; reflexivity|].
  split.
  { eexists. split; [reflexivity|].
    destruct isLeftCannon; split; nra. }
  split; [nra|]. split; [nra|]. split; [nra|]. split; [nra|].
  split; [nra|]. split; [nra|]. split; [nra|]. split; [nra|].
  split; [|split; reflexivity].
  apply nth_In. apply floor_index_lt; [assumption|assumption|].
  unfold defaultColors. cbn. lia.
Qed.

Lemma particle_new_bounds_witness :
  let p := Particle.new sample_runtime 1920 1080 (cannon_options true) 0 in
  p_x p = 1920 * 0.15
  /\ p_y p = 1080 - 20
  /\ p_opacity p = 1
  /\ constructed p
  /\ (exists deg,
        p_angle p = (deg * Math_PI sample_runtime) / 180
        /\ base_angle true - 20 <= deg
        /\ deg < base_angle true + 20)
  /\ 42.75 <= p_velocity p /\ p_velocity p < 54
  /\ 4 <= p_size p /\ p_size p < 10
  /\ 0 <= p_wobble p /\ p_wobble p < 360
  /\ -(1) <= p_wobbleSpeed p /\ p_wobbleSpeed p < 1
  /\ In (p_color p) defaultColors
  /\ p_vx p = Math_cos sample_runtime (p_angle p) * p_velocity p
  /\ p_vy p = Math_sin sample_runtime (p_angle p) * p_velocity p * 1.4.
Proof.
  exact (particle_new_bounds sample_runtime 1920 1080 true 0
           sample_runtime_ok).
Defined.

(** ** The timers of an explosion (createExplosion, explode) *)

Lemma flat_map_seq_shift {A : Type} (f : nat -> list A) (n : nat) :
  forall a,
  flat_map f (seq (S a) n) = flat_map (fun k => f (S k)) (seq a n).
Proof.
  induction n as [|n IH]; intros a; [reflexivity|].
  cbn [seq flat_map]. rewrite IH. reflexivity.
Qed.

Lemma explosion_loop_closed (rt : JsRuntime) (x y : Q) (color : string)
    (now : Q) (n : nat) :
  forall start w,
  let w' := for_loop n start (Fireworks.explosion_step rt x y color now) w in
  timeouts w'
  = timeouts w ++ flat_map (spark_timers rt now (nextNode w) (rng w)) (seq 0 n)
  /\ nextNode w' = (nextNode w + n)%nat
  /\ rng w' = (rng w + 4 * n)%nat
  /\ rockets w' = rockets w
  /\ fireworks w' = fireworks w
  /\ exists new,
       sparks w' = sparks w ++ new
       /\ map spark_id new = seq (nextNode w) n
       /\ Forall (spark_at x y color) new.
Proof.
  cbv zeta. induction n as [|n IH]; intros start w.
  - cbn. rewrite app_nil_r, !Nat.add_0_r. repeat split.
    exists []. rewrite app_nil_r. repeat split. constructor.
  - cbn [for_loop].
    destruct (IH (S start) (Fireworks.explosion_step rt x y color now start w))
      as (A1 & A2 & A3 & A4 & A5 & new & A6 & A7 & A8).
    revert A1 A2 A3 A4 A5 A6 A7 A8.
    generalize (for_loop n (S start)
                  (Fireworks.explosion_step rt x y color now)
                  (Fireworks.explosion_step rt x y color now start w)).
    intros w' A1 A2 A3 A4 A5 A6 A7 A8.
    unfold Fireworks.explosion_step, Fireworks.createSpark, setTimeout, tick,
      rand in A1, A2, A3, A4, A5, A6, A7.
    cbn [timeouts nextNode rng rockets fireworks sparks fst snd
         set_timeouts set_nextNode set_rng set_sparks spark_id] in *.
    split.
    { rewrite A1, <- !app_assoc. f_equal.
      cbn [seq flat_map]. unfold spark_timers at 2.
      rewrite Nat.mul_0_r, !Nat.add_0_r. cbn [app].
      replace (rng w + 2)%nat with (S (S (rng w))) by lia.
      f_equal. f_equal.
      rewrite flat_map_seq_shift.
      apply flat_map_ext. intros k. unfold spark_timers.
      replace (S (S (S (S (rng w)))) + 4 * k + 2)%nat
        with (rng w + 4 * S k + 2)%nat by lia.
      replace (S (nextNode w) + k)%nat with (nextNode w + S k)%nat by lia.
      reflexivity. }
    split; [rewrite A2; lia|]. split; [rewrite A3; lia|].
    split; [exact A4|]. split; [exact A5|].
    eexists (_ :: new). split; [rewrite A6, <- app_assoc; reflexivity|].
    split.
    + cbn [map seq spark_id]. rewrite A7. reflexivity.
    + constructor; [repeat split|exact A8].
Qed.

(** X16: an explosion sets two timeouts for each of its 80 sparks, in
    the order of the sparks: the fade after [duration * 900] ms, which
    is at least 720 and less than 1260 ms, and the removal after 2000 ms,
    so every spark fades before it is removed.  The sparks get 80
    consecutive fresh node numbers, are placed at the point of the
    explosion in its colour, and the explosion consumes 320 random
    draws. *)
Theorem explosion_timers (rt : JsRuntime) (x y : Q) (color : string)
    (now : Q) (w : World) :
  random_ok rt ->
  let w' := Fireworks.createExplosion rt x y color now w in
  timeouts w'
  = timeouts w
    ++ flat_map (spark_timers rt now (nextNode w) (rng w)) (seq 0 80)
  /\ (forall k t id,
        In (t, CbFadeSpark id) (spark_timers rt now (nextNode w) (rng w) k) ->
        id = (nextNode w + k)%nat
        /\ now + 720 <= t /\ t < now + 1260
        /\ In (now + 2000, CbRemoveSpark id)
             (spark_timers rt now (nextNode w) (rng w) k))
  /\ nextNode w' = (nextNode w + 80)%nat
  /\ rng w' = (rng w + 320)%nat
  /\ exists new,
       sparks w' = sparks w ++ new
       /\ map spark_id new = seq (nextNode w) 80
       /\ Forall (spark_at x y color) new.
Proof.
  intros Hr. cbv zeta. unfold Fireworks.createExplosion.
  destruct (explosion_loop_closed rt x y color now Fireworks.particleCount 0 w)
    as (A1 & A2 & A3 & _ & _ & A6).
  cbv zeta in *. revert A1 A2 A3 A6.
  generalize (for_loop Fireworks.particleCount 0
                (Fireworks.explosion_step rt x y color now) w).
  intros w' A1 A2 A3 A6.
  split; [exact A1|]. split; [|split; [exact A2|split; [exact A3|exact A6]]].
  intros k t id Hin. unfold spark_timers in *. cbn [In] in *.
  destruct Hin as [E | [E | []]]; [|discriminate].
  pose proof (f_equal fst E) as Et. pose proof (f_equal snd E) as Eid.
  cbn [fst snd] in Et, Eid.
  assert (Eid' : (nextNode w + k)%nat = id) by congruence.
  clear E Eid. rename Eid' into Eid.
  destruct (Hr (rng w + 4 * k + 2)%nat) as [R0 R1].
  split; [symmetry; exact Eid|].
  split; [rewrite <- Et; lra|]. split; [rewrite <- Et; lra|].
  right. left. rewrite Eid. reflexivity.
Qed.

Lemma explosion_timers_witness :
  let w' := Fireworks.createExplosion sample_runtime 500 350 "#ff0000" 1800
              wide_page in
  timeouts w'
  = timeouts wide_page
    ++ flat_map (spark_timers sample_runtime 1800 (nextNode wide_page)
                   (rng wide_page)) (seq 0 80)
  /\ (forall k t id,
        In (t, CbFadeSpark id)
          (spark_timers sample_runtime 1800 (nextNode wide_page)
             (rng wide_page) k) ->
        id = (nextNode wide_page + k)%nat
        /\ 1800 + 720 <= t /\ t < 1800 + 1260
        /\ In (1800 + 2000, CbRemoveSpark id)
             (spark_timers sample_runtime 1800 (nextNode wide_page)
                (rng wide_page) k))
  /\ nextNode w' = (nextNode wide_page + 80)%nat
  /\ rng w' = (rng wide_page + 320)%nat
  /\ exists new,
       sparks w' = sparks wide_page ++ new
       /\ map spark_id new = seq (nextNode wide_page) 80
       /\ Forall (spark_at 500 350 "#ff0000") new.
Proof.
  exact (explosion_timers sample_runtime 500 350 "#ff0000" 1800 wide_page
           sample_runtime_ok).
Defined.

(** X17: the explosion callback of [launch] always produces its 80
    sparks and then takes its rocket out of the document, so the
    fallback removal 200 ms later finds nothing to remove.  The sparks
    start 50 below the top edge layout reports for the rocket; when the
    rocket is no longer in the document, as after [cleanup], that edge is
    0 and the explosion still takes place, at height 50. *)
Theorem explode_spec (rt : JsRuntime) (id : nat) (x : Q) (color : string)
    (rect_top now : Q) (w : World) :
  let attached := existsb (fun r => Nat.eqb (rocket_id r) id) (rockets w) in
  let w' := Fireworks.explode rt id x color rect_top now w in
  rockets w' = filter (fun r => negb (Nat.eqb (rocket_id r) id)) (rockets w)
  /\ (forall r, In r (rockets w') -> rocket_id r <> id)
  /\ Fireworks.remove_rocket id w' = w'
  /\ (exists new,
        sparks w' = sparks w ++ new
        /\ List.length new = 80%nat
        /\ Forall (spark_at x ((if attached then rect_top else 0) + 50) color)
             new)
  /\ (forall this, fireworks w = Some this ->
        let wc := Fireworks.explode rt id x color rect_top now
                    (Fireworks.cleanup w) in
        List.length (sparks wc) = 80%nat
        /\ Forall (spark_at x (0 + 50) color) (sparks wc)).
Proof.
  cbv zeta.
  assert (Hgen : forall w0,
    let w' := Fireworks.explode rt id x color rect_top now w0 in
    rockets w'
    = filter (fun r => negb (Nat.eqb (rocket_id r) id)) (rockets w0)
    /\ exists new,
         sparks w' = sparks w0 ++ new
         /\ List.length new = 80%nat
         /\ Forall (spark_at x
                      ((if existsb (fun r => Nat.eqb (rocket_id r) id)
                             (rockets w0)
                        then rect_top else 0) + 50) color) new).
  { intros w0. cbv zeta. unfold Fireworks.explode, Fireworks.createExplosion.
    cbv zeta.
    match goal with
    | |- context [for_loop _ 0 (Fireworks.explosion_step rt x ?y color now)] =>
        destruct (explosion_loop_closed rt x y color now
                    Fireworks.particleCount 0 w0)
          as (_ & _ & _ & A4 & _ & new & A6 & A7 & A8);
        cbv zeta in A4, A6;
        revert A4 A6;
        generalize (for_loop Fireworks.particleCount 0
                      (Fireworks.explosion_step rt x y color now) w0)
    end.
    intros w1 A4 A6. unfold Fireworks.remove_rocket.
    cbn [rockets sparks set_rockets]. rewrite A4.
    split; [reflexivity|].
    exists new. split; [exact A6|]. split; [|exact A8].
    rewrite <- (length_map spark_id), A7, length_seq. reflexivity. }
  destruct (Hgen w) as (Hro & Hsp). cbv zeta in Hro, Hsp.
  split; [exact Hro|].
  split.
  { intros r Hin. rewrite Hro in Hin. apply filter_In in Hin.
    destruct Hin as (_ & Hne). apply negb_true_iff, Nat.eqb_neq in Hne.
    exact Hne. }
  split.
  { revert Hro. generalize (Fireworks.explode rt id x color rect_top now w).
    intros w' Hro. unfold Fireworks.remove_rocket.
    apply set_rockets_same. rewrite Hro at 2. rewrite Hro.
    rewrite filter_idempotent. reflexivity. }
  split; [exact Hsp|].
  intros this Hf.
  destruct (Hgen (Fireworks.cleanup w)) as (_ & new & B1 & B2 & B3).
  cbv zeta in B1, B3. unfold Fireworks.cleanup in B1 at 2, B3.
  rewrite Hf in B1, B3. cbn [rockets sparks set_sparks set_rockets existsb app]
    in B1, B3.
  rewrite B1. split; [exact B2|exact B3].
Qed.

(** ** The flight of a particle (Particle.update, repeated) *)

Lemma decay_S (n : nat) : decay (S n) == decay n * 0.955.
Proof. reflexivity. Qed.

Lemma decay_pos (n : nat) : 0 < decay n /\ decay n <= 1.
Proof.
  induction n as [|n [IH1 IH2]].
  - cbn. split; lra.
  - rewrite decay_S. split; nra.
Qed.

(** X18: the flight of a constructed particle in closed form.  After [n]
    updates the horizontal velocity is [vx * 0.955 ^ n] and the vertical
    velocity has moved towards the terminal velocity 191/36 (about 5.31
    per tick) by the same factor, so a particle at or below that speed
    never exceeds it; the distance covered horizontally is
    [vx * (1 - 0.955 ^ n) / 0.045], at most [vx / 0.045] however long it
    flies; [0.045 * y + vy] has grown by [0.23875 * n]; the wobble has
    advanced by [n] times the wobble speed and colour and size are
    unchanged. *)
Theorem flight_closed_form (rt : JsRuntime) (height : Q) (n : nat)
    (p : Particle) :
  constructed p ->
  let q := updates rt height n p in
  constructed q
  /\ p_vx q == p_vx p * decay n
  /\ p_vy q - terminal_velocity == (p_vy p - terminal_velocity) * decay n
  /\ (p_vy p <= terminal_velocity -> p_vy q <= terminal_velocity)
  /\ 0.045 * (p_x q - p_x p) == p_vx p * (1 - decay n)
  /\ 0.045 * p_y q + p_vy q == 0.045 * p_y p + p_vy p + 0.23875 * Qnat n
  /\ p_wobble q == p_wobble p + Qnat n * p_wobbleSpeed p
  /\ p_color q = p_color p /\ p_size q = p_size p.
Proof.
  cbv zeta. revert p. induction n as [|n IH]; intros p Hc.
  - cbn [updates decay]. unfold terminal_velocity.
    change (Qnat 0) with (0 : Q).
    split; [exact Hc|]. repeat split; lra.
  - cbn [updates].
    pose proof (update_constructed rt height p Hc) as Hc1.
    destruct (IH _ Hc1) as (I1 & I2 & I3 & _ & I5 & I6 & I7 & I8 & I9).
    destruct Hc as [Hg Hd].
    revert I1 I2 I3 I5 I6 I7 I8 I9.
    generalize (updates rt height n (fst (Particle.update rt height p))).
    intros q I1 I2 I3 I5 I6 I7 I8 I9.
    cbn [Particle.update fst p_vx p_vy p_x p_y p_wobble p_wobbleSpeed
         p_color p_size] in I2, I3, I5, I6, I7, I8, I9.
    rewrite Hg, Hd in *.
    pose proof (decay_S n) as HS. destruct (decay_pos n) as [D0 D1].
    assert (HQ : Qnat (S n) == Qnat n + 1).
    { unfold Qnat. rewrite Nat2Z.inj_succ, <- Z.add_1_r, inject_Z_plus.
      reflexivity. }
    unfold terminal_velocity in *.
    assert (Hvy : p_vy q - 191 / 36 == (p_vy p - 191 / 36) * decay (S n))
      by (rewrite HS, I3; field).
    split; [exact I1|].
    split; [rewrite HS, I2; ring|].
    split; [exact Hvy|].
    split.
    { intros Hle. destruct (decay_pos (S n)) as [E0 E1].
      assert (Hneg : (p_vy p - 191 / 36) * decay (S n) <= 0) by nra.
      rewrite <- Hvy in Hneg. lra. }
    split.
    { rewrite HS.
      assert (E : 0.045 * (p_x q - p_x p)
                  == 0.045 * (p_x q - (p_x p + p_vx p)) + 0.045 * p_vx p)
        by ring.
      rewrite E, I5. ring. }
    split; [rewrite I6, HQ; field|].
    split; [rewrite I7, HQ; ring|].
    split; assumption.
Qed.

Lemma flight_closed_form_witness :
  let q := updates sample_runtime 1000 3 rising_particle in
  constructed q
  /\ p_vx q == p_vx rising_particle * decay 3
  /\ p_vy q - terminal_velocity
     == (p_vy rising_particle - terminal_velocity) * decay 3
  /\ (p_vy rising_particle <= terminal_velocity ->
      p_vy q <= terminal_velocity)
  /\ 0.045 * (p_x q - p_x rising_particle)
     == p_vx rising_particle * (1 - decay 3)
  /\ 0.045 * p_y q + p_vy q
     == 0.045 * p_y rising_particle + p_vy rising_particle
        + 0.23875 * Qnat 3
  /\ p_wobble q == p_wobble rising_particle
                   + Qnat 3 * p_wobbleSpeed rising_particle
  /\ p_color q = p_color rising_particle
  /\ p_size q = p_size rising_particle.
Proof.
  exact (flight_closed_form sample_runtime 1000 3 rising_particle
           (conj eq_refl eq_refl)).
Defined.

(** ** The two emitters side by side *)

(** X19: the two emitters do not interfere.  Starting, continuing,
    exploding and cleaning up the fireworks leave the confetti particles,
    the loop flag, the requested frames, the canvas and its size, the
    wrapper and the other modules as they are; firing, animating and
    cleaning up the confetti leave the rockets, the sparks, the node
    counter and the other modules as they are. *)
Theorem emitters_independent (rt : JsRuntime) (w : World) :
  (forall d now, outside_fireworks w (Fireworks.start rt d now w))
  /\ (forall now, outside_fireworks w (Fireworks.launchNext rt now w))
  /\ (forall id x color rect_top now,
        outside_fireworks w (Fireworks.explode rt id x color rect_top now w))
  /\ outside_fireworks w (Fireworks.cleanup w)
  /\ outside_confetti w (Confetti.fire rt w)
  /\ outside_confetti w (Confetti.animate rt w)
  /\ outside_confetti w (Confetti.cleanup w).
Proof.
  split; [intros d now; apply Fireworks_start_outside|].
  split; [intros now; apply launchNext_outside|].
  split; [intros id x color rect_top now; apply explode_outside|].
  split; [apply Fireworks_cleanup_outside|].
  split; [apply fire_outside|].
  split; [apply animate_outside|apply Confetti_cleanup_outside].
Qed.

(** ** After the celebration has ended *)

Lemma same_log_trans (w1 w2 w3 : World) :
  same_log w1 w2 -> same_log w2 w3 -> same_log w1 w3.
Proof. unfold same_log. congruence. Qed.

Lemma createExplosion_log (rt : JsRuntime) (x y : Q) (color : string)
    (now : Q) (w : World) :
  same_log w (Fireworks.createExplosion rt x y color now w).
Proof.
  unfold Fireworks.createExplosion.
  apply for_loop_invariant with (P := same_log w).
  - intros i w' Hw'. eapply same_log_trans; [exact Hw'|]. reflexivity.
  - reflexivity.
Qed.

Lemma remove_rocket_log (id : nat) (w : World) :
  same_log w (Fireworks.remove_rocket id w).
Proof. reflexivity. Qed.

Lemma explode_log (rt : JsRuntime) (id : nat) (x : Q) (color : string)
    (rect_top now : Q) (w : World) :
  same_log w (Fireworks.explode rt id x color rect_top now w).
Proof.
  unfold Fireworks.explode.
  match goal with |- context [Fireworks.createExplosion rt x ?y color now w] =>
    apply same_log_trans
      with (Fireworks.createExplosion rt x y color now w);
    [apply createExplosion_log | apply remove_rocket_log] end.
Qed.

Lemma quiescent_same (w w' : World) :
  celebrating w' = celebrating w -> isAnimating w' = isAnimating w ->
  particles w' = particles w -> fireworks w' = fireworks w ->
  quiescent w -> quiescent w'.
Proof.
  intros E1 E2 E3 E4 H. unfold quiescent. rewrite E1, E2, E3, E4. exact H.
Qed.

Lemma launchNext_quiescent (rt : JsRuntime) (now : Q) (w : World) :
  quiescent w -> 0 <= now -> Fireworks.launchNext rt now w = w.
Proof.
  intros (_ & _ & _ & Hf) Hnow.
  destruct (fireworks w) as [this|] eqn:Ef.
  - exact (launchNext_expired rt now 0 w this Ef Hf Hnow).
  - unfold Fireworks.launchNext. rewrite Ef. reflexivity.
Qed.

Lemma stopCelebration_quiescent (w : World) :
  quiescent (MMM_Birthday.stopCelebration w).
Proof.
  destruct (stopCelebration_flags w) as (Hc & _).
  destruct (stopCelebration_fields w)
    as (_ & _ & _ & _ & _ & _ & Hf & Hp & Ha & _).
  unfold quiescent. rewrite Hc, Hp, Ha, Hf.
  destruct (fireworks w); repeat split.
Qed.

Lemma suspend_quiescent (w : World) :
  celebrating w = true -> quiescent (MMM_Birthday.suspend w).
Proof.
  intros Hcel.
  destruct (suspend_flags w) as (_ & Hfl). destruct (Hfl Hcel) as (Hc & _).
  destruct (suspend_fields w Hcel)
    as (_ & _ & _ & _ & _ & _ & Hf & Hp & Ha & _).
  unfold quiescent. rewrite Hc, Hp, Ha, Hf.
  destruct (fireworks w); repeat split.
Qed.

Lemma run_callback_quiescent (rt : JsRuntime) (cb : Callback)
    (now rect_top : Q) (w : World) :
  quiescent w -> 0 <= now ->
  quiescent (run_callback rt cb now rect_top w)
  /\ log (run_callback rt cb now rect_top w) = log w.
Proof.
  intros H Hnow.
  destruct cb as [|id x color|id|id|id|isInfinite end_|]; cbn [run_callback].
  - rewrite launchNext_quiescent by assumption. split; [exact H|reflexivity].
  - split; [|apply explode_log].
    destruct (explode_ctl rt id x color rect_top now w) as (_ & _ & Hc & _).
    destruct (explode_quiet rt id x color rect_top now w) as (Hf & _).
    destruct (explode_outside rt id x color rect_top now w)
      as (Hp & Ha & _).
    revert Hc Hf Hp Ha.
    generalize (Fireworks.explode rt id x color rect_top now w).
    intros w' Hc Hf Hp Ha. exact (quiescent_same w w' Hc Ha Hp Hf H).
  - split; [exact H|reflexivity].
  - split; [exact H|reflexivity].
  - split; [exact H|reflexivity].
  - destruct H as (Hc & H'). unfold MMM_Birthday.fireBurst. rewrite Hc.
    cbn [andb]. split; [split; assumption|reflexivity].
  - split; [apply stopCelebration_quiescent|].
    destruct (stopCelebration_fields w) as (_ & _ & _ & _ & Hl & _).
    exact Hl.
Qed.

Lemma idle_frames (rt : JsRuntime) (n : nat) :
  forall start w,
  isAnimating w = false ->
  for_loop n start (fun _ => Confetti.animate rt) w = w.
Proof.
  induction n as [|n IH]; intros start w Ha; [reflexivity|].
  cbn [for_loop]. unfold Confetti.animate at 2. rewrite Ha. cbn [negb].
  apply IH. exact Ha.
Qed.

Lemma step_quiescent (rt : JsRuntime) (ev : Event) (w : World) :
  quiescent w -> between_checks ev ->
  quiescent (step rt ev w) /\ log (step rt ev w) = log w.
Proof.
  intros H Hev.
  destruct ev as [k now top|month day now| | |now|width height];
    cbn [between_checks] in Hev; try contradiction; cbn [step].
  - destruct (nth_error (timeouts w) k) as [[due cb]|];
      [|split; [exact H|reflexivity]].
    destruct (Qle_bool due now); [|split; [exact H|reflexivity]].
    apply (run_callback_quiescent rt cb now top
             (set_timeouts (remove_nth k (timeouts w)) w)); [exact H|exact Hev].
  - destruct H as (Hc & Ha & Hp & Hf).
    rewrite idle_frames by exact Ha.
    split; [split; [|split; [|split]]; assumption|reflexivity].
  - destruct H as (Hc & H'). unfold MMM_Birthday.suspend. rewrite Hc.
    split; [split; assumption|reflexivity].
  - split; [exact H|reflexivity].
Qed.

Lemma run_quiescent (rt : JsRuntime) (evs : list Event) :
  forall w,
  quiescent w -> Forall between_checks evs ->
  quiescent (run rt evs w) /\ log (run rt evs w) = log w.
Proof.
  induction evs as [|ev evs IH]; intros w H Hevs;
    [split; [exact H|reflexivity]|].
  inversion Hevs as [|? ? Hev Hrest]; subst. cbn [run].
  destruct (step_quiescent rt ev w H Hev) as (H1 & L1).
  destruct (IH (step rt ev w) H1 Hrest) as (H2 & L2).
  split; [exact H2|]. rewrite L2. exact L1.
Qed.

(** X20: once [stopCelebration] has run, and likewise once [suspend] has
    run during a celebration, nothing is launched, fired or celebrated
    until the next periodic check or [resume], whatever timeouts, frames,
    resizes and calls of [suspend] follow: the timers that were not
    cancelled run without effect on the emitters, the record of launches,
    bursts and celebrations stays as it was, no confetti particle appears
    and [celebrating] stays false. *)
Theorem stopped_stays_quiet (rt : JsRuntime) (evs : list Event) (w : World) :
  Forall between_checks evs ->
  (let ws := MMM_Birthday.stopCelebration w in
   quiescent (run rt evs ws)
   /\ log (run rt evs ws) = log w
   /\ launches (run rt evs ws) = launches w
   /\ bursts (run rt evs ws) = bursts w)
  /\ (celebrating w = true ->
      let s := MMM_Birthday.suspend w in
      quiescent (run rt evs s)
      /\ log (run rt evs s) = log w
      /\ launches (run rt evs s) = launches w
      /\ bursts (run rt evs s) = bursts w).
Proof.
  intros Hevs. cbv zeta. split.
  - destruct (run_quiescent rt evs (MMM_Birthday.stopCelebration w)
                (stopCelebration_quiescent w) Hevs) as (H & L).
    destruct (stopCelebration_fields w) as (_ & _ & _ & _ & Hl & _).
    rewrite Hl in L. unfold launches, bursts. rewrite L.
    repeat split; try reflexivity; apply H.
  - intros Hcel.
    destruct (run_quiescent rt evs (MMM_Birthday.suspend w)
                (suspend_quiescent w Hcel) Hevs) as (H & L).
    destruct (suspend_fields w Hcel) as (_ & _ & _ & _ & Hl & _).
    rewrite Hl in L. unfold launches, bursts. rewrite L.
    repeat split; try reflexivity; apply H.
Qed.

(** After Anna's celebration is stopped: the pending explosion, a frame,
    the pending [launchNext] and the pending [fireBurst]. *)
Lemma stopped_stays_quiet_witness :
  let evs := [EvTimeout 0 1800 300; EvFrame; EvTimeout 1 1900 0;
              EvTimeout 1 2000 0] in
  (let ws := MMM_Birthday.stopCelebration anna_started in
   quiescent (run sample_runtime evs ws)
   /\ log (run sample_runtime evs ws) = log anna_started
   /\ launches (run sample_runtime evs ws) = launches anna_started
   /\ bursts (run sample_runtime evs ws) = bursts anna_started)
  /\ (celebrating anna_started = true ->
      let s := MMM_Birthday.suspend anna_started in
      quiescent (run sample_runtime evs s)
      /\ log (run sample_runtime evs s) = log anna_started
      /\ launches (run sample_runtime evs s) = launches anna_started
      /\ bursts (run sample_runtime evs s) = bursts anna_started).
Proof.
  apply (stopped_stays_quiet sample_runtime
           [EvTimeout 0 1800 300; EvFrame; EvTimeout 1 1900 0;
            EvTimeout 1 2000 0] anna_started).
  repeat constructor; cbn; lra.
Defined.
